(** * Azure storage client: request canonicalization, entity serialization
    and service-error decoding

    A shallow embedding of the Go package [storage]: the request signers
    ([canonicalHeader], [canonicalResource], [encodeComponents] and the two
    [canonicalizedString] builders), the table entities ([MapTableEntity],
    [StructTableEntity]) and the error decoders ([serviceErrFromXML],
    [tableErrFromJSON]).

    A Go [string] is a sequence of bytes: it is a Rocq [string], whose
    characters are the bytes.  A Go [map] is a [gmap]; the order in which
    [range] visits a map is not specified by the language, so the loops over
    maps take the visiting order as an argument.  A Go [error] is a value of
    the inductive type [error]; a call that can panic returns an [outcome]. *)

From Stdlib Require Import ZArith Ascii DecimalString.
From Stdlib Require String.
From stdpp Require Import gmap strings list sorting.

Local Open Scope Z_scope.

(** ** Bytes and strings *)

Definition byte (c : ascii) : Z := Z.of_N (N_of_ascii c).
Definition chr (z : Z) : ascii := ascii_of_N (Z.to_N z).

Definition between (lo hi x : Z) : bool := (lo <=? x) && (x <=? hi).

Definition LF : string := String (chr 10) "".
Definition TAB : string := String (chr 9) "".
Definition DQ : string := String (chr 34) "".

Fixpoint bytes (s : string) : list ascii :=
  match s with
  | EmptyString => []
  | String c r => c :: bytes r
  end.

Fixpoint of_bytes (l : list ascii) : string :=
  match l with
  | [] => EmptyString
  | c :: r => String c (of_bytes r)
  end.

Fixpoint string_map (f : ascii → ascii) (s : string) : string :=
  match s with
  | EmptyString => EmptyString
  | String c r => String (f c) (string_map f r)
  end.

Fixpoint string_all (p : ascii → bool) (s : string) : bool :=
  match s with
  | EmptyString => true
  | String c r => p c && string_all p r
  end.

Fixpoint string_drop (n : nat) (s : string) : string :=
  match n, s with
  | S n, String _ r => string_drop n r
  | _, _ => s
  end.

Fixpoint string_rev_onto (acc s : string) : string :=
  match s with
  | EmptyString => acc
  | String c r => string_rev_onto (String c acc) r
  end.

Definition string_rev (s : string) : string := string_rev_onto "" s.

Fixpoint drop_while (p : ascii → bool) (s : string) : string :=
  match s with
  | EmptyString => EmptyString
  | String c r => if p c then drop_while p r else s
  end.

(** [sq s] is [s] with every apostrophe replaced by a double quote: the Go
    literals of the tests are written with apostrophes. *)
Definition sq (s : string) : string :=
  string_map (λ c, if (byte c =? 39) then chr 34 else c) s.

(** ** Package unicode/utf8 *)

Definition RuneError : Z := 65533.

(** [first] and [acceptRanges] of package utf8: for a leading byte, the size
    of the sequence and the range of its second byte. *)
Definition utf8_first (b0 : Z) : option (nat * Z * Z) :=
  if between 194 223 b0 then Some (2%nat, 128, 191)
  else if b0 =? 224 then Some (3%nat, 160, 191)
  else if between 225 236 b0 then Some (3%nat, 128, 191)
  else if b0 =? 237 then Some (3%nat, 128, 159)
  else if between 238 239 b0 then Some (3%nat, 128, 191)
  else if b0 =? 240 then Some (4%nat, 144, 191)
  else if between 241 243 b0 then Some (4%nat, 128, 191)
  else if b0 =? 244 then Some (4%nat, 128, 143)
  else None.

Definition utf8_DecodeRuneInString (s : string) : Z * nat :=
  match s with
  | EmptyString => (RuneError, 0%nat)
  | String c0 r0 =>
    let s0 := byte c0 in
    if s0 <? 128 then (s0, 1%nat)
    else
      match utf8_first s0 with
      | None => (RuneError, 1%nat)
      | Some (sz, lo, hi) =>
        if (String.length s <? sz)%nat then (RuneError, 1%nat)
        else
          match r0 with
          | EmptyString => (RuneError, 1%nat)
          | String c1 r1 =>
            let s1 := byte c1 in
            if negb (between lo hi s1) then (RuneError, 1%nat)
            else if (sz <=? 2)%nat then
              (Z.lor (Z.shiftl (Z.land s0 31) 6) (Z.land s1 63), 2%nat)
            else
              match r1 with
              | EmptyString => (RuneError, 1%nat)
              | String c2 r2 =>
                let s2 := byte c2 in
                if negb (between 128 191 s2) then (RuneError, 1%nat)
                else if (sz <=? 3)%nat then
                  (Z.lor (Z.lor (Z.shiftl (Z.land s0 15) 12)
                                (Z.shiftl (Z.land s1 63) 6))
                         (Z.land s2 63), 3%nat)
                else
                  match r2 with
                  | EmptyString => (RuneError, 1%nat)
                  | String c3 _ =>
                    let s3 := byte c3 in
                    if negb (between 128 191 s3) then (RuneError, 1%nat)
                    else
                      (Z.lor (Z.lor (Z.lor (Z.shiftl (Z.land s0 7) 18)
                                           (Z.shiftl (Z.land s1 63) 12))
                                    (Z.shiftl (Z.land s2 63) 6))
                             (Z.land s3 63), 4%nat)
                  end
              end
          end
      end
  end.

(** [for _, c := range s]: the runes of [s] in order, a byte that starts no
    valid sequence giving [RuneError]. *)
Fixpoint range_string (fuel : nat) (s : string) : list Z :=
  match fuel, s with
  | S fuel, String _ _ =>
    let '(r, size) := utf8_DecodeRuneInString s in
    r :: range_string fuel (string_drop size s)
  | _, _ => []
  end.

Definition runes (s : string) : list Z := range_string (String.length s) s.

(** [string(c)] for a rune [c]: its UTF-8 encoding, an invalid rune giving
    the encoding of [RuneError]. *)
Definition utf8_EncodeRune (r : Z) : string :=
  let tx (x : Z) := chr (Z.lor 128 (Z.land x 63)) in
  let three (x : Z) :=
    String (chr (Z.lor 224 (Z.shiftr x 12)))
      (String (tx (Z.shiftr x 6)) (String (tx x) "")) in
  if between 0 127 r then String (chr r) ""
  else if between 128 2047 r then
    String (chr (Z.lor 192 (Z.shiftr r 6))) (String (tx r) "")
  else if (r <? 0) || (1114111 <? r) || between 55296 57343 r then three RuneError
  else if r <=? 65535 then three r
  else
    String (chr (Z.lor 240 (Z.shiftr r 18)))
      (String (tx (Z.shiftr r 12)) (String (tx (Z.shiftr r 6)) (String (tx r) ""))).

(** ** What the source leaves to the Go runtime

    Four behaviours are not fixed by the source: the Unicode case and
    white-space tables, which [strings.ToLower] and [strings.TrimSpace]
    consult as soon as a string holds a byte above 127; the treatment of [;]
    by [url.ParseQuery] (a separator up to Go 1.16, an error from Go 1.17);
    and the order in which [range] visits the entries of a map, which is any
    arrangement of them.  The development is parametric in all four. *)
Class GoRuntime := {
  unicode_ToLower : string → string;
  unicode_TrimSpace : string → string;
  semicolon_separates : bool;
  range_map : gmap string string → list (string * string);
  range_map_visits : ∀ m, range_map m ≡ₚ map_to_list m;
}.

(** A runtime for closed examples: strings above ASCII are left alone and
    maps are visited in the order of [map_to_list]. *)
Definition go_ascii : GoRuntime :=
  {| unicode_ToLower := λ s, s;
     unicode_TrimSpace := λ s, s;
     semicolon_separates := false;
     range_map := map_to_list;
     range_map_visits := λ m, reflexivity (map_to_list m) |}.

(** ** Package strings *)

Definition isASCII (s : string) : bool := string_all (λ c, byte c <? 128) s.

Definition lower_byte (c : ascii) : ascii :=
  if between 65 90 (byte c) then chr (byte c + 32) else c.

Definition asciiSpace (c : ascii) : bool :=
  let b := byte c in between 9 13 b || (b =? 32).

Definition strings_ToLower `{GoRuntime} (s : string) : string :=
  if isASCII s then string_map lower_byte s else unicode_ToLower s.

Definition strings_TrimSpace `{GoRuntime} (s : string) : string :=
  if isASCII s then
    string_rev (drop_while asciiSpace (string_rev (drop_while asciiSpace s)))
  else unicode_TrimSpace s.

Definition strings_HasPrefix (s prefix : string) : bool := String.prefix prefix s.

(** [strings.Split(s, sep)] for a separator of one byte. *)
Fixpoint split_onto (sep : ascii) (cur : string) (s : string) : list string :=
  match s with
  | EmptyString => [string_rev cur]
  | String c r =>
    if Ascii.eqb c sep then string_rev cur :: split_onto sep "" r
    else split_onto sep (String c cur) r
  end.

Definition strings_Split (s : string) (sep : ascii) : list string :=
  split_onto sep "" s.

(** ** Package sort *)

(** The order of Go strings: byte by byte, a proper prefix first. *)
Fixpoint str_ltb (s t : string) : bool :=
  match s, t with
  | _, EmptyString => false
  | EmptyString, String _ _ => true
  | String a s', String b t' =>
    (byte a <? byte b) || ((byte a =? byte b) && str_ltb s' t')
  end.

Definition str_lt (s t : string) : Prop := str_ltb s t = true.
Definition str_le (s t : string) : Prop := str_ltb t s = false.

Global Instance str_le_dec s t : Decision (str_le s t).
Proof. unfold str_le. apply _. Defined.

(** [sort.Strings]: the result is the ascending arrangement of the slice. *)
Definition sort_Strings (l : list string) : list string := merge_sort str_le l.

(** ** Errors

    The two structured service errors, and the values of Go's [error]
    interface that the package produces or passes on. *)

Module AzureStorageServiceError.
Record t := {
  Code : string;
  Message : string;
  AuthenticationErrorDetail : string;
  QueryParameterName : string;
  QueryParameterValue : string;
  Reason : string;
  StatusCode : Z;
  RequestID : string;
}.
Definition zero : t := Build_t "" "" "" "" "" "" 0 "".
End AzureStorageServiceError.

Module AzureStorageTableServiceError.
Record message := { Lang : string; Value : string }.
Record t := {
  Code : string;
  Message : message;
  StatusCode : Z;
  RequestID : string;
}.
Definition zero : t := Build_t "" (Build_message "" "") 0 "".
End AzureStorageTableServiceError.

Inductive error :=
  | EscapeError (s : string)
  | SemicolonError
  | CanonicalResourceError (err : error)
  | ErrorString (msg : string)
  | DeserializationError (err : error) (body : string)
  | SyntaxError
  | UnmarshalTypeError (field : string)
  | CodecError (msg : string)
  | ServiceError (e : AzureStorageServiceError.t)
  | TableServiceError (e : AzureStorageTableServiceError.t).

(** A call either returns or panics. *)
Inductive outcome (A : Type) :=
  | Returns (a : A)
  | Panics.
Arguments Returns {A} a.
Arguments Panics {A}.

Definition outcome_bind {A B} (x : outcome A) (f : A → outcome B) : outcome B :=
  match x with
  | Returns a => f a
  | Panics => Panics
  end.

Notation "x ←! e1 ; e2" := (outcome_bind e1 (λ x, e2))
  (at level 20, e1 at level 100, e2 at level 200, right associativity,
   format "x  ←!  e1 ;  '/' e2").

(** ** Package net/url *)

(** [shouldEscape(c, encodeQueryComponent)]. *)
Definition shouldEscape (c : ascii) : bool :=
  let b := byte c in
  if between 97 122 b || between 65 90 b || between 48 57 b then false
  else if (b =? 45) || (b =? 95) || (b =? 46) || (b =? 126) then false
  else true.

Definition upperhex (n : Z) : ascii :=
  if n <? 10 then chr (48 + n) else chr (55 + n).

Fixpoint count_bytes (p : ascii → bool) (s : string) : nat :=
  match s with
  | EmptyString => 0%nat
  | String c r => ((if p c then 1 else 0) + count_bytes p r)%nat
  end.

Fixpoint escape_bytes (s : string) : string :=
  match s with
  | EmptyString => EmptyString
  | String c r =>
    if byte c =? 32 then String (chr 43) (escape_bytes r)
    else if shouldEscape c then
      String (chr 37)
        (String (upperhex (Z.shiftr (byte c) 4))
           (String (upperhex (Z.land (byte c) 15)) (escape_bytes r)))
    else String c (escape_bytes r)
  end.

Definition url_QueryEscape (s : string) : string :=
  let spaceCount := count_bytes (λ c, shouldEscape c && (byte c =? 32)) s in
  let hexCount := count_bytes (λ c, shouldEscape c && negb (byte c =? 32)) s in
  if (spaceCount =? 0)%nat && (hexCount =? 0)%nat then s else escape_bytes s.

Definition ishex (c : ascii) : bool :=
  let b := byte c in between 48 57 b || between 97 102 b || between 65 70 b.

Definition unhex (c : ascii) : Z :=
  let b := byte c in
  if between 48 57 b then b - 48
  else if between 97 102 b then b - 97 + 10
  else if between 65 70 b then b - 65 + 10
  else 0.

Definition string_take (n : nat) (s : string) : string := String.substring 0 n s.

(** First pass of [unescape]: every [%] is followed by two hex digits. *)
Fixpoint unescape_check (s : string) : option error :=
  match s with
  | EmptyString => None
  | String c r =>
    if byte c =? 37 then
      match r with
      | String h1 (String h2 r') =>
        if ishex h1 && ishex h2 then unescape_check r'
        else Some (EscapeError (string_take 3 s))
      | _ => Some (EscapeError (string_take 3 s))
      end
    else unescape_check r
  end.

(** Second pass of [unescape], in query mode. *)
Fixpoint unescape_bytes (s : string) : string :=
  match s with
  | EmptyString => EmptyString
  | String c r =>
    if byte c =? 37 then
      match r with
      | String h1 (String h2 r') =>
        String (chr (Z.lor (Z.shiftl (unhex h1) 4) (unhex h2))) (unescape_bytes r')
      | _ => EmptyString
      end
    else if byte c =? 43 then String (chr 32) (unescape_bytes r)
    else String c (unescape_bytes r)
  end.

Definition is_percent (c : ascii) : bool := byte c =? 37.
Definition is_plus (c : ascii) : bool := byte c =? 43.

Definition url_QueryUnescape (s : string) : string * option error :=
  match unescape_check s with
  | Some e => ("", Some e)
  | None =>
    let n := count_bytes is_percent s in
    let hasPlus := negb (Nat.eqb (count_bytes is_plus s) 0) in
    if Nat.eqb n 0 && negb hasPlus then (s, None) else (unescape_bytes s, None)
  end.

(** [url.Values]. *)
Definition Values_Get (v : gmap string (list string)) (key : string) : string :=
  match v !! key with
  | Some (x :: _) => x
  | _ => ""
  end.

Definition Values_Set (v : gmap string (list string)) (key value : string)
  : gmap string (list string) :=
  <[key := [value]]> v.

Definition Values_Encode (v : gmap string (list string)) : string :=
  if (size v =? 0)%nat then ""
  else
    let keys := sort_Strings (map fst (map_to_list v)) in
    foldl (λ buf k,
             let vs := default [] (v !! k) in
             let keyEscaped := url_QueryEscape k in
             foldl (λ buf x,
                      (if (String.length buf =? 0)%nat then buf else buf +:+ "&")
                        +:+ keyEscaped +:+ "=" +:+ url_QueryEscape x)
                   buf vs)
          "" keys.

(** [strings.Cut(s, sep)] for a set of separating bytes: the text before the
    first separator, the text after it, and whether there is one. *)
Fixpoint cut_at (sep : ascii → bool) (s : string) : string * string * bool :=
  match s with
  | EmptyString => ("", "", false)
  | String c r =>
    if sep c then ("", r, true)
    else let '(a, b, found) := cut_at sep r in (String c a, b, found)
  end.

Definition is_amp (c : ascii) : bool := byte c =? 38.
Definition is_semi (c : ascii) : bool := byte c =? 59.
Definition is_equals (c : ascii) : bool := byte c =? 61.

Definition query_separator `{GoRuntime} (c : ascii) : bool :=
  is_amp c || (semicolon_separates && is_semi c).

(** The successive values of [key] in the loop of [parseQuery]. *)
Fixpoint query_components_fuel `{GoRuntime} (fuel : nat) (query : string) : list string :=
  match fuel, query with
  | S fuel, String _ _ =>
    let '(key, rest, _) := cut_at query_separator query in
    key :: query_components_fuel fuel rest
  | _, _ => []
  end.

Definition query_components `{GoRuntime} (query : string) : list string :=
  query_components_fuel (String.length query) query.

(** One turn of the loop of [parseQuery], on the component [key]. *)
Definition parseQuery_step `{GoRuntime}
    (st : gmap string (list string) * option error) (key : string)
  : gmap string (list string) * option error :=
  let '(m, err) := st in
  if negb semicolon_separates && negb (Nat.eqb (count_bytes is_semi key) 0) then
    (m, Some SemicolonError)
  else if (String.length key =? 0)%nat then (m, err)
  else
    let '(key, value, _) := cut_at is_equals key in
    match url_QueryUnescape key with
    | (_, Some err1) => (m, if err is None then Some err1 else err)
    | (key, None) =>
      match url_QueryUnescape value with
      | (_, Some err1) => (m, if err is None then Some err1 else err)
      | (value, None) => (<[key := default [] (m !! key) ++ [value]]> m, err)
      end
    end.

Definition url_ParseQuery `{GoRuntime} (query : string)
  : gmap string (list string) * option error :=
  foldl parseQuery_step (∅, None) (query_components query).

(** The fields of [url.URL] that the signers read. *)
Record URL := { Path : string; RawQuery : string }.

(** ** The request signers *)

Record baseSigner := { accountName : string }.

Definition canonicalHeader `{GoRuntime} (b : baseSigner) (headers : gmap string string)
  : string :=
  let cm :=
    foldl (λ (cm : gmap string string) '(k, v),
             let headerName := strings_TrimSpace (strings_ToLower k) in
             if strings_HasPrefix headerName "x-ms-" then <[headerName := v]> cm
             else cm)
          ∅ (range_map headers) in
  if (size cm =? 0)%nat then ""
  else
    let keys := sort_Strings (map fst (range_map cm)) in
    snd (foldl (λ '(i, ch) key,
                  (S i,
                   if (i =? List.length keys - 1)%nat
                   then ch +:+ key +:+ ":" +:+ default "" (cm !! key)
                   else ch +:+ key +:+ ":" +:+ default "" (cm !! key) +:+ LF))
               (0%nat, "") keys).

Definition encodeComponents (b : baseSigner) (path : string) : string :=
  foldl (λ out c,
           if between 97 122 c || between 65 90 c || between 48 57 c
              || ((c =? 47) || (c =? 44) || (c =? 36) || (c =? 61))
           then out +:+ utf8_EncodeRune c
           else out +:+ url_QueryEscape (utf8_EncodeRune c))
        "" (runes path).

Definition canonicalResource `{GoRuntime} (b : baseSigner) (resourceURL : URL)
  : string * option error :=
  let cr := "/" +:+ accountName b +:+ encodeComponents b (Path resourceURL) in
  let '(params, err) := url_ParseQuery (RawQuery resourceURL) in
  match err with
  | Some err => ("", Some (CanonicalResourceError err))
  | None =>
    if negb (String.eqb (Values_Get params "comp") "") then
      let v := Values_Set ∅ "comp" (Values_Get params "comp") in
      (cr +:+ "?" +:+ Values_Encode v, None)
    else (cr, None)
  end.

(** [blobQueueSigner] and [tableSigner] embed a [baseSigner]. *)
Definition blobQueueSigner_canonicalizedString `{GoRuntime}
    (s : baseSigner) (verb : string) (headers : gmap string string) (resourceURL : URL)
  : string * option error :=
  let cHeader := canonicalHeader s headers in
  match canonicalResource s resourceURL with
  | (_, Some err) => ("", Some err)
  | (cRes, None) =>
    (verb +:+ LF +:+ default "" (headers !! "Content-MD5") +:+ LF
       +:+ default "" (headers !! "Content-Type") +:+ LF
       +:+ default "" (headers !! "Date") +:+ LF
       +:+ cHeader +:+ LF +:+ cRes, None)
  end.

Definition tableSigner_canonicalizedString `{GoRuntime}
    (s : baseSigner) (verb : string) (headers : gmap string string) (resourceURL : URL)
  : string * option error :=
  match canonicalResource s resourceURL with
  | (_, Some err) => ("", Some err)
  | (cRes, None) => (default "" (headers !! "x-ms-date") +:+ LF +:+ cRes, None)
  end.

(** ** Package encoding/json: encoding

    The values a table entity holds are JSON literals ("The values for the
    keys must be JSON literal values; not objects or arrays").  A finite
    [float64] is carried as the digits the encoder prints for it. *)

Inductive GoValue :=
  | VNil
  | VBool (b : bool)
  | VInt (z : Z)
  | VFloat64 (digits : string)
  | VString (s : string).

(** Package reflect: the kinds of types, and what the entity code reads of a
    type and of a struct field. *)
Inductive Kind :=
  | Invalid | Bool | Int | Int8 | Int16 | Int32 | Int64
  | Uint | Uint8 | Uint16 | Uint32 | Uint64 | Uintptr
  | Float32 | Float64 | Complex64 | Complex128
  | Array | Chan | Func | Interface | Map | Ptr | Slice
  | String_ | Struct | UnsafePointer.

Global Instance Kind_eq_dec : EqDecision Kind.
Proof. solve_decision. Defined.

Record StructField := { Name : string; Tag : list (string * string) }.

Record GoType := { type_kind : Kind; type_fields : list StructField }.

(** A non-nil value of type [interface{}]: its dynamic type and, for a
    struct, the values of its fields. *)
Record GoDynamic := { dyn_type : GoType; dyn_fields : list GoValue }.

(** What the source leaves to package encoding/json: the escaped form of a
    string that holds a byte outside the printable ASCII range or one of the
    characters the encoder escapes; the encoding of a struct ([json.Marshal])
    and the decoding of a document into a [map[string]interface{}]
    ([json.Unmarshal]), whose numbers are [float64]. *)
Class EncodingJSON := {
  json_escaped : string → string;
  json_Marshal : GoDynamic → string * option error;
  json_Unmarshal_map : string → option (gmap string GoValue) * option error;
}.

Definition json_plain (c : ascii) : bool :=
  let b := byte c in
  between 32 126 b
  && negb ((b =? 34) || (b =? 92) || (b =? 60) || (b =? 62) || (b =? 38)).

Definition encodeString `{EncodingJSON} (s : string) : string :=
  if string_all json_plain s then DQ +:+ s +:+ DQ else json_escaped s.

Definition itoa (z : Z) : string := NilZero.string_of_int (Z.to_int z).

Definition encodeValue `{EncodingJSON} (v : GoValue) : string :=
  match v with
  | VNil => "null"
  | VBool true => "true"
  | VBool false => "false"
  | VInt z => itoa z
  | VFloat64 digits => digits
  | VString s => encodeString s
  end.

(** [json.MarshalIndent(m, "", "\t")] for a [map[string]interface{}] of
    literals: the encoder sorts the keys, and [Indent] puts every member on a
    line of its own, one tab deep, with a space after the colon.  A nil map
    is [null] and a map without entries is [{}]. *)
Definition json_MarshalIndent `{EncodingJSON} (m : option (gmap string GoValue))
  : option string * option error :=
  match m with
  | None => (Some "null", None)
  | Some m =>
    let keys := sort_Strings (map fst (map_to_list m)) in
    if (List.length keys =? 0)%nat then (Some "{}", None)
    else
      let members :=
        snd (foldl (λ '(i, out) k,
                      (S i,
                       out +:+ (if (i =? 0)%nat then "" else ",") +:+ LF +:+ TAB
                           +:+ encodeString k +:+ ":" +:+ " "
                           +:+ encodeValue (default VNil (m !! k))))
                   (0%nat, "{") keys) in
      (Some (members +:+ LF +:+ "}"), None)
  end.

(** ** Table entities *)

(** [MapTableEntity] is a [map[string]interface{}]: nil, or allocated. *)
Definition MapTableEntity_jsonMarshal `{EncodingJSON} (m : option (gmap string GoValue))
  : option string * option error :=
  json_MarshalIndent m.

Record StructTableEntity := { Val : option GoDynamic }.

Definition reflect_TypeOf (i : option GoDynamic) : option GoType := dyn_type <$> i.

(** The methods of a [reflect.Type]: on a nil type, and [NumField] and
    [Field] outside structs and their fields, they panic. *)
Definition Type_Kind (t : option GoType) : outcome Kind :=
  match t with
  | Some t => Returns (type_kind t)
  | None => Panics
  end.

Definition Type_NumField (t : option GoType) : outcome nat :=
  match t with
  | Some t => if decide (type_kind t = Struct) then Returns (List.length (type_fields t)) else Panics
  | None => Panics
  end.

Definition Type_Field (t : option GoType) (i : nat) : outcome StructField :=
  match t with
  | Some t =>
    if decide (type_kind t = Struct) then
      match type_fields t !! i with
      | Some f => Returns f
      | None => Panics
      end
    else Panics
  | None => Panics
  end.

(** [f.Tag.Get(key)]: the value of the first [key:"value"] pair of the tag,
    the empty string when there is none. *)
Fixpoint Tag_Get (tag : list (string * string)) (key : string) : string :=
  match tag with
  | [] => ""
  | (k, v) :: tag => if String.eqb k key then v else Tag_Get tag key
  end.

(** [xs[i]]: indexing a slice out of range panics. *)
Definition index {A} (xs : list A) (i : nat) : outcome A :=
  match xs !! i with
  | Some x => Returns x
  | None => Panics
  end.

(** [m[k] = v]: assignment to an entry of a nil map panics. *)
Definition map_assign {V} (m : option (gmap string V)) (k : string) (v : V)
  : outcome (option (gmap string V)) :=
  match m with
  | Some m => Returns (Some (<[k := v]> m))
  | None => Panics
  end.

Definition StructTableEntity_jsonName (s : StructTableEntity) (f : StructField)
  : outcome string :=
  let jTag := Tag_Get (Tag f) "json" in
  if negb (String.eqb jTag "") then index (strings_Split jTag (chr 44)) 0
  else Returns (Name f).

(** Step 3 of [jsonMarshal]: the loop over the fields [from .. NumField-1]. *)
Fixpoint scan_fields (s : StructTableEntity) (t : option GoType)
    (todo : nat) (i : nat) (extras : gmap string string) : outcome (gmap string string) :=
  match todo with
  | O => Returns extras
  | S todo =>
    f ←! Type_Field t i;
    let tagVal := Tag_Get (Tag f) "odata.type" in
    if negb (String.eqb tagVal "") then
      name ←! StructTableEntity_jsonName s f;
      scan_fields s t todo (S i) (<[name +:+ "@odata.type" := tagVal]> extras)
    else scan_fields s t todo (S i) extras
  end.

(** Step 4 of [jsonMarshal]: the loop [for k, v := range extras]. *)
Fixpoint add_extras (m : option (gmap string GoValue)) (visited : list (string * string))
  : outcome (option (gmap string GoValue)) :=
  match visited with
  | [] => Returns m
  | (k, v) :: visited =>
    m ←! map_assign m k (VString v);
    add_extras m visited
  end.

Definition StructTableEntity_jsonMarshal `{GoRuntime} `{EncodingJSON}
    (s : StructTableEntity) : outcome (option string * option error) :=
  match Val s with
  | None =>
    Returns (None, Some (ErrorString "storage: struct value for given StructTableEntity is nil"))
  | Some val =>
    let t := reflect_TypeOf (Val s) in
    k ←! Type_Kind t;
    if negb (bool_decide (k = Struct)) then
      Returns (None, Some (ErrorString "storage: value given to StructTableEntity is not a struct"))
    else
      match json_Marshal val with
      | (_, Some err) => Returns (None, Some err)
      | (b, None) =>
        match json_Unmarshal_map b with
        | (_, Some err) => Returns (None, Some err)
        | (m, None) =>
          n ←! Type_NumField t;
          extras ←! scan_fields s t n 0 ∅;
          m ←! add_extras m (range_map extras);
          Returns (json_MarshalIndent m)
        end
      end
  end.

(** ** Package encoding/json: decoding

    [json.Unmarshal] first checks that the whole document is valid JSON and
    then fills the target from it.  The document is read into a [jtree];
    strings are unquoted as the decoder does it, ill-formed UTF-8 and lone
    surrogates becoming U+FFFD. *)

#[local] Unset Elimination Schemes.
Inductive jtree :=
  | JNull
  | JBool (b : bool)
  | JNumber (literal : string)
  | JString (s : string)
  | JArray (elements : list jtree)
  | JObject (members : list (string * jtree)).
#[local] Set Elimination Schemes.

Definition is_space (c : ascii) : bool :=
  let b := byte c in (b =? 32) || (b =? 9) || (b =? 13) || (b =? 10).

Definition is_digit (c : ascii) : bool := between 48 57 (byte c).

Definition skip_space (s : string) : string := drop_while is_space s.

(** Four hex digits, as a number. *)
Definition hex4 (s : string) : option (Z * string) :=
  match s with
  | String a (String b (String c (String d r))) =>
    if ishex a && ishex b && ishex c && ishex d then
      Some (Z.lor (Z.lor (Z.lor (Z.shiftl (unhex a) 12) (Z.shiftl (unhex b) 8))
                         (Z.shiftl (unhex c) 4)) (unhex d), r)
    else None
  | _ => None
  end.

(** [getu4]: the code unit of a leading [\uXXXX]. *)
Definition getu4 (s : string) : option (Z * string) :=
  match s with
  | String a (String b r) =>
    if (byte a =? 92) && (byte b =? 117) then hex4 r else None
  | _ => None
  end.

Definition utf16_DecodeRune (r1 r2 : Z) : Z :=
  if between 55296 56319 r1 && between 56320 57343 r2
  then Z.lor (Z.shiftl (r1 - 55296) 10) (r2 - 56320) + 65536
  else RuneError.

Definition simple_escape (c : ascii) : option ascii :=
  let b := byte c in
  if (b =? 34) || (b =? 92) || (b =? 47) then Some c
  else if b =? 98 then Some (chr 8)
  else if b =? 102 then Some (chr 12)
  else if b =? 110 then Some (chr 10)
  else if b =? 114 then Some (chr 13)
  else if b =? 116 then Some (chr 9)
  else None.

Definition prepend (piece : string) (r : option (string * string))
  : option (string * string) :=
  match r with
  | Some (out, rest) => Some (piece +:+ out, rest)
  | None => None
  end.

(** A string literal, after its opening quote: its value and what follows
    the closing quote. *)
Fixpoint parse_string (fuel : nat) (s : string) : option (string * string) :=
  match fuel, s with
  | S fuel, String c r =>
    let b := byte c in
    if b =? 34 then Some ("", r)
    else if b =? 92 then
      match r with
      | EmptyString => None
      | String e r' =>
        if byte e =? 117 then
          match hex4 r' with
          | None => None
          | Some (rr, r2) =>
            if between 55296 57343 rr then
              match getu4 r2 with
              | Some (rr1, r3) =>
                let dec := utf16_DecodeRune rr rr1 in
                if negb (dec =? RuneError)
                then prepend (utf8_EncodeRune dec) (parse_string fuel r3)
                else prepend (utf8_EncodeRune RuneError) (parse_string fuel r2)
              | None => prepend (utf8_EncodeRune RuneError) (parse_string fuel r2)
              end
            else prepend (utf8_EncodeRune rr) (parse_string fuel r2)
          end
        else
          match simple_escape e with
          | Some ch => prepend (String ch "") (parse_string fuel r')
          | None => None
          end
      end
    else if b <? 32 then None
    else if b <? 128 then prepend (String c "") (parse_string fuel r)
    else
      let '(rr, size) := utf8_DecodeRuneInString s in
      prepend (utf8_EncodeRune rr) (parse_string fuel (string_drop size s))
  | _, _ => None
  end.

(** The longest run of digits at the head of [s], and the rest. *)
Fixpoint span_digits (s : string) : string * string :=
  match s with
  | String c r =>
    if is_digit c then let '(ds, rest) := span_digits r in (String c ds, rest)
    else ("", s)
  | EmptyString => ("", "")
  end.

Definition parse_number (s : string) : option (string * string) :=
  let '(sign, s) :=
    match s with
    | String c r => if byte c =? 45 then ("-", r) else ("", s)
    | EmptyString => ("", s)
    end in
  let '(int, s) := span_digits s in
  if (String.length int =? 0)%nat then None
  else if String.prefix "0" int && negb (String.length int =? 1)%nat then None
  else
    let frac :=
      match s with
      | String c r =>
        if byte c =? 46 then
          let '(ds, rest) := span_digits r in
          if (String.length ds =? 0)%nat then None else Some ("." +:+ ds, rest)
        else Some ("", s)
      | EmptyString => Some ("", s)
      end in
    match frac with
    | None => None
    | Some (frac, s) =>
      let exp :=
        match s with
        | String c r =>
          if (byte c =? 101) || (byte c =? 69) then
            let '(esign, r) :=
              match r with
              | String d r' =>
                if (byte d =? 43) || (byte d =? 45) then (String d "", r') else ("", r)
              | EmptyString => ("", r)
              end in
            let '(ds, rest) := span_digits r in
            if (String.length ds =? 0)%nat then None
            else Some (String c esign +:+ ds, rest)
          else Some ("", s)
        | EmptyString => Some ("", s)
        end in
      match exp with
      | None => None
      | Some (exp, rest) => Some (sign +:+ int +:+ frac +:+ exp, rest)
      end
    end.

Definition parse_literal (word : string) (v : jtree) (s : string) : option (jtree * string) :=
  if String.prefix word s then Some (v, string_drop (String.length word) s) else None.

(** The scanner refuses a document whose objects and arrays are nested more
    than [maxNestingDepth] deep. *)
Definition maxNestingDepth : Z := 10000.

(** A value, the members of an object after its first key's quote has been
    seen to follow, and the elements of an array; [depth] is the number of
    objects and arrays that are open around them. *)
Fixpoint parse_value (fuel : nat) (depth : Z) (s : string) : option (jtree * string) :=
  match fuel with
  | O => None
  | S fuel =>
    match skip_space s with
    | EmptyString => None
    | String c r as s' =>
      let b := byte c in
      if b =? 123 then
        if maxNestingDepth <? depth + 1 then None
        else
          match skip_space r with
          | String c' r' =>
            if byte c' =? 125 then Some (JObject [], r')
            else parse_members fuel (depth + 1) r []
          | EmptyString => None
          end
      else if b =? 91 then
        if maxNestingDepth <? depth + 1 then None
        else
          match skip_space r with
          | String c' r' =>
            if byte c' =? 93 then Some (JArray [], r')
            else parse_elements fuel (depth + 1) r []
          | EmptyString => None
          end
      else if b =? 34 then
        match parse_string (String.length r) r with
        | Some (v, rest) => Some (JString v, rest)
        | None => None
        end
      else if (b =? 45) || is_digit c then
        match parse_number s' with
        | Some (lit, rest) => Some (JNumber lit, rest)
        | None => None
        end
      else if b =? 116 then parse_literal "true" (JBool true) s'
      else if b =? 102 then parse_literal "false" (JBool false) s'
      else if b =? 110 then parse_literal "null" JNull s'
      else None
    end
  end
with parse_members (fuel : nat) (depth : Z) (s : string) (acc : list (string * jtree))
  : option (jtree * string) :=
  match fuel with
  | O => None
  | S fuel =>
    match skip_space s with
    | String c r =>
      if byte c =? 34 then
        match parse_string (String.length r) r with
        | Some (key, rest) =>
          match skip_space rest with
          | String c1 r1 =>
            if byte c1 =? 58 then
              match parse_value fuel depth r1 with
              | Some (v, rest) =>
                match skip_space rest with
                | String c2 r2 =>
                  if byte c2 =? 44 then parse_members fuel depth r2 (acc ++ [(key, v)])
                  else if byte c2 =? 125 then Some (JObject (acc ++ [(key, v)]), r2)
                  else None
                | EmptyString => None
                end
              | None => None
              end
            else None
          | EmptyString => None
          end
        | None => None
        end
      else None
    | EmptyString => None
    end
  end
with parse_elements (fuel : nat) (depth : Z) (s : string) (acc : list jtree)
  : option (jtree * string) :=
  match fuel with
  | O => None
  | S fuel =>
    match parse_value fuel depth s with
    | Some (v, rest) =>
      match skip_space rest with
      | String c2 r2 =>
        if byte c2 =? 44 then parse_elements fuel depth r2 (acc ++ [v])
        else if byte c2 =? 93 then Some (JArray (acc ++ [v]), r2)
        else None
      | EmptyString => None
      end
    | None => None
    end
  end.

(** [checkValid] and the reading of the document: one value, then only
    white space. *)
Definition parse_document (data : string) : option jtree :=
  match parse_value (S (String.length data)) 0 data with
  | Some (v, rest) =>
    if (String.length (skip_space rest) =? 0)%nat then Some v else None
  | None => None
  end.

(** [bytes.EqualFold(name, key)] for an ASCII [name]: the runes of [key] are
    those of [name] up to simple case folding, under which [k] also folds
    with the Kelvin sign and [s] with the long s. *)
Definition rune_fold_eq (a r : Z) : bool :=
  (a =? r)
  || (between 65 90 a && (r =? a + 32))
  || (between 97 122 a && (r =? a - 32))
  || (((a =? 75) || (a =? 107)) && (r =? 8490))
  || (((a =? 83) || (a =? 115)) && (r =? 383)).

Fixpoint equalFold_runes (name : string) (key : list Z) : bool :=
  match name, key with
  | EmptyString, [] => true
  | String c name, r :: key => rune_fold_eq (byte c) r && equalFold_runes name key
  | _, _ => false
  end.

Definition equalFold (name key : string) : bool := equalFold_runes name (runes key).

(** The field an object key denotes: the one of that name, else the first
    one whose name matches under case folding. *)
Definition find_field (names : list string) (key : string) : option string :=
  match List.find (String.eqb key) names with
  | Some n => Some n
  | None => List.find (λ n, equalFold n key) names
  end.

Definition saveError (saved : option error) (err : error) : option error :=
  match saved with
  | None => Some err
  | Some _ => saved
  end.

(** A JSON value into a field of type [string]. *)
Definition decode_string (field : string) (v : jtree) (old : string) (saved : option error)
  : string * option error :=
  match v with
  | JString s => (s, saved)
  | JNull => (old, saved)
  | _ => (old, saveError saved (UnmarshalTypeError field))
  end.

(** A JSON value into the field [Message], whose keys are [lang] and
    [value]. *)
Definition decode_message (v : jtree)
    (old : AzureStorageTableServiceError.message) (saved : option error)
  : AzureStorageTableServiceError.message * option error :=
  match v with
  | JObject members =>
    foldl (λ '(msg, saved) '(key, v),
             match find_field ["lang"; "value"] key with
             | Some f =>
               if String.eqb f "lang" then
                 let '(x, saved) :=
                   decode_string f v (AzureStorageTableServiceError.Lang msg) saved in
                 ({| AzureStorageTableServiceError.Lang := x;
                     AzureStorageTableServiceError.Value :=
                       AzureStorageTableServiceError.Value msg |}, saved)
               else
                 let '(x, saved) :=
                   decode_string f v (AzureStorageTableServiceError.Value msg) saved in
                 ({| AzureStorageTableServiceError.Lang :=
                       AzureStorageTableServiceError.Lang msg;
                     AzureStorageTableServiceError.Value := x |}, saved)
             | None => (msg, saved)
             end)
          (old, saved) members
  | JNull => (old, saved)
  | _ => (old, saveError saved (UnmarshalTypeError "Message"))
  end.

(** A JSON value into the field [Err], a struct that embeds
    [AzureStorageTableServiceError]: its keys are [code] and, the tag of
    [Message] being ill-formed, [Message]; [StatusCode] and [RequestID] are
    tagged [json:"-"] and have no key. *)
Definition decode_Err (v : jtree)
    (old : AzureStorageTableServiceError.t) (saved : option error)
  : AzureStorageTableServiceError.t * option error :=
  match v with
  | JObject members =>
    foldl (λ '(e, saved) '(key, v),
             match find_field ["code"; "Message"] key with
             | Some f =>
               if String.eqb f "code" then
                 let '(x, saved) :=
                   decode_string f v (AzureStorageTableServiceError.Code e) saved in
                 ({| AzureStorageTableServiceError.Code := x;
                     AzureStorageTableServiceError.Message :=
                       AzureStorageTableServiceError.Message e;
                     AzureStorageTableServiceError.StatusCode :=
                       AzureStorageTableServiceError.StatusCode e;
                     AzureStorageTableServiceError.RequestID :=
                       AzureStorageTableServiceError.RequestID e |}, saved)
               else
                 let '(x, saved) :=
                   decode_message v (AzureStorageTableServiceError.Message e) saved in
                 ({| AzureStorageTableServiceError.Code :=
                       AzureStorageTableServiceError.Code e;
                     AzureStorageTableServiceError.Message := x;
                     AzureStorageTableServiceError.StatusCode :=
                       AzureStorageTableServiceError.StatusCode e;
                     AzureStorageTableServiceError.RequestID :=
                       AzureStorageTableServiceError.RequestID e |}, saved)
             | None => (e, saved)
             end)
          (old, saved) members
  | JNull => (old, saved)
  | _ => (old, saveError saved (UnmarshalTypeError "odata.error"))
  end.

(** A JSON value into [odataErr], whose one key is [odata.error]. *)
Definition decode_odataErr (v : jtree)
    (old : AzureStorageTableServiceError.t) (saved : option error)
  : AzureStorageTableServiceError.t * option error :=
  match v with
  | JObject members =>
    foldl (λ '(e, saved) '(key, v),
             match find_field ["odata.error"] key with
             | Some _ => decode_Err v e saved
             | None => (e, saved)
             end)
          (old, saved) members
  | JNull => (old, saved)
  | _ => (old, saveError saved (UnmarshalTypeError "odataErr"))
  end.

(** [json.Unmarshal(body, &o)] for [o] of type [odataErr]; the result is
    [o.Err.AzureStorageTableServiceError]. *)
Definition json_Unmarshal_odataErr (body : string) (o : AzureStorageTableServiceError.t)
  : AzureStorageTableServiceError.t * option error :=
  match parse_document body with
  | None => (o, Some SyntaxError)
  | Some v => decode_odataErr v o None
  end.

(** ** The error decoders *)

(** What the source leaves to package encoding/xml: [xml.Unmarshal(body, &e)]
    for [e] of type [AzureStorageServiceError]. *)
Class EncodingXML := {
  xml_Unmarshal :
    string → AzureStorageServiceError.t → AzureStorageServiceError.t * option error;
}.

Definition serviceErrFromXML `{EncodingXML} (body : string) (statusCode : Z) (requestID : string)
  : error :=
  match xml_Unmarshal body AzureStorageServiceError.zero with
  | (_, Some err) => DeserializationError err body
  | (e, None) =>
    ServiceError
      {| AzureStorageServiceError.Code := AzureStorageServiceError.Code e;
         AzureStorageServiceError.Message := AzureStorageServiceError.Message e;
         AzureStorageServiceError.AuthenticationErrorDetail :=
           AzureStorageServiceError.AuthenticationErrorDetail e;
         AzureStorageServiceError.QueryParameterName :=
           AzureStorageServiceError.QueryParameterName e;
         AzureStorageServiceError.QueryParameterValue :=
           AzureStorageServiceError.QueryParameterValue e;
         AzureStorageServiceError.Reason := AzureStorageServiceError.Reason e;
         AzureStorageServiceError.StatusCode := statusCode;
         AzureStorageServiceError.RequestID := requestID |}
  end.

Definition tableErrFromJSON (body : string) (statusCode : Z) (requestID : string) : error :=
  match json_Unmarshal_odataErr body AzureStorageTableServiceError.zero with
  | (_, Some err) => DeserializationError err body
  | (e, None) =>
    TableServiceError
      {| AzureStorageTableServiceError.Code := AzureStorageTableServiceError.Code e;
         AzureStorageTableServiceError.Message := AzureStorageTableServiceError.Message e;
         AzureStorageTableServiceError.StatusCode := statusCode;
         AzureStorageTableServiceError.RequestID := requestID |}
  end.

(** ** Vocabulary of the statements *)

(** The name under which [canonicalHeader] files a header. *)
Definition headerName `{GoRuntime} (k : string) : string :=
  strings_TrimSpace (strings_ToLower k).

(** One turn of the first loop of [canonicalHeader]. *)
Definition file_header `{GoRuntime} (cm : gmap string string) (kv : string * string)
  : gmap string string :=
  let '(k, v) := kv in
  let headerName := strings_TrimSpace (strings_ToLower k) in
  if strings_HasPrefix headerName "x-ms-" then <[headerName := v]> cm else cm.

(** One line of the canonical header block. *)
Definition header_line (kv : string * string) : string := kv.1 +:+ ":" +:+ kv.2.

(** [%XX] for a byte. *)
Definition percent (c : ascii) : string :=
  String (chr 37)
    (String (upperhex (Z.shiftr (byte c) 4)) (String (upperhex (Z.land (byte c) 15)) "")).

Definition is_alnum (c : Z) : bool :=
  between 97 122 c || between 65 90 c || between 48 57 c.

(** What [encodeComponents] writes for one character of the path: an ASCII
    letter or digit and the characters [/ , $ = - _ . ~] stand for
    themselves, a space becomes [+], and every other character becomes the
    [%XX] of each byte of its UTF-8 encoding. *)
Definition escaped_rune (c : Z) : string :=
  if is_alnum c || ((c =? 47) || (c =? 44) || (c =? 36) || (c =? 61))
     || ((c =? 45) || (c =? 95) || (c =? 46) || (c =? 126))
  then String (chr c) ""
  else if c =? 32 then "+"
  else String.concat "" (map percent (bytes (utf8_EncodeRune c))).

(** The same with only the letters, the digits and [/ , $ =] standing for
    themselves. *)
Definition percent_adjusted_rune (c : Z) : string :=
  if is_alnum c || ((c =? 47) || (c =? 44) || (c =? 36) || (c =? 61))
  then String (chr c) ""
  else String.concat "" (map percent (bytes (utf8_EncodeRune c))).

(** A byte above the ASCII range. *)
Definition high (c : ascii) : bool := 128 <=? byte c.

(** A [%] that is not followed by two hex digits. *)
Definition two_hex (s : string) : bool :=
  match s with
  | String h1 (String h2 _) => ishex h1 && ishex h2
  | _ => false
  end.

Fixpoint has_bad_escape (s : string) : bool :=
  match s with
  | EmptyString => false
  | String c r => (is_percent c && negb (two_hex r)) || has_bad_escape r
  end.

(** A component [key=value] of a query string is malformed when its key or
    its value holds a bad escape or, where [;] does not separate, when it
    holds a [;]. *)
Definition component_malformed `{GoRuntime} (comp : string) : bool :=
  (negb semicolon_separates && negb (Nat.eqb (count_bytes is_semi comp) 0))
  || (let '(key, value, _) := cut_at is_equals comp in
      has_bad_escape key || has_bad_escape value).

Definition query_malformed `{GoRuntime} (query : string) : bool :=
  existsb component_malformed (query_components query).

(** The parameter a well-formed, non-empty component stands for. *)
Definition component_pair `{GoRuntime} (comp : string) : option (string * string) :=
  if component_malformed comp || Nat.eqb (String.length comp) 0 then None
  else
    let '(key, value, _) := cut_at is_equals comp in
    Some (unescape_bytes key, unescape_bytes value).

(** The parameters of a query string, in the order in which they occur. *)
Definition query_pairs `{GoRuntime} (query : string) : list (string * string) :=
  omap component_pair (query_components query).

(** The values, in order, of the parameters named [key]. *)
Definition values_of (key : string) (pairs : list (string * string)) : list string :=
  (filter (λ p, p.1 = key) pairs).*2.

Definition strings_HasSuffix (s suffix : string) : bool :=
  String.prefix (string_rev suffix) (string_rev s).

Definition is_question (c : ascii) : bool := byte c =? 63.

(** The values filed under a key of a [url.Values]. *)
Definition values_at (m : gmap string (list string)) (k : string) : list string :=
  default [] (m !! k).
Definition is_newline (c : ascii) : bool := byte c =? 10.

(** One member of an indented JSON object: a tab, the key, a colon, a space
    and the value. *)
Definition member_line `{EncodingJSON} (kv : string * GoValue) : string :=
  TAB +:+ encodeString kv.1 +:+ ":" +:+ " " +:+ encodeValue kv.2.

(** The indented JSON object with the given members, in that order. *)
Definition indented_object `{EncodingJSON} (members : list (string * GoValue)) : string :=
  match members with
  | [] => "{}"
  | _ => "{" +:+ LF +:+ String.concat ("," +:+ LF) (map member_line members) +:+ LF +:+ "}"
  end.

(** The name [jsonName] computes for a field: the text of its [json] tag up
    to the first comma when the tag is not empty, else its declared name. *)
Definition tag_name (f : StructField) : string :=
  let jTag := Tag_Get (Tag f) "json" in
  if negb (String.eqb jTag "") then hd "" (strings_Split jTag (chr 44)) else Name f.

(** The name under which the field is serialized: the name its [json] tag
    gives when it gives one, else its declared name. *)
Definition serialized_name (f : StructField) : string :=
  let name := hd "" (strings_Split (Tag_Get (Tag f) "json") (chr 44)) in
  if String.eqb name "" then Name f else name.

(** The sidecar entries [jsonMarshal] collects from the fields. *)
Definition sidecar_step (extras : gmap string string) (f : StructField) : gmap string string :=
  let tagVal := Tag_Get (Tag f) "odata.type" in
  if negb (String.eqb tagVal "")
  then <[tag_name f +:+ "@odata.type" := tagVal]> extras
  else extras.

Definition sidecars (fields : list StructField) : gmap string string :=
  foldl sidecar_step ∅ fields.

(** A struct whose field [Age] is tagged [json:",string"], with no name
    before the comma, and [odata.type:"Edm.Int64"]:
    [struct { PartitionKey, RowKey string;
              Age int64 `json:",string" odata.type:"Edm.Int64"` }]. *)
Definition Age_field : StructField :=
  {| Name := "Age"; Tag := [("json", ",string"); ("odata.type", "Edm.Int64")] |}.

Definition unnamed_tag_entity : GoDynamic :=
  {| dyn_type :=
       {| type_kind := Struct;
          type_fields :=
            [ {| Name := "PartitionKey"; Tag := [] |};
              {| Name := "RowKey"; Tag := [] |};
              Age_field ] |};
     dyn_fields := [VString "pk"; VString "rk"; VInt 5] |}.

(** The body of the test of [tableErrFromJSON]. *)
Definition not_found_body : string :=
  sq ("{'odata.error':{" +:+ LF
      +:+ TAB +:+ TAB +:+ "'code':'ResourceNotFound'," +:+ LF
      +:+ TAB +:+ TAB +:+ "'message':{" +:+ LF
      +:+ TAB +:+ TAB +:+ TAB +:+ "'lang':'en-US'," +:+ LF
      +:+ TAB +:+ TAB +:+ TAB
      +:+ "'value':'The specified resource does not exist.\nRequestId:102a2b55-eb35-4254-9daf-854db78a47bd\nTime:2014-06-04T16:18:20.4307735Z'}}}").

Definition not_found_message : string :=
  "The specified resource does not exist." +:+ LF
  +:+ "RequestId:102a2b55-eb35-4254-9daf-854db78a47bd" +:+ LF
  +:+ "Time:2014-06-04T16:18:20.4307735Z".

(** ** Further vocabulary *)

(** The bytes [encodeComponents] writes: ASCII letters and digits, the
    characters [/ , $ = - _ . ~], and the [+] and [%] of escapes. *)
Definition url_safe (c : ascii) : bool :=
  let b := byte c in
  is_alnum b || ((b =? 47) || (b =? 44) || (b =? 36) || (b =? 61))
  || ((b =? 45) || (b =? 95) || (b =? 46) || (b =? 126))
  || ((b =? 43) || (b =? 37)).

(** The bytes that stand for themselves in a path. *)
Definition path_plain (c : ascii) : bool :=
  let b := byte c in
  is_alnum b || ((b =? 47) || (b =? 44) || (b =? 36) || (b =? 61))
  || ((b =? 45) || (b =? 95) || (b =? 46) || (b =? 126)).

(** A string read the way [range] reads it and written back: every byte
    that starts no UTF-8 sequence is replaced by the encoding of U+FFFD. *)
Definition to_valid_utf8 (s : string) : string :=
  String.concat "" (map utf8_EncodeRune (runes s)).

(** A runtime that visits maps in another order. *)
Definition with_range (R : GoRuntime)
    (ord : gmap string string → list (string * string))
    (Hord : ∀ m, ord m ≡ₚ map_to_list m) : GoRuntime :=
  {| unicode_ToLower := @unicode_ToLower R;
     unicode_TrimSpace := @unicode_TrimSpace R;
     semicolon_separates := @semicolon_separates R;
     range_map := ord;
     range_map_visits := Hord |}.

(** ** The client *)

Module Client.
Record t := {
  accountName : string;
  accountKey : string;
  useHTTPS : bool;
  baseURL : string;
  apiVersion : string;
}.
End Client.

(** The [url.URL] that [getEndpoint] builds: its scheme and host, and in
    [Location] the path and query, which are what the signers read. *)
Record Endpoint := { Scheme : string; Host : string; Location : URL }.

Definition getEndpoint (c : Client.t) (service path : string)
    (params : gmap string (list string)) : Endpoint :=
  let scheme := if Client.useHTTPS c then "https" else "http" in
  let host := Client.accountName c +:+ "." +:+ service +:+ "." +:+ Client.baseURL c in
  let path := if negb (strings_HasPrefix path "/") then "/" +:+ path else path in
  {| Scheme := scheme;
     Host := host;
     Location := {| Path := path; RawQuery := Values_Encode params |} |}.

(** [UnexpectedStatusCodeError]. *)
Record UnexpectedStatusCodeError := { allowed : list Z; got : Z }.

(** [checkRespCode]: nil, or the error that names the codes allowed and the
    one received. *)
Definition checkRespCode (respCode : Z) (allowed : list Z)
  : option UnexpectedStatusCodeError :=
  (fix loop (vs : list Z) : option UnexpectedStatusCodeError :=
     match vs with
     | [] => Some {| allowed := allowed; got := respCode |}
     | v :: vs => if respCode =? v then None else loop vs
     end) allowed.

(** What [escape] writes for one byte. *)
Definition escape_byte (c : ascii) : string :=
  if byte c =? 32 then String (chr 43) ""
  else if shouldEscape c then percent c
  else String c "".

(** The parameters [Values.Encode] writes, in the order in which it writes
    them: by ascending key, the values of a key in their order. *)
Definition encoded_pairs (v : gmap string (list string)) : list (string * string) :=
  flat_map (λ k, map (λ x, (k, x)) (values_at v k))
           (sort_Strings (map fst (map_to_list v))).

Definition pair_text (kx : string * string) : string :=
  url_QueryEscape kx.1 +:+ "=" +:+ url_QueryEscape kx.2.

(** One turn of the inner loop of [Values.Encode]. *)
Definition encode_step (buf : string) (kx : string * string) : string :=
  (if (String.length buf =? 0)%nat then buf else buf +:+ "&") +:+ pair_text kx.

Definition is_comma (c : ascii) : bool := byte c =? 44.

(** A struct type with a field tagged [json:"guidVal" odata.type:"Edm.Guid"]
    between untagged ones, as in the test of [StructTableEntity]. *)
Definition GUIDVal_field : StructField :=
  {| Name := "GUIDVal"; Tag := [("json", "guidVal"); ("odata.type", "Edm.Guid")] |}.

Definition tagged_type : GoType :=
  {| type_kind := Struct;
     type_fields :=
       [ {| Name := "PartitionKey"; Tag := [] |};
         {| Name := "Name"; Tag := [("json", "name,omitempty")] |};
         GUIDVal_field;
         {| Name := "FieldWithOnlyODataTag"; Tag := [("odata.type", "Edm.Int64")] |} ] |}.

(** ** Requests

    What a request needs from the rest of the package (util.go), from the
    clock and from net/http is a parameter of the model. *)

Inductive io_error :=
  | io_EOF
  | io_failure (msg : string).

(** An [io.Reader], by what reading it to its end gives: the bytes, and the
    error that ends them, which is [io.EOF] for a reader that did not fail. *)
Record Reader := { contents : string; ending : io_error }.

Definition bytes_NewReader (b : string) : Reader :=
  {| contents := b; ending := io_EOF |}.

(** [ioutil.ReadAll] reports no error for [io.EOF]. *)
Definition ioutil_ReadAll (r : Reader) : string * option io_error :=
  (contents r,
   match ending r with
   | io_EOF => None
   | e => Some e
   end).

Module Response.
Record t (H : Type) := {
  StatusCode : Z;
  Status : string;
  Header : H;
  Body : Reader;
}.
Arguments StatusCode {H} _.
Arguments Status {H} _.
Arguments Header {H} _.
Arguments Body {H} _.
End Response.

Class NetHTTP := {
  (** [Client.computeHmac256] and [currentTimeRfc1123Formatted] of util.go *)
  computeHmac256 : Client.t → string → string;
  currentTimeRfc1123Formatted : string;
  http_Request : Type;
  http_Header : Type;
  (** [http.NewRequest(verb, url.String(), body)]: nil when it fails *)
  http_NewRequest : string → Endpoint → option Reader → option http_Request;
  (** [req.Header.Add(k, v)] *)
  Header_Add : http_Request → string → string → http_Request;
  Header_Get : http_Header → string → string;
  (** [http.DefaultClient.Do(req)] *)
  http_Do : http_Request → Response.t http_Header + io_error;
}.

Module storageResponse.
Record t (H : Type) := {
  statusCode : Z;
  headers : H;
  body : Reader;
}.
Arguments statusCode {H} _.
Arguments headers {H} _.
Arguments body {H} _.
End storageResponse.

(** The errors of a request.  [Err] is an error of the signers, the entities
    or the decoders, passed on as it is. *)
Inductive request_error :=
  | Err (err : error)
  | azureParameterError (name : string)
  | SigningError (err : error)
  | IOError (err : io_error)
  | NoBodyError (status : string)
  | StatusCodeError (e : UnexpectedStatusCodeError).

(** The interface [requestSigner] and its two implementations. *)
Record requestSigner := {
  authScheme : string;
  canonicalizedString : string → gmap string string → URL → string * option error;
}.

Definition blobQueueSigner `{GoRuntime} (b : baseSigner) : requestSigner :=
  {| authScheme := "SharedKeyLite";
     canonicalizedString := blobQueueSigner_canonicalizedString b |}.

Definition tableSigner `{GoRuntime} (b : baseSigner) : requestSigner :=
  {| authScheme := "SharedKeyLite";
     canonicalizedString := tableSigner_canonicalizedString b |}.

Definition getStandardHeaders `{NetHTTP} (c : Client.t) : gmap string string :=
  let d := currentTimeRfc1123Formatted in
  <["x-ms-date" := d]> (<["x-ms-version" := Client.apiVersion c]> ∅).

Definition getAuthorizationHeader `{NetHTTP} (c : Client.t) (signer : requestSigner)
    (verb : string) (url : Endpoint) (headers : gmap string string)
  : string * option request_error :=
  match canonicalizedString signer verb headers (Location url) with
  | (_, Some err) => ("", Some (SigningError err))
  | (canonicalizedString, None) =>
    let signed := computeHmac256 c canonicalizedString in
    (authScheme signer +:+ " " +:+ Client.accountName c +:+ ":" +:+ signed, None)
  end.

Definition readResponseBody {H} (resp : Response.t H)
  : string * option io_error :=
  let '(out, err) := ioutil_ReadAll (Response.Body resp) in
  match err with
  | Some io_EOF => (out, None)
  | _ => (out, err)
  end.

(** The loop of [exec] over the headers: [req] is nil when [http.NewRequest]
    failed, and [req.Header] then panics. *)
Definition add_headers `{NetHTTP} (req : option http_Request)
    (headers : list (string * string)) : outcome (option http_Request) :=
  foldl (λ (r : outcome (option http_Request)) '(k, v),
           req ←! r;
           match req with
           | None => Panics
           | Some req => Returns (Some (Header_Add req k v))
           end)
        (Returns req) headers.

(** [Client.exec].  The map of headers is nil or allocated: a nil map is
    read as an empty one, and assigning to it panics. *)
Definition Client_exec `{GoRuntime} `{NetHTTP} (c : Client.t) (verb : string)
    (url : Endpoint) (headers : option (gmap string string)) (body : option Reader)
    (signer : requestSigner) (errFunc : string → Z → string → option error)
  : outcome (option (storageResponse.t http_Header) * option request_error) :=
  match getAuthorizationHeader c signer verb url (default ∅ headers) with
  | (_, Some err) => Returns (None, Some err)
  | (authHeader, None) =>
    match headers with
    | None => Panics
    | Some headers =>
      let headers := <["Authorization" := authHeader]> headers in
      let req := http_NewRequest verb url body in
      req ←! add_headers req (range_map headers);
      match req with
      | None => Panics
      | Some req =>
        match http_Do req with
        | inr err => Returns (None, Some (IOError err))
        | inl resp =>
          let statusCode := Response.StatusCode resp in
          if (400 <=? statusCode) && (statusCode <=? 505) then
            match readResponseBody resp with
            | (_, Some err) => Returns (None, Some (IOError err))
            | (respBody, None) =>
              let err :=
                if (String.length respBody =? 0)%nat
                then Some (NoBodyError (Response.Status resp))
                else Err <$> errFunc respBody (Response.StatusCode resp)
                               (Header_Get (Response.Header resp) "x-ms-request-id") in
              Returns (Some {| storageResponse.statusCode := Response.StatusCode resp;
                               storageResponse.headers := Response.Header resp;
                               storageResponse.body := bytes_NewReader respBody |},
                       err)
            end
          else
            Returns (Some {| storageResponse.statusCode := Response.StatusCode resp;
                             storageResponse.headers := Response.Header resp;
                             storageResponse.body := Response.Body resp |},
                     None)
        end
      end
    end
  end.

(** ** The table service *)

Definition tableServiceName : string := "table".
Definition acceptKey : string := "Accept".
Definition noMetadataHeader : string := "application/json;odata=nometadata".
Definition jsonContentType : string := "application/json".

Definition TableServiceClient_exec `{GoRuntime} `{NetHTTP} (c : Client.t) (verb : string)
    (url : Endpoint) (headers : option (gmap string string)) (body : option Reader)
  : outcome (option (storageResponse.t http_Header) * option request_error) :=
  let signer := tableSigner {| accountName := Client.accountName c |} in
  Client_exec c verb url headers body signer (λ b s r, Some (tableErrFromJSON b s r)).

Definition baseHeaders `{NetHTTP} (c : Client.t) : gmap string string :=
  let h := getStandardHeaders c in
  <[acceptKey := noMetadataHeader]> h.

(** A [json.Marshaler], by what its [MarshalJSON] does. *)
Definition json_Marshaler : Type := outcome (option string * option error).

Record MarshaledTableEntity := { Marshaler : option json_Marshaler }.

Definition MarshaledTableEntity_jsonMarshal (c : MarshaledTableEntity)
  : outcome (option string * option error) :=
  match Marshaler c with
  | None => Panics
  | Some MarshalJSON => MarshalJSON
  end.

(** The interface [TableEntity] and its three implementations. *)
Inductive TableEntity :=
  | MapEntity (m : option (gmap string GoValue))
  | StructEntity (s : StructTableEntity)
  | MarshaledEntity (c : MarshaledTableEntity).

Definition TableEntity_jsonMarshal `{GoRuntime} `{EncodingJSON} (entity : TableEntity)
  : outcome (option string * option error) :=
  match entity with
  | MapEntity m => Returns (MapTableEntity_jsonMarshal m)
  | StructEntity s => StructTableEntity_jsonMarshal s
  | MarshaledEntity c => MarshaledTableEntity_jsonMarshal c
  end.

(** The operations of [TableServiceClient].  After [exec] returned no error
    they read [resp.body], which panics on a nil response. *)
Definition DeleteTable `{GoRuntime} `{NetHTTP} (c : Client.t) (tableName : string)
  : outcome (option request_error) :=
  let path := "Tables('" +:+ tableName +:+ "')" in
  let uri := getEndpoint c tableServiceName path ∅ in
  r ←! TableServiceClient_exec c "DELETE" uri (Some (baseHeaders c)) None;
  match r with
  | (_, Some err) => Returns (Some err)
  | (None, None) => Panics
  | (Some resp, None) =>
    Returns (StatusCodeError <$> checkRespCode (storageResponse.statusCode resp) [204])
  end.

Definition InsertEntity `{GoRuntime} `{EncodingJSON} `{NetHTTP} (c : Client.t)
    (tableName : string) (entity : option TableEntity) : outcome (option request_error) :=
  if String.eqb tableName "" then Returns (Some (azureParameterError "tableName"))
  else
    match entity with
    | None => Returns (Some (azureParameterError "entity"))
    | Some entity =>
      r ←! TableEntity_jsonMarshal entity;
      match r with
      | (_, Some err) => Returns (Some (Err err))
      | (body, None) =>
        let uri := getEndpoint c tableServiceName tableName ∅ in
        let headers := baseHeaders c in
        let headers := <["Content-Type" := jsonContentType]> headers in
        r ←! TableServiceClient_exec c "POST" uri (Some headers)
               (Some (bytes_NewReader (default "" body)));
        match r with
        | (_, Some err) => Returns (Some err)
        | (None, None) => Panics
        | (Some resp, None) =>
          Returns (StatusCodeError <$>
                     checkRespCode (storageResponse.statusCode resp) [201; 204])
        end
      end
    end.

Definition entity_path (tableName partitionKey rowKey : string) : string :=
  tableName +:+ "(PartitionKey='" +:+ partitionKey +:+ "',RowKey='" +:+ rowKey +:+ "')".

Definition QueryEntity `{GoRuntime} `{NetHTTP} (c : Client.t)
    (tableName partitionKey rowKey : string) : outcome (option request_error) :=
  if String.eqb tableName "" then Returns (Some (azureParameterError "tableName"))
  else if String.eqb partitionKey "" then Returns (Some (azureParameterError "partitionKey"))
  else if String.eqb rowKey "" then Returns (Some (azureParameterError "rowKey"))
  else
    let path := entity_path tableName partitionKey rowKey in
    let uri := getEndpoint c tableServiceName path ∅ in
    let headers := baseHeaders c in
    let headers := <["Content-Type" := jsonContentType]> headers in
    let headers := <[acceptKey := noMetadataHeader]> headers in
    r ←! TableServiceClient_exec c "GET" uri (Some headers) None;
    match r with
    | (_, Some err) => Returns (Some err)
    | (None, None) => Panics
    | (Some resp, None) => Returns None
    end.

Definition DeleteEntity `{GoRuntime} `{NetHTTP} (c : Client.t)
    (tableName partitionKey rowKey : string) : outcome (option request_error) :=
  if String.eqb tableName "" then Returns (Some (azureParameterError "tableName"))
  else if String.eqb partitionKey "" then Returns (Some (azureParameterError "partitionKey"))
  else if String.eqb rowKey "" then Returns (Some (azureParameterError "rowKey"))
  else
    let path := entity_path tableName partitionKey rowKey in
    let uri := getEndpoint c tableServiceName path ∅ in
    r ←! TableServiceClient_exec c "DELETE" uri (Some (baseHeaders c)) None;
    match r with
    | (_, Some err) => Returns (Some err)
    | (None, None) => Panics
    | (Some resp, None) =>
      Returns (StatusCodeError <$> checkRespCode (storageResponse.statusCode resp) [204])
    end.

(** The request that [exec] hands to the HTTP client: the one that
    [http.NewRequest] made, with the headers and the Authorization header
    added in the order of [range]. *)
Definition sent_request `{GoRuntime} `{NetHTTP} (c : Client.t) (verb : string)
    (url : Endpoint) (headers : gmap string string) (body : option Reader)
    (signer : requestSigner) : option http_Request :=
  let authHeader := (getAuthorizationHeader c signer verb url headers).1 in
  req ← http_NewRequest verb url body;
  Some (foldl (λ req '(k, v), Header_Add req k v) req
              (range_map (<["Authorization" := authHeader]> headers))).

Definition is_error_status (statusCode : Z) : bool :=
  (400 <=? statusCode) && (statusCode <=? 505).

(** An HTTP client for the examples: a request is the list of its headers,
    [http.NewRequest] succeeds when [valid] holds, and every request gets
    the same answer. *)
Definition answering (valid : bool) (answer : Response.t (list (string * string)) + io_error)
  : NetHTTP :=
  {| computeHmac256 := λ c s, s;
     currentTimeRfc1123Formatted := "Mon, 02 Jan 2006 15:04:05 GMT";
     http_Request := list (string * string);
     http_Header := list (string * string);
     http_NewRequest := λ verb url body, if valid then Some [] else None;
     Header_Add := λ req k v, req ++ [(k, v)];
     Header_Get := λ h k, default "" (snd ∘ snd <$> list_find (λ kv, kv.1 = k) h);
     http_Do := λ req, answer |}.

Definition status_only (statusCode : Z) (b : string) : Response.t (list (string * string)) :=
  {| Response.StatusCode := statusCode;
     Response.Status := "";
     Response.Header := [];
     Response.Body := bytes_NewReader b |}.

Definition sample_client : Client.t :=
  {| Client.accountName := "acct";
     Client.accountKey := "key";
     Client.useHTTPS := true;
     Client.baseURL := "core.windows.net";
     Client.apiVersion := "2014-02-14" |}.

(** An encoder for the examples, whose entities are maps of plain strings:
    it escapes nothing and encodes no struct. *)
Definition json_plain_maps : EncodingJSON :=
  {| json_escaped := λ s, DQ +:+ s +:+ DQ;
     json_Marshal := λ _, ("", Some (CodecError "json: unsupported value"));
     json_Unmarshal_map := λ _, (None, Some SyntaxError) |}.

(** The entity of the documentation of [MapTableEntity]. *)
Definition sample_entity : TableEntity :=
  MapEntity (Some (<["PartitionKey" := VString "mypartitionkey"]>
                  (<["RowKey" := VString "myrowkey"]>
                  (<["Address" := VString "Mountain View"]>
                  (<["Age@odata.type" := VString "Edm.Int64"]>
                  (<["Age" := VString "255"]> ∅)))))).

(** [n] opening brackets before [s]. *)
Fixpoint nested (n : nat) (s : string) : string :=
  match n with
  | O => s
  | S n => String (chr 91) (nested n s)
  end.
Lemma byte_inj a b : byte a = byte b → a = b.
Proof.
  unfold byte. intros H. apply N2Z.inj in H.
  rewrite <- (ascii_N_embedding a), <- (ascii_N_embedding b). by rewrite H.
Qed.

Lemma byte_range c : 0 <= byte c < 256.
Proof.
  unfold byte. pose proof (N_ascii_bounded c). lia.
Qed.

Lemma str_ltb_irrefl s : str_ltb s s = false.
Proof. induction s as [|c s IH]; simpl; [done|]. rewrite IH. rewrite Z.ltb_irrefl. by rewrite andb_false_r. Qed.

Lemma str_ltb_trans a b c : str_ltb a b = true → str_ltb b c = true → str_ltb a c = true.
Proof.
  revert b c. induction a as [|x a IH]; intros [|y b] [|z c]; simpl; try done.
  intros H1 H2.
  apply orb_true_iff in H1. apply orb_true_iff in H2. apply orb_true_iff.
  destruct H1 as [H1|H1], H2 as [H2|H2].
  - left. lia.
  - apply andb_true_iff in H2 as [H2 _]. left. lia.
  - apply andb_true_iff in H1 as [H1 _]. left. lia.
  - apply andb_true_iff in H1 as [H1 H1']. apply andb_true_iff in H2 as [H2 H2'].
    right. apply andb_true_iff. split; [lia|]. eauto.
Qed.

Lemma str_ltb_total a b : str_ltb a b = false → str_ltb b a = false → a = b.
Proof.
  revert b. induction a as [|x a IH]; intros [|y b]; simpl; try done.
  intros H1 H2.
  apply orb_false_iff in H1 as [H1 H1']. apply orb_false_iff in H2 as [H2 H2'].
  assert (byte x = byte y) as E by lia.
  rewrite E, Z.eqb_refl in H1', H2'. simpl in *.
  f_equal; [by apply byte_inj | by apply IH].
Qed.

Lemma str_ltb_asym a b : str_ltb a b = true → str_ltb b a = false.
Proof.
  intros H. destruct (str_ltb b a) eqn:E; [|done].
  pose proof (str_ltb_trans _ _ _ H E) as F. by rewrite str_ltb_irrefl in F.
Qed.

Global Instance str_le_total : Total str_le.
Proof.
  intros a b. unfold str_le. destruct (str_ltb b a) eqn:E; [|by left].
  right. by apply str_ltb_asym.
Qed.

Global Instance str_le_trans : Transitive str_le.
Proof.
  intros a b c. unfold str_le. intros H1 H2.
  destruct (str_ltb c a) eqn:E; [|done].
  destruct (str_ltb c b) eqn:F; [congruence|].
  destruct (str_ltb a b) eqn:G.
  - pose proof (str_ltb_trans _ _ _ E G). congruence.
  - pose proof (str_ltb_total _ _ G H1). subst. congruence.
Qed.

Global Instance str_le_antisym : AntiSymm (=) str_le.
Proof. intros a b H1 H2. unfold str_le in *. by apply str_ltb_total. Qed.

Lemma str_le_lt a b : str_le a b → a ≠ b → str_lt a b.
Proof.
  unfold str_le, str_lt. intros H N. destruct (str_ltb a b) eqn:E; [done|].
  destruct N. by apply str_ltb_total.
Qed.

Lemma sort_Strings_perm l : sort_Strings l ≡ₚ l.
Proof. apply merge_sort_Permutation. Qed.

Lemma sort_Strings_sorted l : StronglySorted str_le (sort_Strings l).
Proof. apply StronglySorted_merge_sort; apply _. Qed.

Lemma sort_Strings_strict l : NoDup l → StronglySorted str_lt (sort_Strings l).
Proof.
  intros ND. rewrite <- (sort_Strings_perm l) in ND.
  pose proof (sort_Strings_sorted l) as S.
  induction S as [|x xs Sxs IH Hx]; [constructor|].
  apply NoDup_cons in ND as [Nx ND].
  constructor; [by apply IH|].
  apply Forall_forall. intros y Hy. rewrite Forall_forall in Hx.
  apply str_le_lt; [by apply Hx|]. intros ->. done.
Qed.

Lemma sort_Strings_order_irrelevant l l' : l ≡ₚ l' → sort_Strings l = sort_Strings l'.
Proof.
  intros P. apply (Sorted_unique str_le).
  - apply Sorted_merge_sort; apply _.
  - apply Sorted_merge_sort; apply _.
  - by rewrite !sort_Strings_perm.
Qed.

(** ** Strings *)

Lemma append_nil_r (s : string) : s +:+ "" = s.
Proof. induction s as [|c s IH]; [done|]. unfold String.app in *. simpl. by rewrite IH. Qed.

Lemma append_assoc (s t u : string) : (s +:+ t) +:+ u = s +:+ (t +:+ u).
Proof. induction s as [|c s IH]; [done|]. unfold String.app in *. simpl. by rewrite IH. Qed.

Lemma append_cons (c : ascii) (s t : string) : String c s +:+ t = String c (s +:+ t).
Proof. done. Qed.

Lemma append_nil_l (s : string) : "" +:+ s = s.
Proof. done. Qed.

Lemma concat_cons2 (sep x y : string) (l : list string) :
  String.concat sep (x :: y :: l) = x +:+ sep +:+ String.concat sep (y :: l).
Proof. done. Qed.

(** ** The canonical header block *)

Section canonical_header.
Context `{GoRuntime}.

Lemma filed_mono l : ∀ cm0 n,
  is_Some (cm0 !! n) → is_Some (foldl file_header cm0 l !! n).
Proof.
  induction l as [|[k v] l IH]; intros cm0 n Hn; simpl; [done|].
  apply IH. unfold file_header. case_match; [|done].
  destruct (decide (strings_TrimSpace (strings_ToLower k) = n)) as [->|Hne].
  - rewrite lookup_insert_eq. eauto.
  - by rewrite lookup_insert_ne.
Qed.

Lemma filed_from l : ∀ cm0 n v,
  foldl file_header cm0 l !! n = Some v →
  cm0 !! n = Some v ∨
  ∃ k, (k, v) ∈ l ∧ headerName k = n ∧ strings_HasPrefix n "x-ms-" = true.
Proof.
  induction l as [|[k v] l IH]; intros cm0 n w Hw; simpl in *; [by left|].
  apply IH in Hw as [Hw|(k' & Hin & Hk & Hp)].
  - unfold file_header in Hw. case_match eqn:Hp; [|by left].
    destruct (decide (strings_TrimSpace (strings_ToLower k) = n)) as [<-|Hne].
    + rewrite lookup_insert_eq in Hw. injection Hw as <-.
      right. exists k. split; [apply list_elem_of_here|done].
    + rewrite lookup_insert_ne in Hw by done. by left.
  - right. exists k'. split; [by apply list_elem_of_further|done].
Qed.

Lemma filed_all l : ∀ cm0 k v,
  (k, v) ∈ l → strings_HasPrefix (headerName k) "x-ms-" = true →
  is_Some (foldl file_header cm0 l !! headerName k).
Proof.
  induction l as [|[k0 v0] l IH]; intros cm0 k v Hin Hp; simpl.
  - by apply elem_of_nil in Hin.
  - apply elem_of_cons in Hin as [Heq|Hin]; [|by eapply IH].
    injection Heq as <- <-. apply filed_mono.
    unfold file_header. unfold headerName in Hp. rewrite Hp.
    rewrite lookup_insert_eq. eauto.
Qed.

(** The value filed under a name is that of the last header visited that
    has the name. *)
Lemma filed_last l : ∀ cm0 n v,
  foldl file_header cm0 l !! n = Some v →
  cm0 !! n = Some v ∨
  ∃ before k after,
    l = before ++ (k, v) :: after ∧ headerName k = n
    ∧ strings_HasPrefix n "x-ms-" = true
    ∧ Forall (λ kv, headerName kv.1 ≠ n) after.
Proof.
  induction l as [|[k v0] l IH] using rev_ind; intros cm0 n v Hv; [by left|].
  rewrite foldl_app in Hv. cbn [foldl] in Hv.
  unfold file_header in Hv at 1. fold (headerName k) in Hv.
  destruct (strings_HasPrefix (headerName k) "x-ms-") eqn:Hp.
  - destruct (decide (headerName k = n)) as [Hn|Hn].
    + rewrite Hn, lookup_insert_eq in Hv. injection Hv as ->.
      right. exists l, k, []. by rewrite <- Hn.
    + rewrite lookup_insert_ne in Hv by done.
      apply IH in Hv as [Hv|(before & k' & after & -> & Hk' & Hp' & Hafter)];
        [by left|].
      right. exists before, k', (after ++ [(k, v0)]). split_and!; [|done|done|].
      * by rewrite <- app_assoc.
      * apply Forall_app. split; [done|]. by constructor.
  - apply IH in Hv as [Hv|(before & k' & after & -> & Hk' & Hp' & Hafter)];
      [by left|].
    right. exists before, k', (after ++ [(k, v0)]). split_and!; [|done|done|].
    + by rewrite <- app_assoc.
    + apply Forall_app. split; [done|]. constructor; [|done]. cbn [fst].
      intros Hn. congruence.
Qed.

Lemma range_map_elem (m : gmap string string) k v :
  (k, v) ∈ range_map m ↔ m !! k = Some v.
Proof. rewrite (range_map_visits m). apply elem_of_map_to_list. Qed.

(** The loop that joins the lines puts a newline after every line but the
    last. *)
Lemma join_loop (val : string → string) (n : nat) :
  ∀ (l : list string) (i : nat) (ch : string),
    (i + List.length l = n)%nat →
    snd (foldl (λ '(i, ch) key,
                  (S i,
                   if (i =? n - 1)%nat then ch +:+ key +:+ ":" +:+ val key
                   else ch +:+ key +:+ ":" +:+ val key +:+ LF))
               (i, ch) l)
    = ch +:+ String.concat LF (map (λ key, header_line (key, val key)) l).
Proof.
  induction l as [|x l IH]; intros i ch Hlen.
  - simpl. by rewrite append_nil_r.
  - cbn [foldl map]. destruct l as [|y l].
    + simpl. replace (i =? n - 1)%nat with true; [done|].
      symmetry. apply Nat.eqb_eq. simpl in Hlen. lia.
    + replace (i =? n - 1)%nat with false.
      2:{ symmetry. apply Nat.eqb_neq. simpl in Hlen. lia. }
      rewrite IH by (simpl in *; lia).
      cbn [map]. rewrite concat_cons2. unfold header_line. simpl.
      by rewrite !append_assoc.
Qed.

Lemma canonicalHeader_lines_last (b : baseSigner) (headers : gmap string string) :
  ∃ cm : gmap string string,
    (∀ n v, cm !! n = Some v →
       ∃ before k after,
         range_map headers = before ++ (k, v) :: after ∧ headerName k = n
         ∧ strings_HasPrefix n "x-ms-" = true
         ∧ Forall (λ kv, headerName kv.1 ≠ n) after) ∧
    (∀ k, is_Some (headers !! k) →
       strings_HasPrefix (headerName k) "x-ms-" = true →
       is_Some (cm !! headerName k)) ∧
    canonicalHeader b headers =
      String.concat LF
        (map (λ n, header_line (n, default "" (cm !! n)))
             (sort_Strings (map fst (map_to_list cm)))).
Proof.
  exists (foldl file_header ∅ (range_map headers)). split_and!.
  - intros n v Hn. apply filed_last in Hn as [Hn|Hn]; [|done].
    by rewrite lookup_empty in Hn.
  - intros k [v Hv] Hp. eapply filed_all; [|done]. by apply range_map_elem.
  - unfold canonicalHeader. fold file_header.
    set (cm := foldl file_header ∅ (range_map headers)).
    destruct (size cm =? 0)%nat eqn:Hsz.
    + apply Nat.eqb_eq, map_size_empty_iff in Hsz. rewrite Hsz.
      by rewrite map_to_list_empty.
    + rewrite (sort_Strings_order_irrelevant _ (map fst (map_to_list cm))).
      2:{ by rewrite (range_map_visits cm). }
      rewrite (join_loop (λ key, default "" (cm !! key))).
      * by rewrite append_nil_l.
      * simpl. done.
Qed.

Lemma canonicalHeader_lines (b : baseSigner) (headers : gmap string string) :
  ∃ cm : gmap string string,
    (∀ n v, cm !! n = Some v →
       ∃ k, headers !! k = Some v ∧ headerName k = n
            ∧ strings_HasPrefix n "x-ms-" = true) ∧
    (∀ k, is_Some (headers !! k) →
       strings_HasPrefix (headerName k) "x-ms-" = true →
       is_Some (cm !! headerName k)) ∧
    canonicalHeader b headers =
      String.concat LF
        (map (λ n, header_line (n, default "" (cm !! n)))
             (sort_Strings (map fst (map_to_list cm)))).
Proof.
  destruct (canonicalHeader_lines_last b headers) as (cm & Hlast & Hall & Hout).
  exists cm. split_and!; [|done|done].
  intros n v Hn. destruct (Hlast n v Hn) as (before & k & after & Hr & Hk & Hp & _).
  exists k. split_and!; [|done|done].
  apply range_map_elem. rewrite Hr. apply elem_of_app. right. apply list_elem_of_here.
Qed.

(** The names of the canonical header block are the keys of the map of the
    filed headers, in ascending order. *)
Lemma canonicalHeader_names (headers cm : gmap string string) :
  (∀ n v, cm !! n = Some v →
     ∃ k, headers !! k = Some v ∧ headerName k = n
          ∧ strings_HasPrefix n "x-ms-" = true) →
  (∀ k, is_Some (headers !! k) →
     strings_HasPrefix (headerName k) "x-ms-" = true →
     is_Some (cm !! headerName k)) →
  let keys := sort_Strings (map fst (map_to_list cm)) in
  (∀ n, n ∈ keys ↔ is_Some (cm !! n)) ∧
  (∀ n, n ∈ keys ↔
     ∃ k, is_Some (headers !! k) ∧ headerName k = n
          ∧ strings_HasPrefix n "x-ms-" = true).
Proof.
  intros Hfrom Hall keys.
  assert (∀ n, n ∈ keys ↔ is_Some (cm !! n)) as Hkeys.
  { intros n. unfold keys. rewrite sort_Strings_perm.
    rewrite list_elem_of_fmap. split.
    - intros ([k v] & -> & Hin). apply elem_of_map_to_list in Hin. eauto.
    - intros [v Hv]. exists (n, v). split; [done|]. by apply elem_of_map_to_list. }
  split; [done|]. intros n. rewrite Hkeys. split.
  - intros [v Hv]. destruct (Hfrom _ _ Hv) as (k & Hk & Hn & Hp). exists k. eauto.
  - intros (k & Hk & <- & Hp). by apply Hall.
Qed.

(** Without a matching header the block is empty. *)
Lemma canonicalHeader_none (b : baseSigner) (headers : gmap string string) :
  (∀ k, is_Some (headers !! k) →
     strings_HasPrefix (headerName k) "x-ms-" = false) →
  canonicalHeader b headers = "".
Proof.
  intros Hnone.
  destruct (canonicalHeader_lines b headers) as (cm & Hfrom & Hall & Hout).
  destruct (canonicalHeader_names headers cm Hfrom Hall) as [_ Hchar].
  rewrite Hout. destruct (sort_Strings (map fst (map_to_list cm))) as [|n keys'] eqn:Hk;
    [done|].
  assert (n ∈ n :: keys') as Hin by apply list_elem_of_here.
  apply Hchar in Hin as (k & Hk' & <- & Hp). rewrite (Hnone k Hk') in Hp. done.
Qed.
End canonical_header.

(** C1, as the code has it: [canonicalHeader] keeps exactly the headers whose
    lowercased and then white-space-trimmed name begins with [x-ms-]; it
    emits each such normalised name once, in strictly ascending order, as
    [name:value] lines joined by single newlines with nothing after the last
    line; the value is, verbatim, that of the header of that normalised name
    that the iteration over the map visits last; and when no header matches
    the result is the empty string. *)
Theorem canonicalHeader_spec `{GoRuntime} (b : baseSigner) (headers : gmap string string) :
  ∃ kvs : list (string * string),
    StronglySorted str_lt kvs.*1 ∧
    (∀ n, n ∈ kvs.*1 ↔
       ∃ k, is_Some (headers !! k) ∧ headerName k = n
            ∧ strings_HasPrefix n "x-ms-" = true) ∧
    (∀ n v, (n, v) ∈ kvs →
       ∃ before k after,
         range_map headers = before ++ (k, v) :: after
         ∧ headers !! k = Some v ∧ headerName k = n
         ∧ ∀ k' v', (k', v') ∈ after → headerName k' ≠ n) ∧
    canonicalHeader b headers = String.concat LF (map header_line kvs) ∧
    ((∀ k, is_Some (headers !! k) →
        strings_HasPrefix (headerName k) "x-ms-" = false) →
     canonicalHeader b headers = "").
Proof.
  destruct (canonicalHeader_lines_last b headers) as (cm & Hlast & Hall & Hout).
  assert (∀ n v, cm !! n = Some v →
            ∃ k, headers !! k = Some v ∧ headerName k = n
                 ∧ strings_HasPrefix n "x-ms-" = true) as Hfrom.
  { intros n v Hn. destruct (Hlast n v Hn) as (before & k & after & Hr & Hk & Hp & _).
    exists k. split_and!; [|done|done].
    apply range_map_elem. rewrite Hr. apply elem_of_app. right. apply list_elem_of_here. }
  destruct (canonicalHeader_names headers cm Hfrom Hall) as [Hkeys Hchar].
  set (keys := sort_Strings (map fst (map_to_list cm))) in *.
  exists (map (λ n, (n, default "" (cm !! n))) keys).
  assert ((map (λ n, (n, default "" (cm !! n))) keys).*1 = keys) as Hfst.
  { rewrite <- list_fmap_compose. simpl. apply list_fmap_id. }
  split_and!.
  - rewrite Hfst. apply sort_Strings_strict. apply NoDup_fst_map_to_list.
  - intros n. by rewrite Hfst.
  - intros n v Hin. apply list_elem_of_fmap in Hin as (n' & Heq & Hin).
    injection Heq as -> ->. apply Hkeys in Hin as [w Hw]. rewrite Hw. simpl.
    destruct (Hlast _ _ Hw) as (before & k & after & Hr & Hn & _ & Hafter).
    exists before, k, after. split_and!; [done| |done|].
    + apply range_map_elem. rewrite Hr. apply elem_of_app. right.
      apply list_elem_of_here.
    + intros k' v' Hin'. rewrite Forall_forall in Hafter. apply (Hafter (k', v') Hin').
  - rewrite Hout. f_equal. by rewrite <- list_fmap_compose.
  - apply canonicalHeader_none.
Qed.

Lemma range_map_singleton `{GoRuntime} k v : range_map {[k := v]} = [(k, v)].
Proof.
  apply Permutation_singleton_r. rewrite (range_map_visits _).
  by rewrite map_to_list_singleton.
Qed.

(** The block of a single matching header. *)
Lemma canonicalHeader_singleton `{GoRuntime} b k v :
  strings_HasPrefix (headerName k) "x-ms-" = true →
  canonicalHeader b {[k := v]} = headerName k +:+ ":" +:+ v.
Proof.
  intros Hp. unfold canonicalHeader. rewrite range_map_singleton. simpl.
  unfold headerName in Hp. rewrite Hp.
  rewrite insert_empty.
  rewrite map_size_singleton. simpl. rewrite range_map_singleton. simpl.
  rewrite lookup_singleton_eq. done.
Qed.

(** C1 as stated fails: the lowercased name of the header [ x-ms-foo], which
    begins with a space, does not begin with [x-ms-], and yet the header is
    kept, under its trimmed name. *)
Lemma canonicalHeader_trims_names :
  (∀ (R : GoRuntime) k,
     is_Some (({[" x-ms-foo" := "bar"]} : gmap string string) !! k) →
     strings_HasPrefix (strings_ToLower k) "x-ms-" = false) ∧
  (∀ (R : GoRuntime) b, canonicalHeader b {[" x-ms-foo" := "bar"]} = "x-ms-foo:bar").
Proof.
  split.
  - intros R k [v Hv]. apply lookup_singleton_Some in Hv as [<- _]. by vm_compute.
  - intros R b. rewrite canonicalHeader_singleton; by vm_compute.
Qed.

(** ** The percent-adjusted path *)

Lemma byte_chr z : 0 <= z < 256 → byte (chr z) = z.
Proof.
  intros Hz. unfold byte, chr. rewrite N_ascii_embedding; lia.
Qed.

Lemma chr_byte c : chr (byte c) = c.
Proof. unfold byte, chr. rewrite N2Z.id. apply ascii_N_embedding. Qed.

Lemma Z_below_64 (P : Z → Prop) :
  (∀ n : nat, (n < 64)%nat → P (Z.of_nat n)) → ∀ y, 0 <= y < 64 → P y.
Proof. intros HP y Hy. rewrite <- (Z2Nat.id y) by lia. apply HP. lia. Qed.

Lemma lor_high base y :
  base = 128 ∨ base = 192 ∨ base = 224 ∨ base = 240 →
  0 <= y < 64 → high (chr (Z.lor base y)) = true.
Proof.
  intros Hb. revert y. apply Z_below_64. intros n Hn.
  destruct Hb as [->|[->|[->| ->]]];
    do 64 (destruct n as [|n]; [by vm_compute|]); lia.
Qed.

Lemma encode_high r :
  between 0 127 r = false → string_all high (utf8_EncodeRune r) = true.
Proof.
  intros Hr. unfold utf8_EncodeRune. rewrite Hr.
  assert (∀ x, high (chr (Z.lor 128 (Z.land x 63))) = true) as Htx.
  { intros x. apply lor_high; [auto|].
    change 63 with (Z.ones 6). rewrite Z.land_ones by lia.
    apply Z.mod_pos_bound. lia. }
  assert (∀ x, 0 <= x <= 65535 →
     string_all high
       (String (chr (Z.lor 224 (Z.shiftr x 12)))
          (String (chr (Z.lor 128 (Z.land (Z.shiftr x 6) 63)))
             (String (chr (Z.lor 128 (Z.land x 63))) ""))) = true) as Hthree.
  { intros x Hx. cbn [string_all]. rewrite !Htx, lor_high; [done|auto|].
    rewrite Z.shiftr_div_pow2 by lia. change (2 ^ 12) with 4096.
    split; [apply Z.div_pos; lia|]. apply Z.div_lt_upper_bound; lia. }
  unfold between in *.
  destruct (128 <=? r) eqn:H1, (r <=? 2047) eqn:H2; cbn [andb orb string_all].
  - cbn [string_all]. rewrite Htx, lor_high; [done|auto|].
    rewrite Z.shiftr_div_pow2 by lia. change (2 ^ 6) with 64.
    split; [apply Z.div_pos; lia|]. apply Z.div_lt_upper_bound; lia.
  - destruct ((r <? 0) || (1114111 <? r) || (55296 <=? r) && (r <=? 57343)) eqn:H3.
    { apply Hthree. unfold RuneError. lia. }
    destruct (r <=? 65535) eqn:H4; [apply Hthree; lia|].
    cbn [string_all]. rewrite !Htx, lor_high; [done|auto|].
    rewrite Z.shiftr_div_pow2 by lia. change (2 ^ 18) with 262144.
    split; [apply Z.div_pos; lia|]. apply Z.div_lt_upper_bound; lia.
  - destruct ((r <? 0) || (1114111 <? r) || (55296 <=? r) && (r <=? 57343)) eqn:H3.
    { apply Hthree. unfold RuneError. lia. }
    lia.
  - destruct ((r <? 0) || (1114111 <? r) || (55296 <=? r) && (r <=? 57343)) eqn:H3.
    { apply Hthree. unfold RuneError. lia. }
    lia.
Qed.

Lemma high_shouldEscape c : high c = true → shouldEscape c = true ∧ (byte c =? 32) = false.
Proof.
  unfold high, shouldEscape, between. intros Hc.
  repeat match goal with
         | |- context [?a <=? ?b] => destruct (Z.leb_spec a b); try lia
         | |- context [?a =? ?b] => destruct (Z.eqb_spec a b); try lia
         end; simpl; auto.
Qed.

Lemma escape_bytes_unchanged s :
  count_bytes (λ c, shouldEscape c && (byte c =? 32)) s = 0%nat →
  count_bytes (λ c, shouldEscape c && negb (byte c =? 32)) s = 0%nat →
  escape_bytes s = s.
Proof.
  induction s as [|c s IH]; simpl; [done|]. intros H1 H2.
  destruct (shouldEscape c) eqn:Hs, (byte c =? 32) eqn:Hb; simpl in *; try lia.
  - exfalso. apply Z.eqb_eq in Hb. revert Hs. unfold shouldEscape. rewrite Hb. done.
  - by rewrite IH.
Qed.

(** The two passes of [escape] amount to one pass over the bytes. *)
Lemma QueryEscape_bytes s : url_QueryEscape s = escape_bytes s.
Proof.
  unfold url_QueryEscape.
  destruct (count_bytes _ s =? 0)%nat eqn:H1; simpl; [|done].
  destruct (Nat.eqb (count_bytes (λ c, shouldEscape c && negb (byte c =? 32)) s) 0) eqn:H2;
    simpl; [|done].
  apply Nat.eqb_eq in H1, H2. by rewrite escape_bytes_unchanged.
Qed.

Lemma escape_bytes_high s :
  string_all high s = true → escape_bytes s = String.concat "" (map percent (bytes s)).
Proof.
  induction s as [|c s IH]; simpl; [done|]. intros Hs.
  apply andb_true_iff in Hs as [Hc Hs].
  destruct (high_shouldEscape c Hc) as [-> ->]. rewrite (IH Hs).
  destruct (bytes s); simpl; [done|]. done.
Qed.

(** What the loop body of [encodeComponents] appends for the rune [c]. *)
Lemma encoded_rune c :
  (if between 97 122 c || between 65 90 c || between 48 57 c
      || ((c =? 47) || (c =? 44) || (c =? 36) || (c =? 61))
   then utf8_EncodeRune c
   else url_QueryEscape (utf8_EncodeRune c)) = escaped_rune c.
Proof.
  unfold escaped_rune, is_alnum.
  destruct (between 97 122 c || between 65 90 c || between 48 57 c
            || ((c =? 47) || (c =? 44) || (c =? 36) || (c =? 61))) eqn:Hpass.
  - simpl. unfold utf8_EncodeRune.
    replace (between 0 127 c) with true; [done|].
    symmetry. unfold between in *.
    repeat match type of Hpass with
           | context [?a <=? ?b] => destruct (Z.leb_spec a b); try lia
           | context [?a =? ?b] => destruct (Z.eqb_spec a b); try lia
           end; simpl in *; try done;
      repeat match goal with
             | |- context [?a <=? ?b] => destruct (Z.leb_spec a b); try lia
             end; done.
  - rewrite orb_false_l. rewrite QueryEscape_bytes.
    destruct ((c =? 45) || (c =? 95) || (c =? 46) || (c =? 126)) eqn:Hmark.
    { repeat (apply orb_true_iff in Hmark as [Hmark|Hmark]);
        apply Z.eqb_eq in Hmark; subst c; by vm_compute. }
    destruct (c =? 32) eqn:Hsp.
    { apply Z.eqb_eq in Hsp. subst c. by vm_compute. }
    destruct (between 0 127 c) eqn:Hascii.
    + unfold utf8_EncodeRune. rewrite Hascii. simpl.
      assert (byte (chr c) = c) as Hc.
      { apply byte_chr. unfold between in Hascii. lia. }
      rewrite Hc, Hsp. unfold shouldEscape. rewrite Hc.
      apply orb_false_iff in Hpass as [Hpass _]. rewrite Hpass, Hmark.
      unfold percent. by rewrite Hc.
    + by rewrite escape_bytes_high by by apply encode_high.
Qed.

Lemma foldl_append {A} (f : A → string) (l : list A) : ∀ out,
  foldl (λ out c, out +:+ f c) out l = out +:+ String.concat "" (map f l).
Proof.
  induction l as [|x l IH]; intros out; simpl.
  - by rewrite append_nil_r.
  - rewrite IH. rewrite append_assoc. f_equal.
    destruct (map f l); simpl; [by rewrite append_nil_r|done].
Qed.

Lemma foldl_pointwise {A B} (f g : A → B → A) (l : list B) :
  (∀ a b, f a b = g a b) → ∀ a, foldl f a l = foldl g a l.
Proof. intros Hfg. induction l as [|x l IH]; intros a; simpl; [done|]. by rewrite Hfg, IH. Qed.

Lemma encodeComponents_runes b path :
  encodeComponents b path = String.concat "" (map escaped_rune (runes path)).
Proof.
  unfold encodeComponents.
  rewrite (foldl_pointwise _ (λ out c, out +:+ escaped_rune c)).
  - by rewrite foldl_append.
  - intros out c. rewrite <- encoded_rune. by case_match.
Qed.

(** ** Query strings *)

Lemma unescape_check_bad_n n : ∀ s,
  (String.length s <= n)%nat →
  (unescape_check s = None ↔ has_bad_escape s = false).
Proof.
  induction n as [|n IH]; intros s Hn.
  - destruct s; simpl in *; [done|lia].
  - destruct s as [|c r]; [done|]. simpl in Hn.
    cbn [unescape_check has_bad_escape]. fold (is_percent c).
    destruct (is_percent c) eqn:Hc; simpl.
    + destruct r as [|h1 [|h2 r']]; simpl; [done..|].
      destruct (ishex h1 && ishex h2) eqn:Hh; simpl; [|done].
      rewrite IH by (simpl in *; lia).
      apply andb_true_iff in Hh as [Hh1 Hh2].
      assert (∀ h, ishex h = true → is_percent h = false) as Hne.
      { intros h. unfold ishex, is_percent, between. intros Hh.
        destruct (Z.eqb_spec (byte h) 37) as [E|]; [|done].
        rewrite E in Hh. done. }
      rewrite (Hne _ Hh1), (Hne _ Hh2). done.
    + apply IH. lia.
Qed.

Lemma unescape_check_bad s : unescape_check s = None ↔ has_bad_escape s = false.
Proof. by apply (unescape_check_bad_n (String.length s)). Qed.

Lemma unescape_bytes_plain s :
  count_bytes is_percent s = 0%nat → count_bytes is_plus s = 0%nat →
  unescape_bytes s = s.
Proof.
  induction s as [|c r IH]; [done|]. cbn [count_bytes unescape_bytes].
  fold (is_percent c). fold (is_plus c).
  destruct (is_percent c), (is_plus c); simpl; try lia.
  intros H1 H2. by rewrite IH.
Qed.

(** [QueryUnescape] fails on a bad escape and decodes otherwise. *)
Lemma QueryUnescape_spec s :
  if has_bad_escape s then ∃ e, url_QueryUnescape s = ("", Some e)
  else url_QueryUnescape s = (unescape_bytes s, None).
Proof.
  unfold url_QueryUnescape.
  destruct (has_bad_escape s) eqn:Hbad.
  - destruct (unescape_check s) eqn:Hc; [eauto|].
    apply unescape_check_bad in Hc. congruence.
  - apply unescape_check_bad in Hbad. rewrite Hbad.
    destruct (Nat.eqb_spec (count_bytes is_percent s) 0) as [H1|]; simpl; [|done].
    destruct (Nat.eqb_spec (count_bytes is_plus s) 0) as [H2|]; simpl; [|done].
    by rewrite unescape_bytes_plain.
Qed.

Lemma Values_Get_hd m k : Values_Get m k = hd "" (values_at m k).
Proof. unfold Values_Get, values_at. destruct (m !! k) as [[|x l]|]; done. Qed.

Section parse_query.
Context {R : GoRuntime}.

(** One turn of the loop of [parseQuery]: a malformed component leaves an
    error, an empty one changes nothing, any other files its parameter. *)
Lemma parseQuery_step_spec m err comp :
  ∃ m' err', parseQuery_step (m, err) comp = (m', err') ∧
    (err' = None ↔ err = None ∧ component_malformed comp = false) ∧
    ∀ k, values_at m' k = values_at m k ++ values_of k (option_list (component_pair comp)).
Proof.
  unfold parseQuery_step, component_pair, component_malformed.
  destruct (negb semicolon_separates && negb (Nat.eqb (count_bytes is_semi comp) 0)) eqn:Hsemi.
  { simpl. eexists _, _. split; [done|]. split; [intuition congruence|].
    intros k. by rewrite app_nil_r. }
  simpl.
  destruct (Nat.eqb_spec (String.length comp) 0) as [Hlen|Hlen].
  { destruct comp; [|done]. simpl. eexists _, _. split; [done|].
    split; [intuition congruence|]. intros k. by rewrite app_nil_r. }
  simpl. destruct (cut_at is_equals comp) as [[key value] found].
  pose proof (QueryUnescape_spec key) as Hk.
  pose proof (QueryUnescape_spec value) as Hv.
  destruct (has_bad_escape key) eqn:Hbk; simpl.
  { destruct Hk as [e ->]. eexists _, _. split; [done|].
    split; [destruct err; intuition congruence|]. intros k. by rewrite app_nil_r. }
  rewrite Hk.
  destruct (has_bad_escape value) eqn:Hbv; simpl.
  { destruct Hv as [e ->]. eexists _, _. split; [done|].
    split; [destruct err; intuition congruence|]. intros k. by rewrite app_nil_r. }
  rewrite Hv. eexists _, _. split; [done|]. split; [intuition congruence|].
  intros k. unfold values_at, values_of. simpl.
  destruct (decide (unescape_bytes key = k)) as [->|Hne].
  - rewrite lookup_insert_eq. simpl. rewrite filter_cons_True by done.
    by rewrite filter_nil.
  - rewrite lookup_insert_ne by done. rewrite filter_cons_False by done.
    rewrite filter_nil. simpl. by rewrite app_nil_r.
Qed.

Lemma values_of_app k l1 l2 : values_of k (l1 ++ l2) = values_of k l1 ++ values_of k l2.
Proof. unfold values_of. by rewrite filter_app, fmap_app. Qed.

Lemma parseQuery_fold comps : ∀ m err,
  ∃ m' err', foldl parseQuery_step (m, err) comps = (m', err') ∧
    (err' = None ↔ err = None ∧ existsb component_malformed comps = false) ∧
    ∀ k, values_at m' k = values_at m k ++ values_of k (omap component_pair comps).
Proof.
  induction comps as [|comp comps IH]; intros m err.
  - simpl. eexists _, _. split; [done|]. split; [intuition congruence|].
    intros k. unfold values_of. by rewrite app_nil_r.
  - cbn [foldl].
    destruct (parseQuery_step_spec m err comp) as (m1 & err1 & -> & Herr1 & Hm1).
    destruct (IH m1 err1) as (m2 & err2 & -> & Herr2 & Hm2).
    eexists _, _. split; [done|]. split.
    + rewrite Herr2, Herr1. cbn [existsb]. rewrite orb_false_iff. intuition congruence.
    + intros k. rewrite Hm2, Hm1. rewrite <- (assoc_L (++)). f_equal.
      rewrite <- values_of_app. f_equal.
      change (omap component_pair (comp :: comps))
        with (match component_pair comp with
              | Some y => y :: omap component_pair comps
              | None => omap component_pair comps
              end).
      by destruct (component_pair comp).
Qed.

(** [url.ParseQuery]: the error is nil exactly for a well-formed query,
    and the values filed under a key are those of its parameters, in
    order. *)
Lemma ParseQuery_spec query :
  ∃ m err, url_ParseQuery query = (m, err) ∧
    (err = None ↔ query_malformed query = false) ∧
    ∀ k, Values_Get m k = hd "" (values_of k (query_pairs query)).
Proof.
  unfold url_ParseQuery.
  destruct (parseQuery_fold (query_components query) ∅ None) as (m & err & -> & Herr & Hm).
  exists m, err. split; [done|]. split.
  - unfold query_malformed. intuition congruence.
  - intros k. rewrite Values_Get_hd, Hm. unfold values_at.
    by rewrite lookup_empty.
Qed.
End parse_query.

(** ** The canonical resource *)

Lemma Values_Encode_comp v :
  Values_Encode (Values_Set ∅ "comp" v) = "comp=" +:+ url_QueryEscape v.
Proof.
  unfold Values_Encode, Values_Set. rewrite insert_empty.
  rewrite map_size_singleton, map_to_list_singleton. simpl.
  rewrite lookup_singleton_eq. simpl. by vm_compute (url_QueryEscape "comp").
Qed.

(** The two ways in which [canonicalResource] returns. *)
Lemma canonicalResource_cases `{GoRuntime} (b : baseSigner) (u : URL) :
  let base := "/" +:+ accountName b +:+ encodeComponents b (Path u) in
  let v := hd "" (values_of "comp" (query_pairs (RawQuery u))) in
  (query_malformed (RawQuery u) = true ∧
   ∃ err, canonicalResource b u = ("", Some (CanonicalResourceError err))) ∨
  (query_malformed (RawQuery u) = false ∧
   canonicalResource b u =
     (if String.eqb v "" then base else base +:+ "?comp=" +:+ url_QueryEscape v, None)).
Proof.
  intros base v. unfold canonicalResource.
  destruct (ParseQuery_spec (RawQuery u)) as (m & err & -> & Herr & Hget).
  destruct err as [err|].
  - left. split; [|eauto]. destruct (query_malformed (RawQuery u)); [done|].
    assert (Some err = None) by (by apply Herr). done.
  - right. split; [by apply Herr|]. rewrite (Hget "comp"). fold v. fold base.
    destruct (String.eqb v ""); simpl; [done|].
    by rewrite Values_Encode_comp.
Qed.

Lemma count_bytes_app p s t :
  count_bytes p (s +:+ t) = (count_bytes p s + count_bytes p t)%nat.
Proof.
  induction s as [|c s IH]; [done|]. rewrite append_cons. simpl. rewrite IH. lia.
Qed.

Lemma percent_no_question c : count_bytes is_question (percent c) = 0%nat.
Proof. destruct c as [[] [] [] [] [] [] [] []]; by vm_compute. Qed.

Lemma percent_no_newline c : count_bytes is_newline (percent c) = 0%nat.
Proof. destruct c as [[] [] [] [] [] [] [] []]; by vm_compute. Qed.

Lemma concat_cons (x : string) (l : list string) :
  String.concat "" (x :: l) = x +:+ String.concat "" l.
Proof. destruct l; simpl; [by rewrite append_nil_r|done]. Qed.

Lemma count_bytes_concat p (l : list string) :
  Forall (λ s, count_bytes p s = 0%nat) l → count_bytes p (String.concat "" l) = 0%nat.
Proof.
  induction 1 as [|x l Hx Hl IH]; [done|].
  rewrite concat_cons, count_bytes_app. lia.
Qed.

Lemma escaped_rune_no_question c : count_bytes is_question (escaped_rune c) = 0%nat.
Proof.
  unfold escaped_rune.
  destruct (is_alnum c || ((c =? 47) || (c =? 44) || (c =? 36) || (c =? 61))
            || ((c =? 45) || (c =? 95) || (c =? 46) || (c =? 126))) eqn:Hpass.
  - simpl. unfold is_question.
    assert (0 <= c < 256 ∧ c ≠ 63) as [Hc Hq].
    { unfold is_alnum, between in Hpass.
      repeat match type of Hpass with
             | context [?a <=? ?b] => destruct (Z.leb_spec a b); try lia
             | context [?a =? ?b] => destruct (Z.eqb_spec a b); try lia
             end; simpl in *; done. }
    rewrite byte_chr by done. destruct (Z.eqb_spec c 63); [done|]. done.
  - destruct (c =? 32); [done|].
    apply count_bytes_concat. apply Forall_forall. intros s Hs.
    apply list_elem_of_fmap in Hs as (x & -> & _). apply percent_no_question.
Qed.

Lemma escaped_rune_no_newline c : count_bytes is_newline (escaped_rune c) = 0%nat.
Proof.
  unfold escaped_rune.
  destruct (is_alnum c || ((c =? 47) || (c =? 44) || (c =? 36) || (c =? 61))
            || ((c =? 45) || (c =? 95) || (c =? 46) || (c =? 126))) eqn:Hpass.
  - simpl. unfold is_newline.
    assert (0 <= c < 256 ∧ c ≠ 10) as [Hc Hq].
    { unfold is_alnum, between in Hpass.
      repeat match type of Hpass with
             | context [?a <=? ?b] => destruct (Z.leb_spec a b); try lia
             | context [?a =? ?b] => destruct (Z.eqb_spec a b); try lia
             end; simpl in *; done. }
    rewrite byte_chr by done. destruct (Z.eqb_spec c 10); [done|]. done.
  - destruct (c =? 32); [done|].
    apply count_bytes_concat. apply Forall_forall. intros s Hs.
    apply list_elem_of_fmap in Hs as (x & -> & _). apply percent_no_newline.
Qed.

Lemma encodeComponents_no_newline b path :
  count_bytes is_newline (encodeComponents b path) = 0%nat.
Proof.
  rewrite encodeComponents_runes. apply count_bytes_concat.
  apply Forall_forall. intros s Hs.
  apply list_elem_of_fmap in Hs as (x & -> & _). apply escaped_rune_no_newline.
Qed.

Lemma escape_bytes_no_newline s : count_bytes is_newline (escape_bytes s) = 0%nat.
Proof.
  induction s as [|c s IH]; [done|]. cbn [escape_bytes].
  destruct (byte c =? 32) eqn:Hsp; [by simpl|].
  destruct (shouldEscape c) eqn:Hesc.
  - change (String (chr 37) (String ?x (String ?y ?r)))
      with (String (chr 37) (String x (String y "")) +:+ r).
    fold (percent c). by rewrite count_bytes_app, percent_no_newline.
  - cbn [count_bytes]. rewrite IH. unfold is_newline.
    destruct (Z.eqb_spec (byte c) 10) as [E|]; [|done].
    revert Hesc. unfold shouldEscape. rewrite E. done.
Qed.

(** The only newlines of a canonical resource are those of the account
    name. *)
Lemma canonicalResource_newlines `{GoRuntime} b u cRes :
  canonicalResource b u = (cRes, None) →
  count_bytes is_newline cRes = count_bytes is_newline (accountName b).
Proof.
  intros Hres. destruct (canonicalResource_cases b u) as [[_ [err Herr]]|[_ Hok]].
  { rewrite Herr in Hres. done. }
  rewrite Hok in Hres. injection Hres as <-.
  destruct (String.eqb _ "").
  - rewrite !count_bytes_app, encodeComponents_no_newline. simpl. lia.
  - rewrite !count_bytes_app, encodeComponents_no_newline, QueryEscape_bytes,
      escape_bytes_no_newline. simpl. lia.
Qed.

(** The path part of a canonical resource holds no question mark. *)
Lemma encodeComponents_no_question b path :
  count_bytes is_question (encodeComponents b path) = 0%nat.
Proof.
  rewrite encodeComponents_runes. apply count_bytes_concat.
  apply Forall_forall. intros s Hs.
  apply list_elem_of_fmap in Hs as (x & -> & _). apply escaped_rune_no_question.
Qed.

(** C2, as the code has it: where [canonicalResource] succeeds its result
    begins with [/], the account name and the escaped path, in which an ASCII
    letter or digit and each of [/ , $ = - _ . ~] stand for themselves, a
    space is written [+] and every other character is written as the [%XX]
    of each byte of its UTF-8 encoding; and for the account [foo] and the
    path [/Table('bar')] the result is [/foo/Table%28%27bar%27%29]. *)
Theorem canonicalResource_path `{GoRuntime} (b : baseSigner) (u : URL) :
  encodeComponents b (Path u) = String.concat "" (map escaped_rune (runes (Path u))) ∧
  (∀ out, canonicalResource b u = (out, None) →
     ∃ query, out = "/" +:+ accountName b
                      +:+ String.concat "" (map escaped_rune (runes (Path u))) +:+ query) ∧
  canonicalResource {| accountName := "foo" |} {| Path := "/Table('bar')"; RawQuery := "" |}
    = ("/foo/Table%28%27bar%27%29", None).
Proof.
  split_and!.
  - apply encodeComponents_runes.
  - intros out Hout.
    destruct (canonicalResource_cases b u) as [[_ [err Herr]]|[_ Hok]].
    + rewrite Herr in Hout. done.
    + rewrite Hok in Hout. injection Hout as <-.
      rewrite <- (encodeComponents_runes b).
      destruct (String.eqb _ "").
      * exists "". by rewrite append_nil_r.
      * exists ("?comp=" +:+
                url_QueryEscape (hd "" (values_of "comp" (query_pairs (RawQuery u))))).
        by rewrite !append_assoc.
  - by vm_compute.
Qed.

(** C2 as stated fails: in the path [/my-blob.txt] the characters [-] and
    [.] are neither letters, digits nor among [/ , $ =], yet they are not
    percent-escaped. *)
Lemma canonicalResource_keeps_marks :
  (∀ R : GoRuntime,
     canonicalResource {| accountName := "foo" |} {| Path := "/my-blob.txt"; RawQuery := "" |}
     = ("/foo/my-blob.txt", None)) ∧
  "/foo" +:+ String.concat "" (map percent_adjusted_rune (runes "/my-blob.txt"))
  = "/foo/my%2Dblob%2Etxt" ∧
  "/foo/my-blob.txt" ≠ "/foo/my%2Dblob%2Etxt".
Proof. split_and!; [intros R; by vm_compute|by vm_compute|done]. Qed.

(** C3, as the code has it: for a malformed query string [canonicalResource]
    fails with a parse error and returns no canonical form; for a well-formed
    one, when the first parameter named [comp] has a non-empty value [v] the
    result is the path part followed by exactly [?comp=] and [v] re-encoded,
    whatever the other parameters are; and when there is no parameter named
    [comp], or the first one is empty, the result is the path part alone,
    which holds no question mark after the account name. *)
Theorem canonicalResource_query `{GoRuntime} (b : baseSigner) (u : URL) :
  let base := "/" +:+ accountName b +:+ encodeComponents b (Path u) in
  let comp := hd "" (values_of "comp" (query_pairs (RawQuery u))) in
  (query_malformed (RawQuery u) = true →
     ∃ err, canonicalResource b u = ("", Some (CanonicalResourceError err))) ∧
  (query_malformed (RawQuery u) = false → comp ≠ "" →
     canonicalResource b u = (base +:+ "?comp=" +:+ url_QueryEscape comp, None)) ∧
  (query_malformed (RawQuery u) = false → comp = "" →
     canonicalResource b u = (base, None)) ∧
  count_bytes is_question (encodeComponents b (Path u)) = 0%nat.
Proof.
  intros base comp.
  destruct (canonicalResource_cases b u) as [[Hbad Herr]|[Hgood Hok]].
  - split_and!; [done|congruence..|apply encodeComponents_no_question].
  - fold base comp in Hok. split_and!.
    + congruence.
    + intros _ Hne. rewrite Hok. by apply String.eqb_neq in Hne as ->.
    + intros _ Heq. rewrite Hok. by apply String.eqb_eq in Heq as ->.
    + apply encodeComponents_no_question.
Qed.

(** C3 as stated fails: the query [comp=] holds a parameter named [comp],
    with the empty value, and yet the result does not end with [?comp=]. *)
Lemma canonicalResource_empty_comp :
  (∀ R : GoRuntime, query_malformed "comp=" = false ∧ query_pairs "comp=" = [("comp", "")]) ∧
  (∀ R : GoRuntime,
     canonicalResource {| accountName := "foo" |} {| Path := "/path"; RawQuery := "comp=" |}
     = ("/foo/path", None)) ∧
  strings_HasSuffix "/foo/path" "?comp=" = false.
Proof.
  split_and!.
  - intros R. unfold query_malformed, query_pairs, query_components. simpl.
    unfold component_pair, component_malformed, query_separator.
    destruct semicolon_separates; by vm_compute.
  - intros R. unfold canonicalResource, url_ParseQuery, query_components. simpl.
    unfold parseQuery_step, query_separator.
    destruct semicolon_separates; by vm_compute.
  - by vm_compute.
Qed.

(** ** The strings to sign *)

(** C4: where the resource canonicalizes, the string to sign of the blob and
    queue services is six fields joined by single newlines, in the order
    verb, Content-MD5, Content-Type, Date, canonical header block, canonical
    resource; a header that is missing gives an empty field, never a missing
    one. *)
Theorem blobQueue_string_to_sign `{GoRuntime}
    (s : baseSigner) (verb : string) (headers : gmap string string) (u : URL) (cRes : string) :
  canonicalResource s u = (cRes, None) →
  blobQueueSigner_canonicalizedString s verb headers u =
    (String.concat LF
       [verb;
        default "" (headers !! "Content-MD5");
        default "" (headers !! "Content-Type");
        default "" (headers !! "Date");
        canonicalHeader s headers;
        cRes], None)
  ∧ (headers !! "Content-MD5" = None → default "" (headers !! "Content-MD5") = "")
  ∧ (headers !! "Content-Type" = None → default "" (headers !! "Content-Type") = "")
  ∧ (headers !! "Date" = None → default "" (headers !! "Date") = "").
Proof.
  intros Hres. unfold blobQueueSigner_canonicalizedString. rewrite Hres.
  split_and!; [done|by intros ->..].
Qed.

Lemma blobQueue_string_to_sign_witness :
  blobQueueSigner_canonicalizedString (H:=go_ascii) {| accountName := "foo" |} "PUT"
    (list_to_map [("x-ms-version", "2014-02-14"); ("x-ms-blob-type", "BlockBlob");
                  ("Content-Type", "text/plain")])
    {| Path := "/cnt/blob"; RawQuery := "comp=metadata" |}
  = ("PUT" +:+ LF +:+ LF +:+ "text/plain" +:+ LF +:+ LF
       +:+ "x-ms-blob-type:BlockBlob" +:+ LF +:+ "x-ms-version:2014-02-14" +:+ LF
       +:+ "/foo/cnt/blob?comp=metadata", None).
Proof.
  refine (eq_trans
    (proj1 (blobQueue_string_to_sign (H:=go_ascii) {| accountName := "foo" |} "PUT"
       (list_to_map [("x-ms-version", "2014-02-14"); ("x-ms-blob-type", "BlockBlob");
                     ("Content-Type", "text/plain")])
       {| Path := "/cnt/blob"; RawQuery := "comp=metadata" |}
       "/foo/cnt/blob?comp=metadata" _)) _); by vm_compute.
Defined.

(** C5: where the resource canonicalizes, the string to sign of the table
    service is the value of the header [x-ms-date], one newline and the
    canonical resource, and nothing else: it depends neither on the verb nor
    on any header but [x-ms-date], and the canonical resource brings no
    newline but those of the account name. *)
Theorem table_string_to_sign `{GoRuntime}
    (s : baseSigner) (verb : string) (headers : gmap string string) (u : URL) (cRes : string) :
  canonicalResource s u = (cRes, None) →
  tableSigner_canonicalizedString s verb headers u =
    (default "" (headers !! "x-ms-date") +:+ LF +:+ cRes, None)
  ∧ (∀ verb' headers',
       headers' !! "x-ms-date" = headers !! "x-ms-date" →
       tableSigner_canonicalizedString s verb' headers' u =
       tableSigner_canonicalizedString s verb headers u)
  ∧ count_bytes is_newline cRes = count_bytes is_newline (accountName s).
Proof.
  intros Hres. unfold tableSigner_canonicalizedString. rewrite Hres.
  split_and!; [done| |by eapply canonicalResource_newlines].
  by intros verb' headers' ->.
Qed.

Lemma table_string_to_sign_witness :
  tableSigner_canonicalizedString (H:=go_ascii) {| accountName := "foo" |} "GET"
    (list_to_map [("x-ms-version", "2014-02-14");
                  ("x-ms-date", "Mon, 27 Jul 2015 10:00:00 GMT");
                  ("Accept", "application/json;odata=nometadata")])
    {| Path := "/Tables('bar')"; RawQuery := "" |}
  = ("Mon, 27 Jul 2015 10:00:00 GMT" +:+ LF +:+ "/foo/Tables%28%27bar%27%29", None).
Proof.
  refine (eq_trans
    (proj1 (table_string_to_sign (H:=go_ascii) {| accountName := "foo" |} "GET"
       (list_to_map [("x-ms-version", "2014-02-14");
                     ("x-ms-date", "Mon, 27 Jul 2015 10:00:00 GMT");
                     ("Accept", "application/json;odata=nometadata")])
       {| Path := "/Tables('bar')"; RawQuery := "" |}
       "/foo/Tables%28%27bar%27%29" _)) _); by vm_compute.
Defined.

(** C10: the builders read their headers by exact key.  Where the resource
    canonicalizes, the first line of the table string to sign is the value
    that the header map holds under the key [x-ms-date] itself, and the
    second to fourth lines of the blob and queue string to sign are the
    values under [Content-MD5], [Content-Type] and [Date] themselves; a map
    without the key gives an empty line in that place, whatever it holds
    under keys of another case.  So the map with the single key [X-Ms-Date]
    gives an empty date line, although the canonical header block files that
    header as [x-ms-date]. *)
Theorem string_to_sign_exact_keys `{GoRuntime}
    (s : baseSigner) (verb : string) (u : URL) (cRes : string) :
  canonicalResource s u = (cRes, None) →
  (∀ headers,
     tableSigner_canonicalizedString s verb headers u =
       ((if headers !! "x-ms-date" is Some v then v else "") +:+ LF +:+ cRes, None)) ∧
  (∀ headers, headers !! "x-ms-date" = None →
     tableSigner_canonicalizedString s verb headers u = (LF +:+ cRes, None)) ∧
  (∀ headers,
     blobQueueSigner_canonicalizedString s verb headers u =
       (verb +:+ LF
          +:+ (if headers !! "Content-MD5" is Some v then v else "") +:+ LF
          +:+ (if headers !! "Content-Type" is Some v then v else "") +:+ LF
          +:+ (if headers !! "Date" is Some v then v else "") +:+ LF
          +:+ canonicalHeader s headers +:+ LF +:+ cRes, None)) ∧
  (∀ d, tableSigner_canonicalizedString s verb {["X-Ms-Date" := d]} u = (LF +:+ cRes, None)
        ∧ canonicalHeader s {["X-Ms-Date" := d]} = "x-ms-date:" +:+ d) ∧
  (∀ d d', tableSigner_canonicalizedString s verb
             (<["X-Ms-Date" := d']> {["x-ms-date" := d]}) u = (d +:+ LF +:+ cRes, None)) ∧
  (∀ d, blobQueueSigner_canonicalizedString s verb
          (list_to_map [("content-md5", d); ("content-type", d); ("date", d)]) u
        = (verb +:+ LF +:+ LF +:+ LF +:+ LF +:+ LF +:+ cRes, None)).
Proof.
  intros Hres. split_and!.
  - intros headers. unfold tableSigner_canonicalizedString. rewrite Hres.
    by destruct (headers !! "x-ms-date").
  - intros headers Hnone. unfold tableSigner_canonicalizedString.
    by rewrite Hres, Hnone.
  - intros headers. unfold blobQueueSigner_canonicalizedString. rewrite Hres.
    by destruct (headers !! "Content-MD5"), (headers !! "Content-Type"),
              (headers !! "Date").
  - intros d. split.
    + unfold tableSigner_canonicalizedString. rewrite Hres.
      by rewrite lookup_singleton_ne.
    + rewrite canonicalHeader_singleton; by vm_compute.
  - intros d d'. unfold tableSigner_canonicalizedString. rewrite Hres.
    rewrite lookup_insert_ne by done. by rewrite lookup_singleton_eq.
  - intros d. unfold blobQueueSigner_canonicalizedString. rewrite Hres.
    assert (canonicalHeader s
              (list_to_map [("content-md5", d); ("content-type", d); ("date", d)]) = "")
      as ->.
    { apply canonicalHeader_none. intros k [v Hk].
      apply elem_of_list_to_map_2 in Hk.
      repeat (apply elem_of_cons in Hk as [Hk|Hk]; [injection Hk as -> _; by vm_compute|]).
      by apply elem_of_nil in Hk. }
    simpl. done.
Qed.

Lemma string_to_sign_exact_keys_witness :
  tableSigner_canonicalizedString (H:=go_ascii) {| accountName := "foo" |} "GET"
    {["X-Ms-Date" := "Mon, 27 Jul 2015 10:00:00 GMT"]}
    {| Path := "/Tables"; RawQuery := "" |}
  = (LF +:+ "/foo/Tables", None)
  ∧ canonicalHeader (H:=go_ascii) {| accountName := "foo" |}
      {["X-Ms-Date" := "Mon, 27 Jul 2015 10:00:00 GMT"]}
    = "x-ms-date:Mon, 27 Jul 2015 10:00:00 GMT".
Proof.
  refine (proj1 (proj2 (proj2 (proj2
    (string_to_sign_exact_keys (H:=go_ascii) {| accountName := "foo" |} "GET"
       {| Path := "/Tables"; RawQuery := "" |} "/foo/Tables" _))))
    "Mon, 27 Jul 2015 10:00:00 GMT"); by vm_compute.
Defined.

(** ** Indented objects *)

Section marshal_indent.
Context `{EncodingJSON}.

Lemma members_loop (m : gmap string GoValue) : ∀ (l : list string) (i : nat) (out : string),
  (0 < i)%nat →
  snd (foldl (λ '(i, out) k,
                (S i,
                 out +:+ (if (i =? 0)%nat then "" else ",") +:+ LF +:+ TAB
                     +:+ encodeString k +:+ ":" +:+ " "
                     +:+ encodeValue (default VNil (m !! k))))
             (i, out) l)
  = out +:+ String.concat ""
              (map (λ k, "," +:+ LF +:+ member_line (k, default VNil (m !! k))) l).
Proof.
  induction l as [|k l IH]; intros i out Hi.
  - simpl. by rewrite append_nil_r.
  - cbn [foldl map]. rewrite IH by lia. rewrite concat_cons.
    destruct (Nat.eqb_spec i 0) as [->|_]; [lia|].
    unfold member_line. simpl. by rewrite !append_assoc.
Qed.

Lemma concat_sep (sep : string) (f : string → string) (l : list string) : ∀ x : string,
  String.concat sep (x :: (f <$> l))
  = x +:+ String.concat "" (map (λ k, sep +:+ f k) l).
Proof.
  induction l as [|k' l IH]; intros x.
  - simpl. by rewrite append_nil_r.
  - cbn [fmap list_fmap map]. rewrite concat_cons2.
    cbn [fmap list_fmap] in IH. rewrite IH.
    rewrite concat_cons. by rewrite !append_assoc.
Qed.

(** [json.MarshalIndent] of an allocated map writes its entries in the
    ascending order of their keys. *)
Lemma MarshalIndent_members (m : gmap string GoValue) :
  json_MarshalIndent (Some m) =
    (Some (indented_object
             (map (λ k, (k, default VNil (m !! k)))
                  (sort_Strings (map fst (map_to_list m))))), None).
Proof.
  unfold json_MarshalIndent.
  set (keys := sort_Strings (map fst (map_to_list m))).
  destruct keys as [|k keys']; [done|].
  cbn [List.length Nat.eqb foldl]. rewrite members_loop by lia.
  unfold indented_object. cbn [map]. do 2 f_equal.
  rewrite <- list_fmap_compose.
  change (member_line ∘ (λ k, (k, default VNil (m !! k))))
    with (λ k, member_line (k, default VNil (m !! k))).
  rewrite (concat_sep ("," +:+ LF) (λ k, member_line (k, default VNil (m !! k)))).
  unfold member_line. simpl. by rewrite !append_assoc.
Qed.

Lemma sorted_members (m : gmap string GoValue) :
  let members := map (λ k, (k, default VNil (m !! k)))
                     (sort_Strings (map fst (map_to_list m))) in
  StronglySorted str_lt members.*1 ∧ (∀ k v, (k, v) ∈ members ↔ m !! k = Some v).
Proof.
  intros members.
  assert (members.*1 = sort_Strings (map fst (map_to_list m))) as Hfst.
  { unfold members. rewrite <- list_fmap_compose. apply list_fmap_id. }
  split.
  - rewrite Hfst. apply sort_Strings_strict, NoDup_fst_map_to_list.
  - intros k v. unfold members. rewrite list_elem_of_fmap. split.
    + intros (k' & Heq & Hin). injection Heq as -> ->.
      rewrite sort_Strings_perm in Hin.
      apply list_elem_of_fmap in Hin as ([k'' v'] & -> & Hin).
      apply elem_of_map_to_list in Hin. simpl. by rewrite Hin.
    + intros Hk. exists k. rewrite Hk. split; [done|].
      rewrite sort_Strings_perm. apply list_elem_of_fmap.
      exists (k, v). split; [done|]. by apply elem_of_map_to_list.
Qed.
End marshal_indent.

(** C7: the serialization of an allocated map entity is the JSON object of
    its entries, each on a line of its own behind one tab, in the strictly
    ascending order of the keys; and the map of the test serializes with the
    keys in the order Address, Age, Age@odata.type, PartitionKey, RowKey. *)
Theorem MapTableEntity_sorted `{EncodingJSON} (m : gmap string GoValue) :
  (∃ members : list (string * GoValue),
     StronglySorted str_lt members.*1 ∧
     (∀ k v, (k, v) ∈ members ↔ m !! k = Some v) ∧
     MapTableEntity_jsonMarshal (Some m) = (Some (indented_object members), None)) ∧
  MapTableEntity_jsonMarshal
    (Some (list_to_map
             [("PartitionKey", VString "mypartitionkey");
              ("RowKey", VString "myrowkey");
              ("Address", VString "Mountain View");
              ("Age@odata.type", VString "Edm.Int64");
              ("Age", VString "255")]))
  = (Some (sq ("{" +:+ LF
               +:+ TAB +:+ "'Address': 'Mountain View'," +:+ LF
               +:+ TAB +:+ "'Age': '255'," +:+ LF
               +:+ TAB +:+ "'Age@odata.type': 'Edm.Int64'," +:+ LF
               +:+ TAB +:+ "'PartitionKey': 'mypartitionkey'," +:+ LF
               +:+ TAB +:+ "'RowKey': 'myrowkey'" +:+ LF
               +:+ "}")), None).
Proof.
  split.
  - eexists. split_and!; [apply sorted_members..|]. apply MarshalIndent_members.
  - by vm_compute.
Qed.

(** ** Struct entities *)

Lemma split_onto_hd sep s : ∀ cur, ∃ x l, split_onto sep cur s = x :: l.
Proof.
  induction s as [|c s IH]; intros cur; simpl; [eauto|].
  destruct (Ascii.eqb c sep); eauto.
Qed.

(** [jsonName] never panics: [strings.Split] returns at least one piece. *)
Lemma jsonName_returns s f : StructTableEntity_jsonName s f = Returns (tag_name f).
Proof.
  unfold StructTableEntity_jsonName, tag_name.
  destruct (negb (String.eqb (Tag_Get (Tag f) "json") "")); [|done].
  unfold strings_Split, index.
  by destruct (split_onto_hd (chr 44) (Tag_Get (Tag f) "json") "") as (x & l & ->).
Qed.

(** The loop over the fields of a struct type never panics. *)
Lemma scan_fields_returns s (ty : GoType) :
  type_kind ty = Struct →
  ∀ rest i extras,
    drop i (type_fields ty) = rest →
    scan_fields s (Some ty) (List.length rest) i extras
    = Returns (foldl sidecar_step extras rest).
Proof.
  intros Hkind. induction rest as [|f rest IH]; intros i extras Hdrop; [done|].
  assert (type_fields ty !! i = Some f) as Hf.
  { pose proof (lookup_drop (type_fields ty) i 0) as Hl.
    rewrite Hdrop, Nat.add_0_r in Hl. done. }
  cbn [List.length scan_fields]. unfold Type_Field.
  destruct (decide (type_kind ty = Struct)); [|done].
  rewrite Hf. cbn [outcome_bind]. rewrite jsonName_returns. cbn [outcome_bind].
  rewrite (drop_S _ _ _ Hf) in Hdrop. injection Hdrop as Hdrop.
  cbn [foldl].
  destruct (negb (String.eqb (Tag_Get (Tag f) "odata.type") "")) eqn:Htag.
  - cbn [outcome_bind]. rewrite (IH (S i)) by done. do 2 f_equal.
    unfold sidecar_step. by rewrite Htag.
  - rewrite (IH (S i)) by done. do 2 f_equal.
    unfold sidecar_step. by rewrite Htag.
Qed.

Lemma add_extras_allocated (m : gmap string GoValue) (l : list (string * string)) :
  add_extras (Some m) l
  = Returns (Some (foldl (λ m kv, <[kv.1 := VString kv.2]> m) m l)).
Proof.
  revert m. induction l as [|[k v] l IH]; intros m; [done|].
  cbn [add_extras map_assign outcome_bind foldl]. by rewrite IH.
Qed.

Lemma foldl_insert_union (l : list (string * string)) : ∀ m : gmap string GoValue,
  NoDup l.*1 →
  foldl (λ m kv, <[kv.1 := VString kv.2]> m) m l
  = (VString <$> (list_to_map l : gmap string string)) ∪ m.
Proof.
  induction l as [|[k v] l IH]; intros m Hnd.
  - simpl. by rewrite fmap_empty, (left_id_L ∅ (∪)).
  - apply NoDup_cons in Hnd as [Hk Hnd]. cbn [foldl fst snd].
    rewrite IH by done. rewrite list_to_map_cons, fmap_insert.
    rewrite <- insert_union_l. rewrite <- insert_union_r; [done|].
    rewrite lookup_fmap. by rewrite (not_elem_of_list_to_map_1 _ _ Hk).
Qed.

Lemma add_extras_range `{GoRuntime} (m : gmap string GoValue) (extras : gmap string string) :
  add_extras (Some m) (range_map extras) = Returns (Some ((VString <$> extras) ∪ m)).
Proof.
  rewrite add_extras_allocated. do 2 f_equal.
  assert (NoDup (range_map extras).*1) as Hnd.
  { rewrite (range_map_visits extras). apply NoDup_fst_map_to_list. }
  rewrite foldl_insert_union by done. do 2 f_equal.
  rewrite <- (list_to_map_to_list extras) at 2.
  apply list_to_map_proper; [done|]. apply range_map_visits.
Qed.

Lemma add_extras_nil_map `{GoRuntime} (extras : gmap string string) :
  add_extras None (range_map extras)
  = if decide (extras = ∅) then Returns None else Panics.
Proof.
  destruct (range_map extras) as [|[k v] l] eqn:Hr.
  - pose proof (range_map_visits extras) as Hp. rewrite Hr in Hp.
    symmetry in Hp. apply Permutation_nil_r in Hp.
    apply map_to_list_empty_iff in Hp. by rewrite decide_True.
  - rewrite decide_False; [done|]. intros ->.
    pose proof (range_map_visits ∅) as Hp. rewrite Hr, map_to_list_empty in Hp.
    by apply Permutation_nil_r in Hp.
Qed.

(** What [jsonMarshal] does with a struct: it encodes and decodes it, adds
    the sidecar entries to the decoded map and writes the map.  It panics
    only when the decoded map is nil while there are sidecar entries. *)
Lemma StructTableEntity_jsonMarshal_struct `{GoRuntime} `{EncodingJSON} (v : GoDynamic) :
  type_kind (dyn_type v) = Struct →
  StructTableEntity_jsonMarshal {| Val := Some v |} =
    match json_Marshal v with
    | (_, Some err) => Returns (None, Some err)
    | (b, None) =>
      match json_Unmarshal_map b with
      | (_, Some err) => Returns (None, Some err)
      | (Some m, None) =>
        Returns (json_MarshalIndent
                   (Some ((VString <$> sidecars (type_fields (dyn_type v))) ∪ m)))
      | (None, None) =>
        if decide (sidecars (type_fields (dyn_type v)) = ∅)
        then Returns (json_MarshalIndent None) else Panics
      end
    end.
Proof.
  intros Hkind. unfold StructTableEntity_jsonMarshal. cbn [Val reflect_TypeOf fmap option_fmap option_map Type_Kind outcome_bind].
  rewrite Hkind. rewrite bool_decide_eq_true_2 by done. cbn [negb].
  destruct (json_Marshal v) as [b [err|]]; [done|].
  destruct (json_Unmarshal_map b) as [m [err|]]; [by destruct m|].
  unfold Type_NumField. destruct (decide (type_kind (dyn_type v) = Struct)); [|done].
  cbn [outcome_bind].
  rewrite (scan_fields_returns _ (dyn_type v) Hkind (type_fields (dyn_type v)) 0 ∅) by done.
  cbn [outcome_bind].
  change (foldl sidecar_step ∅ (type_fields (dyn_type v)))
    with (sidecars (type_fields (dyn_type v))).
  destruct m as [m|].
  - by rewrite add_extras_range.
  - rewrite add_extras_nil_map. by case_decide.
Qed.

(** C9: a struct entity whose value is nil, or is not a struct, is refused:
    [jsonMarshal] returns an error and no bytes, and does not panic. *)
Theorem StructTableEntity_refuses `{GoRuntime} `{EncodingJSON} (s : StructTableEntity) :
  (Val s = None ∨ ∃ v, Val s = Some v ∧ type_kind (dyn_type v) ≠ Struct) →
  ∃ err, StructTableEntity_jsonMarshal s = Returns (None, Some err).
Proof.
  intros [Hnil|(v & Hv & Hkind)]; unfold StructTableEntity_jsonMarshal.
  - rewrite Hnil. eauto.
  - rewrite Hv. cbn [reflect_TypeOf fmap option_fmap option_map Type_Kind outcome_bind].
    rewrite bool_decide_eq_false_2 by done. cbn [negb]. eauto.
Qed.

Lemma StructTableEntity_refuses_witness :
  (∀ (R : GoRuntime) (J : EncodingJSON),
     ∃ err, StructTableEntity_jsonMarshal {| Val := None |} = Returns (None, Some err)) ∧
  (∀ (R : GoRuntime) (J : EncodingJSON),
     ∃ err, StructTableEntity_jsonMarshal
              {| Val := Some {| dyn_type := {| type_kind := Ptr; type_fields := [] |};
                                dyn_fields := [] |} |}
            = Returns (None, Some err)).
Proof.
  split; intros R J.
  - apply (StructTableEntity_refuses {| Val := None |}). by left.
  - apply (StructTableEntity_refuses
             {| Val := Some {| dyn_type := {| type_kind := Ptr; type_fields := [] |};
                               dyn_fields := [] |} |}).
    right. eexists. split; [reflexivity|]. simpl. discriminate.
Defined.

Lemma append_length (u v : string) :
  String.length (u +:+ v) = (String.length u + String.length v)%nat.
Proof. induction u as [|c u IH]; [done|]. rewrite append_cons. simpl. by rewrite IH. Qed.

Lemma append_inj_l (s t x : string) : s +:+ x = t +:+ x → s = t.
Proof.
  revert t. induction s as [|c s IH]; intros [|d t] Hst; try done.
  - apply (f_equal String.length) in Hst.
    rewrite !append_length in Hst. simpl in Hst. lia.
  - apply (f_equal String.length) in Hst.
    rewrite !append_length in Hst. simpl in Hst. lia.
  - rewrite !append_cons in Hst. injection Hst as -> Hst. f_equal. by apply IH.
Qed.

Lemma sidecars_snoc fields f :
  sidecars (fields ++ [f]) = sidecar_step (sidecars fields) f.
Proof. unfold sidecars. by rewrite foldl_app. Qed.

(** A field that carries an [odata.type] tag has its sidecar entry, under the
    name [jsonName] gives it, unless a later field takes the same name. *)
Lemma sidecar_present (before after : list StructField) (f : StructField) :
  Tag_Get (Tag f) "odata.type" ≠ "" →
  Forall (λ g, Tag_Get (Tag g) "odata.type" = "" ∨ tag_name g ≠ tag_name f) after →
  sidecars (before ++ f :: after) !! (tag_name f +:+ "@odata.type")
  = Some (Tag_Get (Tag f) "odata.type").
Proof.
  intros Htag Hafter. revert Hafter.
  induction after as [|g after IH] using rev_ind; intros Hafter.
  - rewrite sidecars_snoc. unfold sidecar_step.
    apply String.eqb_neq in Htag. rewrite Htag. simpl. apply lookup_insert_eq.
  - apply Forall_app in Hafter as [Hafter Hg]. apply Forall_inv in Hg.
    rewrite app_comm_cons, (assoc_L (++)), sidecars_snoc.
    unfold sidecar_step at 1.
    destruct (String.eqb_spec (Tag_Get (Tag g) "odata.type") "") as [Heq|Hne]; simpl.
    + by apply IH.
    + destruct Hg as [Hg|Hg]; [congruence|].
      rewrite lookup_insert_ne; [by apply IH|].
      intros Hsame. by apply append_inj_l in Hsame.
Qed.

(** What [jsonMarshal] writes for [unnamed_tag_entity]. *)
Lemma unnamed_tag_marshal `{GoRuntime} `{EncodingJSON} :
  StructTableEntity_jsonMarshal {| Val := Some unnamed_tag_entity |} =
    match json_Marshal unnamed_tag_entity with
    | (_, Some err) => Returns (None, Some err)
    | (b, None) =>
      match json_Unmarshal_map b with
      | (_, Some err) => Returns (None, Some err)
      | (Some m, None) =>
        Returns (json_MarshalIndent (Some (<["@odata.type" := VString "Edm.Int64"]> m)))
      | (None, None) => Panics
      end
    end.
Proof.
  rewrite StructTableEntity_jsonMarshal_struct by done.
  destruct (json_Marshal unnamed_tag_entity) as [b [err|]]; [done|].
  destruct (json_Unmarshal_map b) as [[m|] [err|]]; try done.
  do 3 f_equal.
  assert (sidecars (type_fields (dyn_type unnamed_tag_entity))
          = {["@odata.type" := "Edm.Int64"]}) as ->.
  { unfold sidecars. simpl. unfold sidecar_step. simpl. by rewrite insert_empty. }
  by rewrite map_fmap_singleton, <- insert_union_singleton_l.
Qed.

(** C6, where the code departs from it: the field [Age] of
    [unnamed_tag_entity] is serialized under its declared name, its tag
    giving none, but [jsonName] gives it the empty name; so the sidecar entry
    that [jsonMarshal] adds to the decoded struct is [@odata.type], not
    [Age@odata.type]. *)
Theorem StructTableEntity_unnamed_tag `{GoRuntime} `{EncodingJSON} :
  serialized_name Age_field = "Age" ∧
  StructTableEntity_jsonName {| Val := Some unnamed_tag_entity |} Age_field = Returns "" ∧
  StructTableEntity_jsonMarshal {| Val := Some unnamed_tag_entity |} =
    match json_Marshal unnamed_tag_entity with
    | (_, Some err) => Returns (None, Some err)
    | (b, None) =>
      match json_Unmarshal_map b with
      | (_, Some err) => Returns (None, Some err)
      | (Some m, None) =>
        Returns (json_MarshalIndent (Some (<["@odata.type" := VString "Edm.Int64"]> m)))
      | (None, None) => Panics
      end
    end.
Proof.
  split_and!; [by vm_compute..|]. apply unnamed_tag_marshal.
Qed.

(** With the map that encoding and decoding the struct gives, the object
    that is written holds the key [@odata.type] and no key
    [Age@odata.type]. *)
Lemma StructTableEntity_unnamed_tag_output `{GoRuntime} `{EncodingJSON} (b : string) :
  json_Marshal unnamed_tag_entity = (b, None) →
  json_Unmarshal_map b
  = (Some (list_to_map [("PartitionKey", VString "pk"); ("RowKey", VString "rk");
                        ("Age", VString "5")]), None) →
  StructTableEntity_jsonMarshal {| Val := Some unnamed_tag_entity |}
  = Returns (Some (sq ("{" +:+ LF
                       +:+ TAB +:+ "'@odata.type': 'Edm.Int64'," +:+ LF
                       +:+ TAB +:+ "'Age': '5'," +:+ LF
                       +:+ TAB +:+ "'PartitionKey': 'pk'," +:+ LF
                       +:+ TAB +:+ "'RowKey': 'rk'" +:+ LF
                       +:+ "}")), None).
Proof.
  intros Hm Hu. rewrite unnamed_tag_marshal.
  rewrite Hm, Hu. by vm_compute.
Qed.

(** ** The error decoders *)

Lemma foldl_invariant {A B} (P : A → Prop) (f : A → B → A) (l : list B) :
  (∀ a b, P a → P (f a b)) → ∀ a, P a → P (foldl f a l).
Proof. intros Hf. induction l as [|x l IH]; intros a Ha; simpl; auto. Qed.

(** The JSON decoder never fills [StatusCode] and [RequestID] from the
    body: the fields are tagged [json:"-"]. *)
Lemma decode_Err_out_of_band v e saved :
  AzureStorageTableServiceError.StatusCode (decode_Err v e saved).1
  = AzureStorageTableServiceError.StatusCode e ∧
  AzureStorageTableServiceError.RequestID (decode_Err v e saved).1
  = AzureStorageTableServiceError.RequestID e.
Proof.
  destruct v as [| | | | |members]; try done. unfold decode_Err.
  apply (foldl_invariant
    (λ st, AzureStorageTableServiceError.StatusCode st.1
           = AzureStorageTableServiceError.StatusCode e ∧
           AzureStorageTableServiceError.RequestID st.1
           = AzureStorageTableServiceError.RequestID e)); [|done].
  intros [e1 s1] [key v] He. simpl in *.
  destruct (find_field _ key); [|done].
  destruct (String.eqb _ "code").
  - by destruct (decode_string _ _ _ _).
  - by destruct (decode_message _ _ _).
Qed.

Lemma json_Unmarshal_out_of_band body o :
  AzureStorageTableServiceError.StatusCode (json_Unmarshal_odataErr body o).1
  = AzureStorageTableServiceError.StatusCode o ∧
  AzureStorageTableServiceError.RequestID (json_Unmarshal_odataErr body o).1
  = AzureStorageTableServiceError.RequestID o.
Proof.
  unfold json_Unmarshal_odataErr. destruct (parse_document body) as [v|]; [|done].
  destruct v as [| | | | |members]; try done. unfold decode_odataErr.
  apply (foldl_invariant
    (λ st, AzureStorageTableServiceError.StatusCode st.1
           = AzureStorageTableServiceError.StatusCode o ∧
           AzureStorageTableServiceError.RequestID st.1
           = AzureStorageTableServiceError.RequestID o)); [|done].
  intros [e1 s1] [key v] He. simpl in *.
  destruct (find_field _ key); [|done].
  destruct (decode_Err_out_of_band v e1 s1) as [H1 H2].
  rewrite H1, H2. done.
Qed.

(** C8: each decoder returns either a structured error or a deserialization
    error that wraps the raw body.  When the body decodes, the structured
    error carries the fields decoded from it, and its status code and request
    id are the ones given, whatever the body holds; when the body does not
    decode, the error of the decoder is wrapped with the body.  Decoding the
    [odata.error] body of the test at status 404 gives the code
    [ResourceNotFound], the language [en-US] and the status code 404. *)
Theorem error_decoders `{EncodingXML} (body : string) (statusCode : Z) (requestID : string) :
  (∀ e, xml_Unmarshal body AzureStorageServiceError.zero = (e, None) →
     ∃ e', serviceErrFromXML body statusCode requestID = ServiceError e'
       ∧ AzureStorageServiceError.Code e' = AzureStorageServiceError.Code e
       ∧ AzureStorageServiceError.Message e' = AzureStorageServiceError.Message e
       ∧ AzureStorageServiceError.AuthenticationErrorDetail e'
         = AzureStorageServiceError.AuthenticationErrorDetail e
       ∧ AzureStorageServiceError.QueryParameterName e'
         = AzureStorageServiceError.QueryParameterName e
       ∧ AzureStorageServiceError.QueryParameterValue e'
         = AzureStorageServiceError.QueryParameterValue e
       ∧ AzureStorageServiceError.Reason e' = AzureStorageServiceError.Reason e
       ∧ AzureStorageServiceError.StatusCode e' = statusCode
       ∧ AzureStorageServiceError.RequestID e' = requestID) ∧
  (∀ e err, xml_Unmarshal body AzureStorageServiceError.zero = (e, Some err) →
     serviceErrFromXML body statusCode requestID = DeserializationError err body) ∧
  (∀ e, json_Unmarshal_odataErr body AzureStorageTableServiceError.zero = (e, None) →
     ∃ e', tableErrFromJSON body statusCode requestID = TableServiceError e'
       ∧ AzureStorageTableServiceError.Code e' = AzureStorageTableServiceError.Code e
       ∧ AzureStorageTableServiceError.Message e' = AzureStorageTableServiceError.Message e
       ∧ AzureStorageTableServiceError.StatusCode e' = statusCode
       ∧ AzureStorageTableServiceError.RequestID e' = requestID) ∧
  (∀ e err, json_Unmarshal_odataErr body AzureStorageTableServiceError.zero = (e, Some err) →
     tableErrFromJSON body statusCode requestID = DeserializationError err body) ∧
  (parse_document body = None →
     tableErrFromJSON body statusCode requestID = DeserializationError SyntaxError body) ∧
  (AzureStorageTableServiceError.StatusCode
     (json_Unmarshal_odataErr body AzureStorageTableServiceError.zero).1 = 0
   ∧ AzureStorageTableServiceError.RequestID
       (json_Unmarshal_odataErr body AzureStorageTableServiceError.zero).1 = "") ∧
  tableErrFromJSON not_found_body 404 requestID =
    TableServiceError
      {| AzureStorageTableServiceError.Code := "ResourceNotFound";
         AzureStorageTableServiceError.Message :=
           {| AzureStorageTableServiceError.Lang := "en-US";
              AzureStorageTableServiceError.Value := not_found_message |};
         AzureStorageTableServiceError.StatusCode := 404;
         AzureStorageTableServiceError.RequestID := requestID |}.
Proof.
  split_and!.
  - intros e He. unfold serviceErrFromXML. rewrite He. eexists. split; [done|]. by simpl.
  - intros e err He. unfold serviceErrFromXML. by rewrite He.
  - intros e He. unfold tableErrFromJSON. rewrite He. eexists. split; [done|]. by simpl.
  - intros e err He. unfold tableErrFromJSON. by rewrite He.
  - intros Hp. unfold tableErrFromJSON, json_Unmarshal_odataErr. by rewrite Hp.
  - apply json_Unmarshal_out_of_band.
  - apply json_Unmarshal_out_of_band.
  - by vm_compute.
Qed.


(** ** More on the escaped path *)

Lemma string_all_app p s t :
  string_all p (s +:+ t) = string_all p s && string_all p t.
Proof.
  induction s as [|c s IH]; [done|]. rewrite append_cons. simpl.
  by rewrite IH, andb_assoc.
Qed.

Lemma string_all_concat p (l : list string) :
  Forall (λ s, string_all p s = true) l → string_all p (String.concat "" l) = true.
Proof.
  induction 1 as [|x l Hx Hl IH]; [done|].
  by rewrite concat_cons, string_all_app, Hx, IH.
Qed.

Lemma percent_url_safe c : string_all url_safe (percent c) = true.
Proof. destruct c as [[] [] [] [] [] [] [] []]; by vm_compute. Qed.

Lemma escaped_rune_url_safe c : string_all url_safe (escaped_rune c) = true.
Proof.
  unfold escaped_rune.
  destruct (is_alnum c || ((c =? 47) || (c =? 44) || (c =? 36) || (c =? 61))
            || ((c =? 45) || (c =? 95) || (c =? 46) || (c =? 126))) eqn:Hpass.
  - cbn [string_all]. rewrite andb_true_r. unfold url_safe.
    assert (0 <= c < 256) as Hc.
    { unfold is_alnum, between in Hpass.
      repeat match type of Hpass with
             | context [?a <=? ?b] => destruct (Z.leb_spec a b); try lia
             | context [?a =? ?b] => destruct (Z.eqb_spec a b); try lia
             end; simpl in *; done. }
    rewrite byte_chr by done. by rewrite Hpass.
  - destruct (c =? 32); [done|].
    apply string_all_concat. apply Forall_forall. intros s Hs.
    apply list_elem_of_fmap in Hs as (x & -> & _). apply percent_url_safe.
Qed.

(** X1: whatever the path, every byte that [encodeComponents] writes is an
    ASCII letter or digit or one of [/ , $ = - _ . ~ + %]: the result holds
    no space, no control character, no [?], [#] or [&], and no byte above
    127. *)
Theorem encodeComponents_url_safe (b : baseSigner) (path : string) :
  string_all url_safe (encodeComponents b path) = true.
Proof.
  rewrite encodeComponents_runes. apply string_all_concat.
  apply Forall_forall. intros s Hs.
  apply list_elem_of_fmap in Hs as (x & -> & _). apply escaped_rune_url_safe.
Qed.

(** The runes of a string that begins with an ASCII byte. *)
Lemma runes_ascii c s : (byte c <? 128) = true → runes (String c s) = byte c :: runes s.
Proof.
  intros Hc. unfold runes. cbn [String.length range_string utf8_DecodeRuneInString].
  by rewrite Hc.
Qed.

Lemma path_plain_ascii c : path_plain c = true → (byte c <? 128) = true.
Proof.
  unfold path_plain, is_alnum, between. intros Hp.
  destruct (Z.ltb_spec (byte c) 128); [done|].
  repeat match type of Hp with
         | context [?a <=? ?b] => destruct (Z.leb_spec a b); try lia
         | context [?a =? ?b] => destruct (Z.eqb_spec a b); try lia
         end; simpl in *; done.
Qed.

(** X2: a path made only of ASCII letters, digits and the characters
    [/ , $ = - _ . ~] is its own escaped form. *)
Theorem encodeComponents_plain (b : baseSigner) (path : string) :
  string_all path_plain path = true → encodeComponents b path = path.
Proof.
  intros Hplain. rewrite encodeComponents_runes.
  induction path as [|c path IH]; [done|].
  cbn [string_all] in Hplain. apply andb_true_iff in Hplain as [Hc Hpath].
  rewrite runes_ascii by by apply path_plain_ascii.
  cbn [map]. rewrite concat_cons, (IH Hpath).
  unfold escaped_rune. unfold path_plain in Hc. rewrite Hc.
  by rewrite chr_byte.
Qed.

Lemma encodeComponents_plain_witness :
  encodeComponents {| accountName := "foo" |} "/cnt/my-blob_1.txt" = "/cnt/my-blob_1.txt".
Proof. apply (encodeComponents_plain {| accountName := "foo" |}). by vm_compute. Defined.

(** A string without bad escapes is decoded on its own, whatever follows
    it. *)
Lemma unescape_app_n n : ∀ p q,
  (String.length p <= n)%nat → has_bad_escape p = false →
  unescape_bytes (p +:+ q) = unescape_bytes p +:+ unescape_bytes q
  ∧ has_bad_escape (p +:+ q) = has_bad_escape q.
Proof.
  induction n as [|n IH]; intros p q Hn Hp.
  - destruct p; simpl in *; [done|lia].
  - destruct p as [|c r]; [done|]. simpl in Hn.
    cbn [has_bad_escape] in Hp. apply orb_false_iff in Hp as [Hc Hr].
    rewrite append_cons. cbn [unescape_bytes has_bad_escape].
    fold (is_percent c). fold (is_plus c).
    destruct (is_percent c) eqn:Hpc.
    + simpl in Hc. apply negb_false_iff in Hc.
      destruct r as [|h1 [|h2 r']]; try done. simpl in Hc.
      rewrite !append_cons. cbn [two_hex]. rewrite Hc. cbn [negb andb orb].
      cbn [has_bad_escape] in Hr.
      apply orb_false_iff in Hr as [_ Hr]. apply orb_false_iff in Hr as [_ Hr].
      destruct (IH r' q) as [Hu Hb]; [simpl in *; lia|done|].
      destruct (IH (String h1 (String h2 r')) q) as [_ Hb2]; [simpl in *; lia| |].
      { cbn [has_bad_escape]. rewrite Hr.
        apply andb_true_iff in Hc as [Hh1 Hh2].
        assert (∀ h, ishex h = true → is_percent h = false) as Hne.
        { intros h. unfold ishex, is_percent, between. intros Hh.
          destruct (Z.eqb_spec (byte h) 37) as [E|]; [|done].
          rewrite E in Hh. done. }
        by rewrite (Hne _ Hh1), (Hne _ Hh2). }
      rewrite !append_cons in Hb2. split; [by rewrite Hu|done].
    + cbn [andb orb]. destruct (IH r q) as [Hu Hb]; [lia|done|].
      split; [|done]. destruct (is_plus c); by rewrite Hu.
Qed.

Lemma unescape_app p q :
  has_bad_escape p = false →
  unescape_bytes (p +:+ q) = unescape_bytes p +:+ unescape_bytes q
  ∧ has_bad_escape (p +:+ q) = has_bad_escape q.
Proof. by apply (unescape_app_n (String.length p)). Qed.

Lemma percent_unescape c :
  has_bad_escape (percent c) = false ∧ unescape_bytes (percent c) = String c "".
Proof. destruct c as [[] [] [] [] [] [] [] []]; by vm_compute. Qed.

Lemma of_bytes_bytes s : of_bytes (bytes s) = s.
Proof. induction s as [|c s IH]; [done|]. simpl. by rewrite IH. Qed.

Lemma percents_unescape (l : list ascii) :
  has_bad_escape (String.concat "" (map percent l)) = false
  ∧ unescape_bytes (String.concat "" (map percent l)) = of_bytes l.
Proof.
  induction l as [|c l [IHb IHu]]; [done|].
  cbn [map]. rewrite concat_cons.
  destruct (percent_unescape c) as [Hb Hu].
  destruct (unescape_app (percent c) (String.concat "" (map percent l)) Hb) as [-> ->].
  split; [done|]. by rewrite Hu, IHu.
Qed.

Lemma escaped_rune_unescape c :
  has_bad_escape (escaped_rune c) = false
  ∧ unescape_bytes (escaped_rune c) = utf8_EncodeRune c.
Proof.
  unfold escaped_rune.
  destruct (is_alnum c || ((c =? 47) || (c =? 44) || (c =? 36) || (c =? 61))
            || ((c =? 45) || (c =? 95) || (c =? 46) || (c =? 126))) eqn:Hpass.
  - assert (0 <= c < 128 ∧ c ≠ 37 ∧ c ≠ 43) as (Hc & H1 & H2).
    { unfold is_alnum, between in Hpass.
      repeat match type of Hpass with
             | context [?a <=? ?b] => destruct (Z.leb_spec a b); try lia
             | context [?a =? ?b] => destruct (Z.eqb_spec a b); try lia
             end; simpl in *; done. }
    cbn [has_bad_escape unescape_bytes]. unfold is_percent.
    rewrite byte_chr by lia.
    destruct (Z.eqb_spec c 37); [done|]. destruct (Z.eqb_spec c 43); [done|].
    split; [done|]. unfold utf8_EncodeRune, between.
    destruct (Z.leb_spec 0 c); [|lia]. destruct (Z.leb_spec c 127); [|lia]. done.
  - destruct (Z.eqb_spec c 32) as [->|Hsp]; [by vm_compute|].
    destruct (percents_unescape (bytes (utf8_EncodeRune c))) as [Hb Hu].
    split; [done|]. by rewrite Hu, of_bytes_bytes.
Qed.

Lemma escaped_runes_unescape (l : list Z) :
  has_bad_escape (String.concat "" (map escaped_rune l)) = false
  ∧ unescape_bytes (String.concat "" (map escaped_rune l))
    = String.concat "" (map utf8_EncodeRune l).
Proof.
  induction l as [|c l [IHb IHu]]; [done|].
  cbn [map]. rewrite !concat_cons.
  destruct (escaped_rune_unescape c) as [Hb Hu].
  destruct (unescape_app (escaped_rune c) (String.concat "" (map escaped_rune l)) Hb)
    as [-> ->].
  split; [done|]. by rewrite Hu, IHu.
Qed.

Lemma to_valid_utf8_ascii s : isASCII s = true → to_valid_utf8 s = s.
Proof.
  unfold to_valid_utf8. induction s as [|c s IH]; [done|].
  unfold isASCII. cbn [string_all]. intros Hs.
  apply andb_true_iff in Hs as [Hc Hs].
  rewrite runes_ascii by done. cbn [map]. rewrite concat_cons, (IH Hs).
  unfold utf8_EncodeRune, between.
  pose proof (byte_range c).
  destruct (Z.leb_spec 0 (byte c)); [|lia].
  destruct (Z.leb_spec (byte c) 127); [|lia]. simpl. by rewrite chr_byte.
Qed.

(** X3: the escaped path always decodes, and [url.QueryUnescape] gives back
    the path, every byte of it that starts no UTF-8 sequence being replaced
    by U+FFFD; for an ASCII path it gives back the path itself. *)
Theorem encodeComponents_unescape (b : baseSigner) (path : string) :
  url_QueryUnescape (encodeComponents b path) = (to_valid_utf8 path, None)
  ∧ (isASCII path = true →
     url_QueryUnescape (encodeComponents b path) = (path, None)).
Proof.
  assert (url_QueryUnescape (encodeComponents b path) = (to_valid_utf8 path, None)) as Hu.
  { rewrite encodeComponents_runes.
    destruct (escaped_runes_unescape (runes path)) as [Hb Hu].
    pose proof (QueryUnescape_spec (String.concat "" (map escaped_rune (runes path)))) as Hq.
    rewrite Hb in Hq. rewrite Hq. by rewrite Hu. }
  split; [done|]. intros Hascii. by rewrite Hu, to_valid_utf8_ascii.
Qed.

(** ** More on the signers *)

(** X4: both string-to-sign builders fail exactly when the query string of
    the URL is malformed, and then return the empty string with the parse
    error, never a partial string. *)
Theorem canonicalizedString_fails_iff_malformed `{GoRuntime}
    (s : baseSigner) (verb : string) (headers : gmap string string) (u : URL) :
  (query_malformed (RawQuery u) = true →
     ∃ err,
       blobQueueSigner_canonicalizedString s verb headers u
       = ("", Some (CanonicalResourceError err))
       ∧ tableSigner_canonicalizedString s verb headers u
         = ("", Some (CanonicalResourceError err))) ∧
  (query_malformed (RawQuery u) = false →
     snd (blobQueueSigner_canonicalizedString s verb headers u) = None
     ∧ snd (tableSigner_canonicalizedString s verb headers u) = None).
Proof.
  unfold blobQueueSigner_canonicalizedString, tableSigner_canonicalizedString.
  destruct (canonicalResource_cases s u) as [[Hbad [err Herr]]|[Hgood Hok]].
  - split; [|congruence]. intros _. exists err. by rewrite Herr.
  - split; [congruence|]. intros _. by rewrite Hok.
Qed.

(** X5: when no two headers of the map are filed under the same [x-ms-] name, the
    canonical header block does not depend on the order in which the runtime
    visits the map. *)
Theorem canonicalHeader_order_irrelevant (R : GoRuntime)
    (ord : gmap string string → list (string * string))
    (Hord : ∀ m, ord m ≡ₚ map_to_list m)
    (b : baseSigner) (headers : gmap string string) :
  (∀ k1 k2, is_Some (headers !! k1) → is_Some (headers !! k2) →
     headerName k1 = headerName k2 →
     strings_HasPrefix (headerName k1) "x-ms-" = true → k1 = k2) →
  canonicalHeader (H := with_range R ord Hord) b headers = canonicalHeader b headers.
Proof.
  intros Hinj.
  destruct (canonicalHeader_lines (H := with_range R ord Hord) b headers)
    as (cm1 & Hfrom1 & Hall1 & ->).
  destruct (canonicalHeader_lines (H := R) b headers) as (cm2 & Hfrom2 & Hall2 & ->).
  change (@headerName (with_range R ord Hord)) with (@headerName R) in *.
  assert (∀ (cma cmb : gmap string string),
    (∀ n v, cma !! n = Some v →
       ∃ k, headers !! k = Some v ∧ headerName k = n
            ∧ strings_HasPrefix n "x-ms-" = true) →
    (∀ n v, cmb !! n = Some v →
       ∃ k, headers !! k = Some v ∧ headerName k = n
            ∧ strings_HasPrefix n "x-ms-" = true) →
    (∀ k, is_Some (headers !! k) →
       strings_HasPrefix (headerName k) "x-ms-" = true →
       is_Some (cmb !! headerName k)) →
    ∀ n v, cma !! n = Some v → cmb !! n = Some v) as Hsub.
  { intros cma cmb Ha Hb Hballl n v Hn.
    destruct (Ha _ _ Hn) as (k & Hk & <- & Hp).
    destruct (Hballl k) as [w Hw]; [eauto|done|].
    destruct (Hb _ _ Hw) as (k' & Hk' & Heq & _).
    assert (k' = k) as ->.
    { apply Hinj; eauto. by rewrite Heq. }
    rewrite Hk in Hk'. by injection Hk' as <-. }
  assert (cm1 = cm2) as ->; [|done].
  apply map_eq. intros n.
  destruct (cm1 !! n) as [v|] eqn:H1.
  - symmetry. by eapply (Hsub cm1 cm2).
  - destruct (cm2 !! n) as [v|] eqn:H2; [|done].
    pose proof (Hsub cm2 cm1 Hfrom2 Hfrom1 Hall1 n v H2). congruence.
Qed.

Lemma canonicalHeader_order_irrelevant_witness :
  canonicalHeader
    (H := with_range go_ascii (λ m, reverse (map_to_list m))
            (λ m, reverse_Permutation (map_to_list m)))
    {| accountName := "foo" |}
    (list_to_map [("x-ms-version", "9999-99-99"); ("x-ms-blob-type", "BlockBlob")])
  = canonicalHeader (H := go_ascii) {| accountName := "foo" |}
      (list_to_map [("x-ms-version", "9999-99-99"); ("x-ms-blob-type", "BlockBlob")]).
Proof.
  apply (canonicalHeader_order_irrelevant go_ascii).
  intros k1 k2 [v1 H1] [v2 H2].
  apply elem_of_list_to_map_2 in H1, H2.
  repeat (apply elem_of_cons in H1 as [H1|H1]; [injection H1 as -> _|]);
    [..|by apply elem_of_nil in H1];
    (repeat (apply elem_of_cons in H2 as [H2|H2]; [injection H2 as -> _|]);
     [..|by apply elem_of_nil in H2]);
    first [done | by vm_compute].
Defined.

(** ** Endpoints and their canonical resource *)

Lemma escape_bytes_cons c s : escape_bytes (String c s) = escape_byte c +:+ escape_bytes s.
Proof.
  cbn [escape_bytes]. unfold escape_byte, percent.
  destruct (byte c =? 32); [done|]. by destruct (shouldEscape c).
Qed.

Lemma escape_byte_spec c :
  has_bad_escape (escape_byte c) = false
  ∧ unescape_bytes (escape_byte c) = String c ""
  ∧ count_bytes is_amp (escape_byte c) = 0%nat
  ∧ count_bytes is_semi (escape_byte c) = 0%nat
  ∧ count_bytes is_equals (escape_byte c) = 0%nat
  ∧ (0 < String.length (escape_byte c))%nat.
Proof. destruct c as [[] [] [] [] [] [] [] []]; vm_compute; repeat split; lia. Qed.

(** [QueryEscape] writes no [&], [;] or [=], leaves no bad escape, and
    [QueryUnescape] undoes it. *)
Lemma QueryEscape_spec s :
  has_bad_escape (url_QueryEscape s) = false
  ∧ unescape_bytes (url_QueryEscape s) = s
  ∧ count_bytes is_amp (url_QueryEscape s) = 0%nat
  ∧ count_bytes is_semi (url_QueryEscape s) = 0%nat
  ∧ count_bytes is_equals (url_QueryEscape s) = 0%nat.
Proof.
  rewrite QueryEscape_bytes. induction s as [|c s (IH1 & IH2 & IH3 & IH4 & IH5)]; [done|].
  rewrite escape_bytes_cons, !count_bytes_app.
  destruct (escape_byte_spec c) as (H1 & H2 & H3 & H4 & H5 & _).
  destruct (unescape_app (escape_byte c) (escape_bytes s) H1) as [-> ->].
  rewrite H2, H3, H4, H5, IH2, IH3, IH4, IH5. done.
Qed.

(** Cutting a string at its first separator. *)
Lemma cut_at_found sep p c q :
  count_bytes sep p = 0%nat → sep c = true →
  cut_at sep (p +:+ String c q) = (p, q, true).
Proof.
  intros Hp Hc. induction p as [|x p IH].
  - change ("" +:+ String c q) with (String c q). cbn [cut_at]. by rewrite Hc.
  - rewrite append_cons. cbn [cut_at count_bytes] in *. destruct (sep x); [lia|].
    by rewrite IH by lia.
Qed.

Lemma cut_at_missing sep p :
  count_bytes sep p = 0%nat → cut_at sep p = (p, "", false).
Proof.
  induction p as [|x p IH]; simpl; [done|].
  destruct (sep x); [lia|]. intros Hp. by rewrite IH by lia.
Qed.

Lemma concat_amp_cons (x y : string) (l : list string) :
  String.concat "&" (x :: y :: l) = x +:+ String (chr 38) (String.concat "&" (y :: l)).
Proof. done. Qed.

Section encoded_query.
Context {R : GoRuntime}.

Lemma no_separator p :
  count_bytes is_amp p = 0%nat → count_bytes is_semi p = 0%nat →
  count_bytes query_separator p = 0%nat.
Proof.
  induction p as [|c p IH]; [done|]. simpl. unfold query_separator at 1.
  destruct (is_amp c), (is_semi c); simpl; try lia.
  - rewrite andb_false_r. simpl. intros. apply IH; lia.
Qed.

(** The components of well-formed pieces joined by [&] are the pieces. *)
Lemma query_components_join (pieces : list string) :
  Forall (λ p, count_bytes is_amp p = 0%nat ∧ count_bytes is_semi p = 0%nat
               ∧ (0 < String.length p)%nat) pieces →
  ∀ n, (String.length (String.concat "&" pieces) <= n)%nat →
  query_components_fuel n (String.concat "&" pieces) = pieces.
Proof.
  induction 1 as [|p pieces (Hamp & Hsemi & Hlen) Hrest IH]; intros n Hn.
  - by destruct n.
  - destruct pieces as [|p' pieces].
    + simpl in *. destruct n as [|n]; [lia|]. destruct p as [|c p]; [simpl in *; lia|].
      cbn [query_components_fuel].
      rewrite (cut_at_missing query_separator (String c p)) by by apply no_separator.
      by destruct n.
    + rewrite concat_amp_cons in *. rewrite append_length in Hn.
      destruct n as [|n]; [lia|]. destruct p as [|c p]; [simpl in *; lia|].
      rewrite append_cons. cbn [query_components_fuel]. rewrite <- append_cons.
      rewrite (cut_at_found query_separator (String c p)).
      * rewrite IH; [done|]. simpl in *. lia.
      * by apply no_separator.
      * unfold query_separator. by vm_compute.
Qed.

Lemma pair_text_component kx :
  count_bytes is_amp (pair_text kx) = 0%nat
  ∧ count_bytes is_semi (pair_text kx) = 0%nat
  ∧ (0 < String.length (pair_text kx))%nat
  ∧ component_malformed (pair_text kx) = false
  ∧ component_pair (pair_text kx) = Some kx.
Proof.
  destruct kx as [k x]. unfold pair_text. cbn [fst snd].
  destruct (QueryEscape_spec k) as (Hk1 & Hk2 & Hk3 & Hk4 & Hk5).
  destruct (QueryEscape_spec x) as (Hx1 & Hx2 & Hx3 & Hx4 & Hx5).
  assert (cut_at is_equals (url_QueryEscape k +:+ "=" +:+ url_QueryEscape x)
          = (url_QueryEscape k, url_QueryEscape x, true)) as Hcut.
  { by apply (cut_at_found is_equals). }
  assert (count_bytes is_semi (url_QueryEscape k +:+ "=" +:+ url_QueryEscape x) = 0%nat)
    as Hsemi.
  { rewrite !count_bytes_app, Hk4, Hx4. done. }
  assert (component_malformed (url_QueryEscape k +:+ "=" +:+ url_QueryEscape x) = false)
    as Hmal.
  { unfold component_malformed. rewrite Hsemi, Hcut, Hk1, Hx1.
    by rewrite andb_false_r. }
  split_and!.
  - rewrite !count_bytes_app, Hk3, Hx3. done.
  - done.
  - rewrite !append_length. simpl. lia.
  - done.
  - unfold component_pair. rewrite Hmal, Hcut, Hk2, Hx2.
    rewrite !append_length. simpl.
    by replace (String.length (url_QueryEscape k) + S (String.length (url_QueryEscape x))
                =? 0)%nat with false by (symmetry; apply Nat.eqb_neq; lia).
Qed.

(** A query string that is well-formed pieces joined by [&] is not
    malformed, and its parameters are those of the pieces. *)
Lemma joined_query (pairs : list (string * string)) :
  query_malformed (String.concat "&" (map pair_text pairs)) = false
  ∧ query_pairs (String.concat "&" (map pair_text pairs)) = pairs.
Proof.
  unfold query_malformed, query_pairs, query_components.
  rewrite query_components_join; [|by apply Forall_fmap, Forall_forall;
    intros kx _; destruct (pair_text_component kx) as (? & ? & ? & _)|done].
  induction pairs as [|kx pairs [IH1 IH2]]; [done|].
  destruct (pair_text_component kx) as (_ & _ & _ & Hmal & Hpair).
  cbn [map existsb]. rewrite Hmal, IH1. split; [done|].
  change (omap component_pair (pair_text kx :: map pair_text pairs))
    with (match component_pair (pair_text kx) with
          | Some y => y :: omap component_pair (map pair_text pairs)
          | None => omap component_pair (map pair_text pairs)
          end).
  by rewrite Hpair, IH2.
Qed.
End encoded_query.

(** ** [Values.Encode] *)

Lemma encode_step_text buf kx :
  encode_step buf kx
  = (if (String.length buf =? 0)%nat then "" else buf +:+ "&") +:+ pair_text kx
  ∧ (String.length (encode_step buf kx) =? 0)%nat = false.
Proof.
  unfold encode_step. split.
  - by destruct buf.
  - apply Nat.eqb_neq. unfold pair_text. rewrite !append_length. simpl. lia.
Qed.

Lemma encode_step_join (pairs : list (string * string)) : ∀ buf,
  foldl encode_step buf pairs =
  match pairs with
  | [] => buf
  | _ => (if (String.length buf =? 0)%nat then "" else buf +:+ "&")
           +:+ String.concat "&" (map pair_text pairs)
  end.
Proof.
  induction pairs as [|kx pairs IH]; intros buf; [done|].
  cbn [foldl]. rewrite IH.
  destruct (encode_step_text buf kx) as [Htext Hlen].
  destruct pairs as [|kx' pairs]; [done|].
  rewrite Hlen, Htext. cbn [map]. rewrite concat_cons2. by rewrite !append_assoc.
Qed.

Lemma encode_inner k (vs : list string) : ∀ buf,
  foldl (λ buf x,
           (if (String.length buf =? 0)%nat then buf else buf +:+ "&")
             +:+ url_QueryEscape k +:+ "=" +:+ url_QueryEscape x) buf vs
  = foldl encode_step buf (map (λ x, (k, x)) vs).
Proof. induction vs as [|x vs IH]; intros buf; [done|]. cbn [foldl map]. by rewrite IH. Qed.

Lemma encode_outer (v : gmap string (list string)) (keys : list string) : ∀ buf,
  foldl (λ buf k, foldl encode_step buf (map (λ x, (k, x)) (values_at v k))) buf keys
  = foldl encode_step buf (flat_map (λ k, map (λ x, (k, x)) (values_at v k)) keys).
Proof.
  induction keys as [|k keys IH]; intros buf; [done|].
  cbn [foldl flat_map]. by rewrite foldl_app, IH.
Qed.

(** [Values.Encode] writes its parameters as [key=value] pieces joined by
    [&]. *)
Lemma Values_Encode_join (v : gmap string (list string)) :
  Values_Encode v = String.concat "&" (map pair_text (encoded_pairs v)).
Proof.
  unfold Values_Encode, encoded_pairs.
  destruct (Nat.eqb_spec (size v) 0) as [Hsz|_].
  - apply map_size_empty_iff in Hsz. subst v. by rewrite map_to_list_empty.
  - rewrite (foldl_pointwise _
      (λ buf k, foldl encode_step buf (map (λ x, (k, x)) (values_at v k)))).
    2:{ intros buf k. apply encode_inner. }
    rewrite encode_outer, encode_step_join.
    by destruct (flat_map _ _).
Qed.

Lemma values_of_tagged k k' (vs : list string) :
  values_of k (map (λ x, (k', x)) vs) = if decide (k' = k) then vs else [].
Proof.
  unfold values_of. induction vs as [|x vs IH]; [by case_decide|].
  cbn [map]. destruct (decide (k' = k)) as [Heq|Hne].
  - rewrite filter_cons_True by done. cbn [fmap list_fmap snd]. by f_equal.
  - by rewrite filter_cons_False by done.
Qed.

Lemma values_of_encoded (v : gmap string (list string)) k :
  values_of k (encoded_pairs v) = values_at v k.
Proof.
  unfold encoded_pairs.
  assert (NoDup (sort_Strings (map fst (map_to_list v)))) as Hnd.
  { rewrite sort_Strings_perm. apply NoDup_fst_map_to_list. }
  assert (k ∉ sort_Strings (map fst (map_to_list v)) → values_at v k = []) as Hout.
  { intros Hk. unfold values_at. destruct (v !! k) as [vs|] eqn:Hv; [|done].
    destruct Hk. rewrite sort_Strings_perm. apply list_elem_of_fmap.
    exists (k, vs). split; [done|]. by apply elem_of_map_to_list. }
  revert Hnd Hout. generalize (sort_Strings (map fst (map_to_list v))) as keys.
  induction keys as [|k' keys IH]; intros Hnd Hout.
  - symmetry. apply Hout. apply not_elem_of_nil.
  - apply NoDup_cons in Hnd as [Hk' Hnd]. cbn [flat_map].
    rewrite values_of_app, values_of_tagged.
    destruct (decide (k' = k)) as [->|Hne].
    + assert (values_of k (flat_map (λ k0, map (λ x, (k0, x)) (values_at v k0)) keys)
              = []) as ->; [|by rewrite app_nil_r].
      clear -Hk'. induction keys as [|k0 keys IH]; [done|].
      cbn [flat_map]. rewrite values_of_app, values_of_tagged.
      rewrite decide_False by (intros ->; apply Hk'; apply list_elem_of_here).
      apply IH. intros Hin. apply Hk'. by apply list_elem_of_further.
    + simpl. apply IH; [done|]. intros Hk. apply Hout.
      intros Hin. apply elem_of_cons in Hin as [->|Hin]; done.
Qed.

(** [ParseQuery] reads back what [Values.Encode] writes. *)
Lemma ParseQuery_Encode `{GoRuntime} (v : gmap string (list string)) :
  query_malformed (Values_Encode v) = false
  ∧ ∀ k, hd "" (values_of k (query_pairs (Values_Encode v))) = Values_Get v k.
Proof.
  rewrite Values_Encode_join.
  destruct (joined_query (encoded_pairs v)) as [Hmal Hpairs].
  split; [done|]. intros k.
  by rewrite Hpairs, values_of_encoded, Values_Get_hd.
Qed.

(** X6: an endpoint built by [getEndpoint] always canonicalizes.  Its path
    is the given path with a leading slash added when it has none, so that a
    path given with or without its slash gives the same endpoint; its query
    string is never malformed; and the canonical resource is the account
    name and the escaped path, followed by [?comp=] and the first value
    filed under [comp] in the parameters when that value is not empty. *)
Theorem getEndpoint_canonicalResource `{GoRuntime}
    (c : Client.t) (service path : string) (params : gmap string (list string)) :
  let u := Location (getEndpoint c service path params) in
  let s := {| accountName := Client.accountName c |} in
  let comp := Values_Get params "comp" in
  Path u = (if strings_HasPrefix path "/" then path else "/" +:+ path)
  ∧ (strings_HasPrefix path "/" = false →
     getEndpoint c service ("/" +:+ path) params = getEndpoint c service path params)
  ∧ query_malformed (RawQuery u) = false
  ∧ canonicalResource s u =
      ("/" +:+ Client.accountName c +:+ encodeComponents s (Path u)
         +:+ (if String.eqb comp "" then "" else "?comp=" +:+ url_QueryEscape comp),
       None).
Proof.
  intros u s comp.
  destruct (ParseQuery_Encode params) as [Hmal Hget].
  split_and!.
  - unfold u, getEndpoint. cbn [Location Path]. by destruct (strings_HasPrefix path "/").
  - intros Hp. unfold getEndpoint. rewrite Hp.
    assert (strings_HasPrefix ("/" +:+ path) "/" = true) as -> by by destruct path.
    done.
  - done.
  - destruct (canonicalResource_cases s u) as [[Hbad _]|[_ Hok]].
    { change (RawQuery u) with (Values_Encode params) in Hbad. congruence. }
    change (RawQuery u) with (Values_Encode params) in Hok.
    rewrite (Hget "comp") in Hok. fold comp in Hok. rewrite Hok.
    change (accountName s) with (Client.accountName c).
    destruct (String.eqb comp ""); [by rewrite append_nil_r|].
    by rewrite !append_assoc.
Qed.

(** X7: [checkRespCode] returns nil exactly when the response code is one of
    the allowed codes; otherwise it returns the error that names the allowed
    codes and the code received. *)
Theorem checkRespCode_spec (respCode : Z) (codes : list Z) :
  (checkRespCode respCode codes = None ↔ respCode ∈ codes)
  ∧ (respCode ∉ codes →
     checkRespCode respCode codes = Some {| allowed := codes; got := respCode |}).
Proof.
  unfold checkRespCode. set (e := {| allowed := codes; got := respCode |}).
  clearbody e. induction codes as [|v codes [IH1 IH2]].
  - split; [|done]. split; [done|]. intros Hin. by apply elem_of_nil in Hin.
  - destruct (Z.eqb_spec respCode v) as [->|Hne].
    + split; [|intros Hn; destruct Hn; apply list_elem_of_here].
      split; [intros _; apply list_elem_of_here|done].
    + split.
      * rewrite IH1. split; [apply list_elem_of_further|].
        intros Hin. apply elem_of_cons in Hin as [?|?]; done.
      * intros Hn. apply IH2. intros Hin. apply Hn. by apply list_elem_of_further.
Qed.

(** ** More on struct entities *)

Lemma string_rev_onto_app s : ∀ acc, string_rev_onto acc s = string_rev s +:+ acc.
Proof.
  unfold string_rev. induction s as [|c s IH]; intros acc; [done|].
  cbn [string_rev_onto]. rewrite (IH (String c acc)), (IH (String c "")).
  by rewrite append_assoc.
Qed.

Lemma string_rev_cons c s : string_rev (String c s) = string_rev s +:+ String c "".
Proof. unfold string_rev. cbn [string_rev_onto]. apply string_rev_onto_app. Qed.

(** The first piece of [strings.Split] is the text before the first
    separator. *)
Lemma split_onto_cut sep s : ∀ cur,
  hd "" (split_onto sep cur s)
  = string_rev cur +:+ (cut_at (Ascii.eqb sep) s).1.1.
Proof.
  induction s as [|c s IH]; intros cur.
  - simpl. by rewrite append_nil_r.
  - cbn [split_onto cut_at]. rewrite (Ascii.eqb_sym sep c).
    destruct (Ascii.eqb c sep).
    + simpl. by rewrite append_nil_r.
    + rewrite IH, string_rev_cons.
      destruct (cut_at (Ascii.eqb sep) s) as [[p q] found]. simpl.
      by rewrite append_assoc.
Qed.

Lemma cut_at_spec sep s :
  let '(p, q, found) := cut_at sep s in
  count_bytes sep p = 0%nat
  ∧ (if found then ∃ c, sep c = true ∧ s = p +:+ String c q else s = p).
Proof.
  induction s as [|c s IH]; [done|]. cbn [cut_at].
  destruct (sep c) eqn:Hc.
  - split; [done|]. by exists c.
  - destruct (cut_at sep s) as [[p q] found]. destruct IH as [Hp Hs].
    split; [simpl; by rewrite Hc|].
    destruct found.
    + destruct Hs as (c' & Hc' & ->). exists c'. by rewrite append_cons.
    + by rewrite Hs.
Qed.

Lemma is_comma_eqb c : is_comma c = Ascii.eqb (chr 44) c.
Proof. destruct c as [[] [] [] [] [] [] [] []]; by vm_compute. Qed.

(** X8: [jsonName] never panics.  For a field without a [json] tag it
    returns the declared name; otherwise it returns the text of the tag
    before its first comma: the name holds no comma, and the tag is the name
    alone or the name, a comma and the options. *)
Theorem jsonName_spec (s : StructTableEntity) (f : StructField) :
  ∃ name,
    StructTableEntity_jsonName s f = Returns name
    ∧ (Tag_Get (Tag f) "json" = "" → name = Name f)
    ∧ (Tag_Get (Tag f) "json" ≠ "" →
       count_bytes is_comma name = 0%nat
       ∧ (Tag_Get (Tag f) "json" = name
          ∨ ∃ options, Tag_Get (Tag f) "json" = name +:+ "," +:+ options)).
Proof.
  exists (tag_name f). split; [apply jsonName_returns|].
  unfold tag_name. split.
  - intros ->. done.
  - intros Hne. apply String.eqb_neq in Hne as Hne'. rewrite Hne'. cbn [negb].
    unfold strings_Split. rewrite split_onto_cut.
    change (string_rev "" +:+ ?x) with x.
    pose proof (cut_at_spec (Ascii.eqb (chr 44)) (Tag_Get (Tag f) "json")) as Hcut.
    destruct (cut_at (Ascii.eqb (chr 44)) (Tag_Get (Tag f) "json")) as [[p q] found].
    cbn [fst]. destruct Hcut as [Hp Hs]. split.
    + rewrite <- Hp. clear. induction p as [|c p IH]; [done|]. simpl.
      by rewrite IH, is_comma_eqb.
    + destruct found; [|by left].
      destruct Hs as (c & Hc & ->). right. exists q.
      apply Ascii.eqb_eq in Hc as <-. done.
Qed.

(** X9: a field that carries an [odata.type] tag gets its sidecar entry:
    the loop over the fields of a struct type returns, without panic, a map
    that holds the tag's value under the field's [jsonName] followed by
    [@odata.type], unless a later tagged field has the same [jsonName]. *)
Theorem scan_fields_sidecar (s : StructTableEntity) (ty : GoType)
    (before after : list StructField) (f : StructField) :
  type_kind ty = Struct →
  type_fields ty = before ++ f :: after →
  Tag_Get (Tag f) "odata.type" ≠ "" →
  Forall (λ g, Tag_Get (Tag g) "odata.type" = "" ∨ tag_name g ≠ tag_name f) after →
  ∃ extras name,
    scan_fields s (Some ty) (List.length (type_fields ty)) 0 ∅ = Returns extras
    ∧ StructTableEntity_jsonName s f = Returns name
    ∧ extras !! (name +:+ "@odata.type") = Some (Tag_Get (Tag f) "odata.type").
Proof.
  intros Hkind Hfields Htag Hafter.
  exists (sidecars (type_fields ty)), (tag_name f). split_and!.
  - by apply scan_fields_returns.
  - apply jsonName_returns.
  - rewrite Hfields. by apply sidecar_present.
Qed.

Lemma scan_fields_sidecar_witness :
  ∃ extras name,
    scan_fields {| Val := None |} (Some tagged_type)
      (List.length (type_fields tagged_type)) 0 ∅ = Returns extras
    ∧ StructTableEntity_jsonName {| Val := None |} GUIDVal_field = Returns name
    ∧ extras !! (name +:+ "@odata.type") = Some (Tag_Get (Tag GUIDVal_field) "odata.type").
Proof.
  apply (scan_fields_sidecar {| Val := None |} tagged_type
           [ {| Name := "PartitionKey"; Tag := [] |};
             {| Name := "Name"; Tag := [("json", "name,omitempty")] |} ]
           [ {| Name := "FieldWithOnlyODataTag"; Tag := [("odata.type", "Edm.Int64")] |} ]
           GUIDVal_field).
  - reflexivity.
  - reflexivity.
  - vm_compute. discriminate.
  - constructor; [|constructor]. right. vm_compute. discriminate.
Defined.

(** X10: what [jsonMarshal] does with a struct.  It returns the error of
    [json.Marshal] or of [json.Unmarshal] with no bytes when the round trip
    fails.  When the round trip gives a map, it returns without panic the
    indented object, keys in strictly ascending order, whose entries are the
    sidecar entries and, under every other key, the decoded entries: a
    sidecar entry overrides a decoded entry of the same key.  When the round
    trip leaves the map nil, it writes [null] if no field carries an
    [odata.type] tag and panics otherwise. *)
Theorem StructTableEntity_jsonMarshal_cases `{GoRuntime} `{EncodingJSON} (v : GoDynamic) :
  type_kind (dyn_type v) = Struct →
  match json_Marshal v with
  | (_, Some err) =>
    StructTableEntity_jsonMarshal {| Val := Some v |} = Returns (None, Some err)
  | (b, None) =>
    match json_Unmarshal_map b with
    | (_, Some err) =>
      StructTableEntity_jsonMarshal {| Val := Some v |} = Returns (None, Some err)
    | (Some m, None) =>
      ∃ members : list (string * GoValue),
        StructTableEntity_jsonMarshal {| Val := Some v |}
        = Returns (Some (indented_object members), None)
        ∧ StronglySorted str_lt members.*1
        ∧ ∀ k x, (k, x) ∈ members ↔
            match sidecars (type_fields (dyn_type v)) !! k with
            | Some t => x = VString t
            | None => m !! k = Some x
            end
    | (None, None) =>
      (sidecars (type_fields (dyn_type v)) = ∅ →
         StructTableEntity_jsonMarshal {| Val := Some v |} = Returns (Some "null", None))
      ∧ (sidecars (type_fields (dyn_type v)) ≠ ∅ →
         StructTableEntity_jsonMarshal {| Val := Some v |} = Panics)
    end
  end.
Proof.
  intros Hkind. rewrite StructTableEntity_jsonMarshal_struct by done.
  destruct (json_Marshal v) as [b [err|]]; [done|].
  destruct (json_Unmarshal_map b) as [[m|] [err|]]; try done.
  - set (final := (VString <$> sidecars (type_fields (dyn_type v))) ∪ m).
    eexists. split; [by rewrite MarshalIndent_members|].
    destruct (sorted_members final) as [Hsorted Hmem]. split; [done|].
    intros k x. rewrite Hmem. unfold final.
    destruct (sidecars (type_fields (dyn_type v)) !! k) as [t|] eqn:Hk.
    + rewrite (lookup_union_Some_l _ _ k (VString t)) by by rewrite lookup_fmap, Hk.
      split; congruence.
    + by rewrite lookup_union_r by by rewrite lookup_fmap, Hk.
  - split; intros Hs; [by rewrite decide_True|by rewrite decide_False].
Qed.

Lemma StructTableEntity_jsonMarshal_cases_witness :
  (∀ (R : GoRuntime) (J : EncodingJSON),
     match json_Marshal unnamed_tag_entity with
     | (_, Some err) =>
       StructTableEntity_jsonMarshal {| Val := Some unnamed_tag_entity |}
       = Returns (None, Some err)
     | (b, None) =>
       match json_Unmarshal_map b with
       | (_, Some err) =>
         StructTableEntity_jsonMarshal {| Val := Some unnamed_tag_entity |}
         = Returns (None, Some err)
       | (Some m, None) =>
         ∃ members : list (string * GoValue),
           StructTableEntity_jsonMarshal {| Val := Some unnamed_tag_entity |}
           = Returns (Some (indented_object members), None)
           ∧ StronglySorted str_lt members.*1
           ∧ ∀ k x, (k, x) ∈ members ↔
               match sidecars (type_fields (dyn_type unnamed_tag_entity)) !! k with
               | Some t => x = VString t
               | None => m !! k = Some x
               end
       | (None, None) =>
         (sidecars (type_fields (dyn_type unnamed_tag_entity)) = ∅ →
            StructTableEntity_jsonMarshal {| Val := Some unnamed_tag_entity |}
            = Returns (Some "null", None))
         ∧ (sidecars (type_fields (dyn_type unnamed_tag_entity)) ≠ ∅ →
            StructTableEntity_jsonMarshal {| Val := Some unnamed_tag_entity |} = Panics)
       end
     end)
  ∧ type_kind (dyn_type unnamed_tag_entity) = Struct.
Proof.
  split; [|reflexivity]. intros R J.
  apply (StructTableEntity_jsonMarshal_cases unnamed_tag_entity). reflexivity.
Defined.

(** ** More on the error decoders and the strings to sign *)

Lemma decode_odataErr_other_keys (members : list (string * jtree)) :
  Forall (λ kv, find_field ["odata.error"] kv.1 = None) members →
  ∀ e saved, decode_odataErr (JObject members) e saved = (e, saved).
Proof.
  unfold decode_odataErr.
  induction 1 as [|[key v] members Hkey Hrest IH]; intros e saved; [done|].
  cbn [foldl]. simpl in Hkey. rewrite Hkey. apply IH.
Qed.

(** X11: a body that the decoder accepts (well formed, and nested no deeper
    than [maxNestingDepth]) and that is an object without a key for
    [odata.error] (in any case) is not a deserialization error:
    [tableErrFromJSON] returns a structured error whose code and message are
    empty, with the status code and request id given. *)
Theorem tableErrFromJSON_without_envelope
    (body : string) (statusCode : Z) (requestID : string)
    (members : list (string * jtree)) :
  parse_document body = Some (JObject members) →
  Forall (λ kv, find_field ["odata.error"] kv.1 = None) members →
  tableErrFromJSON body statusCode requestID =
    TableServiceError
      {| AzureStorageTableServiceError.Code := "";
         AzureStorageTableServiceError.Message :=
           {| AzureStorageTableServiceError.Lang := "";
              AzureStorageTableServiceError.Value := "" |};
         AzureStorageTableServiceError.StatusCode := statusCode;
         AzureStorageTableServiceError.RequestID := requestID |}.
Proof.
  intros Hparse Hkeys. unfold tableErrFromJSON, json_Unmarshal_odataErr.
  rewrite Hparse. by rewrite decode_odataErr_other_keys.
Qed.

Lemma tableErrFromJSON_without_envelope_witness :
  tableErrFromJSON (sq "{'error': {'code': 'ResourceNotFound'}}") 404 "foo" =
    TableServiceError
      {| AzureStorageTableServiceError.Code := "";
         AzureStorageTableServiceError.Message :=
           {| AzureStorageTableServiceError.Lang := "";
              AzureStorageTableServiceError.Value := "" |};
         AzureStorageTableServiceError.StatusCode := 404;
         AzureStorageTableServiceError.RequestID := "foo" |}.
Proof.
  apply (tableErrFromJSON_without_envelope _ 404 "foo"
           [("error", JObject [("code", JString "ResourceNotFound")])]).
  - by vm_compute.
  - constructor; [by vm_compute|constructor].
Defined.

(** More than [maxNestingDepth] arrays opened one in another are refused,
    whatever follows them. *)
Lemma parse_value_too_deep (n : nat) : ∀ (fuel : nat) (depth : Z) (rest : string),
  maxNestingDepth < depth + Z.of_nat (S n) →
  parse_value fuel depth (nested (S n) rest) = None.
Proof.
  induction n as [|n IH]; intros fuel depth rest Hdeep;
    (destruct fuel as [|fuel]; [done|]).
  - cbn [nested parse_value]. change (skip_space (String (chr 91) rest))
      with (String (chr 91) rest). cbn beta iota.
    change (byte (chr 91) =? 123) with false. change (byte (chr 91) =? 91) with true.
    cbn beta iota. destruct (Z.ltb_spec maxNestingDepth (depth + 1)); [done|lia].
  - change (nested (S (S n)) rest) with (String (chr 91) (nested (S n) rest)).
    cbn [parse_value]. change (skip_space (String (chr 91) (nested (S n) rest)))
      with (String (chr 91) (nested (S n) rest)). cbn beta iota.
    change (byte (chr 91) =? 123) with false. change (byte (chr 91) =? 91) with true.
    cbn beta iota. destruct (Z.ltb_spec maxNestingDepth (depth + 1)); [done|].
    change (nested (S n) rest) with (String (chr 91) (nested n rest)) at 1.
    change (skip_space (String (chr 91) (nested n rest)))
      with (String (chr 91) (nested n rest)). cbn beta iota.
    change (byte (chr 91) =? 93) with false. cbn beta iota.
    destruct fuel as [|fuel]; [done|]. cbn [parse_elements].
    change (String (chr 91) (nested n rest)) with (nested (S n) rest).
    rewrite IH by lia. done.
Qed.



(** Two strings that agree and have a newline after a first line without
    newline agree on the first line and on the rest. *)
Lemma first_line_inj (p1 p2 q1 q2 : string) :
  count_bytes is_newline p1 = 0%nat → count_bytes is_newline p2 = 0%nat →
  p1 +:+ LF +:+ q1 = p2 +:+ LF +:+ q2 → p1 = p2 ∧ q1 = q2.
Proof.
  intros H1 H2 Heq.
  pose proof (cut_at_found is_newline p1 (chr 10) q1 H1 eq_refl) as C1.
  pose proof (cut_at_found is_newline p2 (chr 10) q2 H2 eq_refl) as C2.
  change (String (chr 10) ?q) with (LF +:+ q) in C1, C2.
  rewrite Heq in C1. rewrite C1 in C2. by injection C2.
Qed.

(** X12: the string to sign of the blob and queue services binds the verb
    and the three content headers: when two requests have the same string
    to sign and none of their verbs and values of [Content-MD5],
    [Content-Type] and [Date] holds a newline, they have the same verb and
    the same three values.  The table string to sign likewise binds the
    value of [x-ms-date] and the canonical resource. *)
Theorem string_to_sign_binds `{GoRuntime}
    (s : baseSigner) (verb1 verb2 : string) (h1 h2 : gmap string string)
    (u1 u2 : URL) (sts : string) :
  let field (h : gmap string string) (k : string) := default "" (h !! k) in
  (blobQueueSigner_canonicalizedString s verb1 h1 u1 = (sts, None) →
   blobQueueSigner_canonicalizedString s verb2 h2 u2 = (sts, None) →
   Forall (λ x, count_bytes is_newline x = 0%nat)
     [verb1; field h1 "Content-MD5"; field h1 "Content-Type"; field h1 "Date";
      verb2; field h2 "Content-MD5"; field h2 "Content-Type"; field h2 "Date"] →
   verb1 = verb2
   ∧ field h1 "Content-MD5" = field h2 "Content-MD5"
   ∧ field h1 "Content-Type" = field h2 "Content-Type"
   ∧ field h1 "Date" = field h2 "Date") ∧
  (tableSigner_canonicalizedString s verb1 h1 u1 = (sts, None) →
   tableSigner_canonicalizedString s verb2 h2 u2 = (sts, None) →
   count_bytes is_newline (field h1 "x-ms-date") = 0%nat →
   count_bytes is_newline (field h2 "x-ms-date") = 0%nat →
   field h1 "x-ms-date" = field h2 "x-ms-date"
   ∧ fst (canonicalResource s u1) = fst (canonicalResource s u2)).
Proof.
  intros field. split.
  - unfold blobQueueSigner_canonicalizedString.
    destruct (canonicalResource s u1) as [c1 [e1|]]; [done|].
    destruct (canonicalResource s u2) as [c2 [e2|]]; [done|].
    intros E1 E2 Hnl. injection E1 as E1. injection E2 as E2. rewrite <- E2 in E1.
    repeat (apply Forall_cons in Hnl as [? Hnl]).
    apply first_line_inj in E1 as [-> E1]; [|done..].
    apply first_line_inj in E1 as [? E1]; [|done..].
    apply first_line_inj in E1 as [? E1]; [|done..].
    apply first_line_inj in E1 as [? E1]; [|done..].
    done.
  - unfold tableSigner_canonicalizedString.
    destruct (canonicalResource s u1) as [c1 [e1|]]; [done|].
    destruct (canonicalResource s u2) as [c2 [e2|]]; [done|].
    intros E1 E2 Hn1 Hn2. injection E1 as E1. injection E2 as E2. rewrite <- E2 in E1.
    by apply first_line_inj in E1 as [? ?].
Qed.

(** * Requests of the table service *)

Lemma add_headers_Some `{NetHTTP} (req : http_Request) (headers : list (string * string)) :
  add_headers (Some req) headers =
  Returns (Some (foldl (λ req '(k, v), Header_Add req k v) req headers)).
Proof.
  unfold add_headers. revert req.
  induction headers as [|[k v] headers IH]; intros req; [done|].
  cbn [foldl outcome_bind]. apply IH.
Qed.

Lemma add_headers_None `{NetHTTP} (headers : list (string * string)) :
  headers ≠ [] → add_headers None headers = Panics.
Proof.
  destruct headers as [|[k v] headers]; [done|]. intros _.
  unfold add_headers. cbn [foldl outcome_bind].
  induction headers as [|[k' v'] headers IH]; [done|]. apply IH.
Qed.

Lemma range_map_insert `{GoRuntime} (k v : string) (m : gmap string string) :
  range_map (<[k := v]> m) ≠ [].
Proof.
  intros Hnil. pose proof (range_map_visits (<[k := v]> m)) as Hp.
  rewrite Hnil in Hp. apply Permutation_nil_l in Hp. symmetry in Hp.
  apply map_to_list_empty_iff in Hp.
  by apply insert_non_empty in Hp.
Qed.

(** An endpoint built without parameters has the canonical resource
    /account/path. *)
Lemma canonicalResource_endpoint `{GoRuntime} (c : Client.t) (service path : string) :
  let s := {| accountName := Client.accountName c |} in
  let u := Location (getEndpoint c service path ∅) in
  canonicalResource s u =
    ("/" +:+ Client.accountName c +:+ encodeComponents s (Path u), None).
Proof.
  intros s u.
  destruct (ParseQuery_Encode (∅ : gmap string (list string))) as [Hmal Hget].
  destruct (canonicalResource_cases s u) as [[Hbad _]|[_ Hok]].
  { change (RawQuery u) with (Values_Encode ∅) in Hbad. congruence. }
  change (RawQuery u) with (Values_Encode ∅) in Hok.
  rewrite (Hget "comp") in Hok. by rewrite Hok.
Qed.

Section exec.
Context `{GoRuntime} `{NetHTTP}.

Lemma Client_exec_answered (c : Client.t) (verb : string) (url : Endpoint)
    (headers : gmap string string) (body : option Reader) (signer : requestSigner)
    (errFunc : string → Z → string → option error)
    (cs : string) (req : http_Request) (resp : Response.t http_Header) :
  canonicalizedString signer verb headers (Location url) = (cs, None) →
  sent_request c verb url headers body signer = Some req →
  http_Do req = inl resp →
  Client_exec c verb url (Some headers) body signer errFunc =
  Returns
    (if is_error_status (Response.StatusCode resp) then
       match readResponseBody resp with
       | (_, Some err) => (None, Some (IOError err))
       | (respBody, None) =>
         (Some {| storageResponse.statusCode := Response.StatusCode resp;
                  storageResponse.headers := Response.Header resp;
                  storageResponse.body := bytes_NewReader respBody |},
          if (String.length respBody =? 0)%nat
          then Some (NoBodyError (Response.Status resp))
          else Err <$> errFunc respBody (Response.StatusCode resp)
                         (Header_Get (Response.Header resp) "x-ms-request-id"))
       end
     else
       (Some {| storageResponse.statusCode := Response.StatusCode resp;
                storageResponse.headers := Response.Header resp;
                storageResponse.body := Response.Body resp |},
        None)).
Proof.
  intros Hcs Hreq Hdo. unfold Client_exec, sent_request in *.
  cbn [default from_option]. unfold id, getAuthorizationHeader in *. rewrite Hcs in *.
  cbn [fst] in Hreq. cbn beta iota zeta.
  destruct (http_NewRequest verb url body) as [req0|]; [|done].
  cbn [mbind option_bind] in Hreq. injection Hreq as <-.
  rewrite add_headers_Some. cbn [outcome_bind]. rewrite Hdo.
  unfold is_error_status.
  destruct ((400 <=? Response.StatusCode resp) && (Response.StatusCode resp <=? 505));
    [|done].
  by destruct (readResponseBody resp) as [respBody [err|]].
Qed.

Lemma table_signing (c : Client.t) (verb service path : string)
    (headers : gmap string string) :
  let s := {| accountName := Client.accountName c |} in
  let u := Location (getEndpoint c service path ∅) in
  canonicalizedString (tableSigner s) verb headers u =
    (default "" (headers !! "x-ms-date") +:+ LF +:+ "/" +:+ Client.accountName c
       +:+ encodeComponents s (Path u), None).
Proof.
  intros s u. cbn [canonicalizedString tableSigner].
  unfold tableSigner_canonicalizedString.
  by rewrite (canonicalResource_endpoint c service path).
Qed.

End exec.

Lemma readResponseBody_ReadAll {H} (resp : Response.t H) :
  readResponseBody resp = ioutil_ReadAll (Response.Body resp).
Proof.
  unfold readResponseBody, ioutil_ReadAll.
  by destruct (ending (Response.Body resp)).
Qed.

(** What [TableServiceClient.exec] returns for a request that was sent and
    answered: the response alone outside the status codes 400 to 505, and an
    error inside them. *)
Lemma table_exec_cases `{GoRuntime} `{NetHTTP} (c : Client.t) (verb path : string)
    (headers : gmap string string) (body : option Reader)
    (req : http_Request) (resp : Response.t http_Header) :
  let uri := getEndpoint c tableServiceName path ∅ in
  let signer := tableSigner {| accountName := Client.accountName c |} in
  let st := Response.StatusCode resp in
  sent_request c verb uri headers body signer = Some req →
  http_Do req = inl resp →
  (is_error_status st = false ∧
   TableServiceClient_exec c verb uri (Some headers) body =
     Returns (Some {| storageResponse.statusCode := st;
                      storageResponse.headers := Response.Header resp;
                      storageResponse.body := Response.Body resp |}, None))
  ∨ (is_error_status st = true ∧
     ∃ r err, TableServiceClient_exec c verb uri (Some headers) body =
                Returns (r, Some err)
       ∧ (∀ msg, ending (Response.Body resp) = io_failure msg →
            err = IOError (io_failure msg))
       ∧ (ending (Response.Body resp) = io_EOF →
            err = if (String.length (contents (Response.Body resp)) =? 0)%nat
                  then NoBodyError (Response.Status resp)
                  else Err (tableErrFromJSON (contents (Response.Body resp)) st
                              (Header_Get (Response.Header resp) "x-ms-request-id")))).
Proof.
  intros uri signer st Hreq Hdo. unfold TableServiceClient_exec. fold signer.
  rewrite (Client_exec_answered c verb uri headers body signer _ _ req resp
             (table_signing c verb tableServiceName path headers) Hreq Hdo).
  fold st. destruct (is_error_status st); [right|left; done].
  split; [done|]. rewrite readResponseBody_ReadAll. unfold ioutil_ReadAll.
  destruct (ending (Response.Body resp)) as [|msg'].
  - destruct (String.length (contents (Response.Body resp)) =? 0)%nat;
      eexists _, _; (split; [reflexivity|done]).
  - eexists _, _. split; [reflexivity|]. split; [|done].
    by intros msg [= ->].
Qed.

(** X13: the Authorization header of a request to the table service.  For an
    endpoint that [getEndpoint] builds without parameters, signing never
    fails, and the value is SharedKeyLite, the account name and the HMAC of
    the x-ms-date header, a newline, and /account followed by the escaped
    path (with its leading slash added when missing); in the headers of the
    table operations, x-ms-date is the time that [getStandardHeaders] read. *)
Theorem table_authorization `{GoRuntime} `{NetHTTP} (c : Client.t) (verb path : string)
    (headers : gmap string string) :
  let s := {| accountName := Client.accountName c |} in
  let uri := getEndpoint c tableServiceName path ∅ in
  getAuthorizationHeader c (tableSigner s) verb uri headers =
    ("SharedKeyLite " +:+ Client.accountName c +:+ ":" +:+
       computeHmac256 c
         (default "" (headers !! "x-ms-date") +:+ LF +:+ "/" +:+ Client.accountName c
            +:+ encodeComponents s (if strings_HasPrefix path "/" then path
                                    else "/" +:+ path)),
     None)
  ∧ baseHeaders c !! "x-ms-date" = Some currentTimeRfc1123Formatted
  ∧ <["Content-Type" := jsonContentType]> (baseHeaders c) !! "x-ms-date"
    = Some currentTimeRfc1123Formatted.
Proof.
  intros s uri. split_and!.
  - unfold getAuthorizationHeader.
    rewrite (table_signing c verb tableServiceName path headers).
    unfold uri, getEndpoint. cbn [Location Path authScheme tableSigner].
    by destruct (strings_HasPrefix path "/").
  - done.
  - done.
Qed.

Lemma error_status_bounds (st : Z) :
  is_error_status st = true ↔ 400 ≤ st ≤ 505.
Proof. unfold is_error_status. rewrite andb_true_iff, !Z.leb_le. lia. Qed.

Lemma eqb_empty (s : string) : s ≠ "" → String.eqb s "" = false.
Proof. by destruct s. Qed.

(** X14: [InsertEntity], for a table name that is not empty and an entity
    that serializes, once the request was made and answered: it returns
    without panic, and it returns nil exactly when the status code of the
    answer is 201 or 204.  Outside the codes 400 to 505 any other code gives
    the [UnexpectedStatusCodeError]; inside them, a body that was read to
    its end and is not empty gives the error that [tableErrFromJSON] decodes
    from it. *)
Theorem InsertEntity_succeeds_iff `{GoRuntime} `{EncodingJSON} `{NetHTTP}
    (c : Client.t) (tableName : string) (entity : TableEntity) (body : option string)
    (req : http_Request) (resp : Response.t http_Header) :
  let uri := getEndpoint c tableServiceName tableName ∅ in
  let headers := <["Content-Type" := jsonContentType]> (baseHeaders c) in
  let signer := tableSigner {| accountName := Client.accountName c |} in
  let st := Response.StatusCode resp in
  tableName ≠ "" →
  TableEntity_jsonMarshal entity = Returns (body, None) →
  sent_request c "POST" uri headers (Some (bytes_NewReader (default "" body))) signer
    = Some req →
  http_Do req = inl resp →
  ∃ r, InsertEntity c tableName (Some entity) = Returns r
    ∧ (r = None ↔ st = 201 ∨ st = 204)
    ∧ (is_error_status st = false → st ≠ 201 → st ≠ 204 →
       r = Some (StatusCodeError {| allowed := [201; 204]; got := st |}))
    ∧ (is_error_status st = true →
       ending (Response.Body resp) = io_EOF →
       contents (Response.Body resp) ≠ "" →
       r = Some (Err (tableErrFromJSON (contents (Response.Body resp)) st
                        (Header_Get (Response.Header resp) "x-ms-request-id")))).
Proof.
  intros uri headers signer st Hname Hbody Hreq Hdo.
  unfold InsertEntity. rewrite (eqb_empty _ Hname), Hbody. cbn [outcome_bind].
  destruct (table_exec_cases c "POST" tableName headers _ req resp Hreq Hdo)
    as [[Hst Hex]|[Hst (r & err & Hex & Hio & Heof)]];
    subst uri headers; rewrite Hex; fold st in Hst |- *.
  - cbn [outcome_bind storageResponse.statusCode]. eexists. split; [reflexivity|].
    unfold checkRespCode.
    destruct (Z.eqb_spec st 201) as [E201|H201];
      [split_and!; [split; auto|done|congruence]|].
    destruct (Z.eqb_spec st 204) as [E204|H204];
      [split_and!; [split; auto|done|congruence]|].
    cbn [fmap option_fmap option_map]. split_and!; [|done|congruence].
    split; [done|]. by intros [?|?].
  - cbn [outcome_bind]. apply error_status_bounds in Hst as Hb.
    exists (Some err). split; [by destruct r|]. split_and!.
    + split; [done|]. lia.
    + congruence.
    + intros _ Hend Hne. rewrite (Heof Hend).
      by destruct (contents (Response.Body resp)).
Qed.

Lemma InsertEntity_succeeds_iff_witness :
  ∃ r, @InsertEntity go_ascii json_plain_maps (answering true (inl (status_only 204 "")))
         sample_client "mytable" (Some sample_entity) = Returns r
    ∧ (r = None ↔ (204 = 201 ∨ 204 = 204)).
Proof.
  eassert (@TableEntity_jsonMarshal go_ascii json_plain_maps sample_entity
           = Returns (_, None)) as Hbody by (vm_compute; reflexivity).
  match type of Hbody with
  | _ = Returns (?b, None) =>
    eassert (@sent_request go_ascii (answering true (inl (status_only 204 "")))
               sample_client "POST"
               (getEndpoint sample_client tableServiceName "mytable" ∅)
               (<["Content-Type" := jsonContentType]> (@baseHeaders (answering true (inl (status_only 204 ""))) sample_client))
               (Some (bytes_NewReader (default "" b)))
               (@tableSigner go_ascii {| accountName := Client.accountName sample_client |})
             = Some _) as Hreq by (vm_compute; reflexivity)
  end.
  destruct (@InsertEntity_succeeds_iff go_ascii json_plain_maps
              (answering true (inl (status_only 204 "")))
              sample_client "mytable" sample_entity _ _ (status_only 204 "")
              ltac:(discriminate) Hbody Hreq eq_refl)
    as (r & Hr & Hiff & _).
  exists r. split; [exact Hr|exact Hiff].
Defined.

(** X15: [QueryEntity], for a table name and keys that are not empty, once
    the request was made and answered: it returns without panic, and it
    returns nil exactly when the status code of the answer is outside 400 to
    505.  It does not look at the status code otherwise. *)
Theorem QueryEntity_succeeds_iff `{GoRuntime} `{NetHTTP}
    (c : Client.t) (tableName partitionKey rowKey : string)
    (req : http_Request) (resp : Response.t http_Header) :
  let uri := getEndpoint c tableServiceName
               (entity_path tableName partitionKey rowKey) ∅ in
  let headers := <[acceptKey := noMetadataHeader]>
                   (<["Content-Type" := jsonContentType]> (baseHeaders c)) in
  let signer := tableSigner {| accountName := Client.accountName c |} in
  let st := Response.StatusCode resp in
  tableName ≠ "" → partitionKey ≠ "" → rowKey ≠ "" →
  sent_request c "GET" uri headers None signer = Some req →
  http_Do req = inl resp →
  ∃ r, QueryEntity c tableName partitionKey rowKey = Returns r
    ∧ (r = None ↔ ¬ (400 ≤ st ≤ 505)).
Proof.
  intros uri headers signer st Ht Hp Hr Hreq Hdo.
  unfold QueryEntity. rewrite (eqb_empty _ Ht), (eqb_empty _ Hp), (eqb_empty _ Hr).
  destruct (table_exec_cases c "GET" _ headers _ req resp Hreq Hdo)
    as [[Hst Hex]|[Hst (r & err & Hex & _)]];
    subst uri headers; rewrite Hex; fold st in Hst |- *; cbn [outcome_bind].
  - exists None. split; [done|]. split; [|done]. intros _ Hb.
    apply error_status_bounds in Hb. congruence.
  - exists (Some err). split; [by destruct r|].
    apply error_status_bounds in Hst. split; [done|]. intros Hn. by destruct Hn.
Qed.

Lemma QueryEntity_succeeds_iff_witness :
  ∃ r, @QueryEntity go_ascii (answering true (inl (status_only 506 "")))
         sample_client "mytable" "pk" "rk" = Returns r
    ∧ (r = None ↔ ¬ (400 ≤ 506 ≤ 505)).
Proof.
  eassert (@sent_request go_ascii (answering true (inl (status_only 506 "")))
             sample_client "GET"
             (getEndpoint sample_client tableServiceName (entity_path "mytable" "pk" "rk") ∅)
             (<[acceptKey := noMetadataHeader]>
                (<["Content-Type" := jsonContentType]> (@baseHeaders (answering true (inl (status_only 506 ""))) sample_client)))
             None (@tableSigner go_ascii {| accountName := Client.accountName sample_client |})
           = Some _) as Hreq by (vm_compute; reflexivity).
  apply (@QueryEntity_succeeds_iff go_ascii (answering true (inl (status_only 506 "")))
           sample_client "mytable" "pk" "rk" _ (status_only 506 "")
           ltac:(discriminate) ltac:(discriminate) ltac:(discriminate) Hreq eq_refl).
Defined.

(** X16: [DeleteEntity], for a table name and keys that are not empty, once
    the request was made and answered: it returns without panic, and it
    returns nil exactly when the status code of the answer is 204; any other
    code outside 400 to 505 gives the [UnexpectedStatusCodeError]. *)
Theorem DeleteEntity_succeeds_iff `{GoRuntime} `{NetHTTP}
    (c : Client.t) (tableName partitionKey rowKey : string)
    (req : http_Request) (resp : Response.t http_Header) :
  let uri := getEndpoint c tableServiceName
               (entity_path tableName partitionKey rowKey) ∅ in
  let signer := tableSigner {| accountName := Client.accountName c |} in
  let st := Response.StatusCode resp in
  tableName ≠ "" → partitionKey ≠ "" → rowKey ≠ "" →
  sent_request c "DELETE" uri (baseHeaders c) None signer = Some req →
  http_Do req = inl resp →
  ∃ r, DeleteEntity c tableName partitionKey rowKey = Returns r
    ∧ (r = None ↔ st = 204)
    ∧ (is_error_status st = false → st ≠ 204 →
       r = Some (StatusCodeError {| allowed := [204]; got := st |})).
Proof.
  intros uri signer st Ht Hp Hr Hreq Hdo.
  unfold DeleteEntity. rewrite (eqb_empty _ Ht), (eqb_empty _ Hp), (eqb_empty _ Hr).
  destruct (table_exec_cases c "DELETE" _ (baseHeaders c) _ req resp Hreq Hdo)
    as [[Hst Hex]|[Hst (r & err & Hex & _)]];
    subst uri; rewrite Hex; fold st in Hst |- *; cbn [outcome_bind].
  - cbn [storageResponse.statusCode]. eexists. split; [reflexivity|].
    unfold checkRespCode.
    destruct (Z.eqb_spec st 204) as [E204|H204]; [by split_and!|].
    cbn [fmap option_fmap option_map]. by split_and!.
  - exists (Some err). split; [by destruct r|].
    apply error_status_bounds in Hst as Hb. split_and!; [|congruence].
    split; [done|lia].
Qed.

Lemma DeleteEntity_succeeds_iff_witness :
  ∃ r, @DeleteEntity go_ascii (answering true (inl (status_only 200 "")))
         sample_client "mytable" "pk" "rk" = Returns r
    ∧ (r = None ↔ 200 = 204)
    ∧ r = Some (StatusCodeError {| allowed := [204]; got := 200 |}).
Proof.
  eassert (@sent_request go_ascii (answering true (inl (status_only 200 "")))
             sample_client "DELETE"
             (getEndpoint sample_client tableServiceName (entity_path "mytable" "pk" "rk") ∅)
             (@baseHeaders (answering true (inl (status_only 200 ""))) sample_client)
             None (@tableSigner go_ascii {| accountName := Client.accountName sample_client |})
           = Some _) as Hreq by (vm_compute; reflexivity).
  destruct (@DeleteEntity_succeeds_iff go_ascii (answering true (inl (status_only 200 "")))
              sample_client "mytable" "pk" "rk" _ (status_only 200 "")
              ltac:(discriminate) ltac:(discriminate) ltac:(discriminate) Hreq eq_refl)
    as (r & Hr & Hiff & Hcode).
  exists r. split_and!; [exact Hr|exact Hiff|].
  apply Hcode; [reflexivity|discriminate].
Defined.

(** X17: [DeleteTable], once the request was made and answered: it returns
    without panic, and it returns nil exactly when the status code of the
    answer is 204; any other code outside 400 to 505 gives the
    [UnexpectedStatusCodeError].  The table name is not checked: an empty
    one is sent as Tables(''). *)
Theorem DeleteTable_succeeds_iff `{GoRuntime} `{NetHTTP}
    (c : Client.t) (tableName : string)
    (req : http_Request) (resp : Response.t http_Header) :
  let uri := getEndpoint c tableServiceName ("Tables('" +:+ tableName +:+ "')") ∅ in
  let signer := tableSigner {| accountName := Client.accountName c |} in
  let st := Response.StatusCode resp in
  sent_request c "DELETE" uri (baseHeaders c) None signer = Some req →
  http_Do req = inl resp →
  ∃ r, DeleteTable c tableName = Returns r
    ∧ (r = None ↔ st = 204)
    ∧ (is_error_status st = false → st ≠ 204 →
       r = Some (StatusCodeError {| allowed := [204]; got := st |})).
Proof.
  intros uri signer st Hreq Hdo. unfold DeleteTable.
  destruct (table_exec_cases c "DELETE" ("Tables('" +:+ tableName +:+ "')")
              (baseHeaders c) None req resp Hreq Hdo)
    as [[Hst Hex]|[Hst (r & err & Hex & _)]];
    subst uri; rewrite Hex; fold st in Hst |- *; cbn [outcome_bind].
  - cbn [storageResponse.statusCode]. eexists. split; [reflexivity|].
    unfold checkRespCode.
    destruct (Z.eqb_spec st 204) as [E204|H204]; [by split_and!|].
    cbn [fmap option_fmap option_map]. by split_and!.
  - exists (Some err). split; [by destruct r|].
    apply error_status_bounds in Hst as Hb. split_and!; [|congruence].
    split; [done|lia].
Qed.

Lemma DeleteTable_succeeds_iff_witness :
  ∃ r, @DeleteTable go_ascii (answering true (inl (status_only 204 "")))
         sample_client "" = Returns r
    ∧ (r = None ↔ 204 = 204).
Proof.
  eassert (@sent_request go_ascii (answering true (inl (status_only 204 "")))
             sample_client "DELETE"
             (getEndpoint sample_client tableServiceName ("Tables('" +:+ "" +:+ "')") ∅)
             (@baseHeaders (answering true (inl (status_only 204 ""))) sample_client)
             None (@tableSigner go_ascii {| accountName := Client.accountName sample_client |})
           = Some _) as Hreq by (vm_compute; reflexivity).
  destruct (@DeleteTable_succeeds_iff go_ascii (answering true (inl (status_only 204 "")))
              sample_client "" _ (status_only 204 "") Hreq eq_refl)
    as (r & Hr & Hiff & _).
  exists r. split; [exact Hr|exact Hiff].
Defined.

(** X18: [exec] panics instead of returning an error when, the request
    being signed, its map of headers is nil or [http.NewRequest] fails: the
    error of [http.NewRequest] is dropped, and the nil request is used. *)
Theorem Client_exec_panics `{GoRuntime} `{NetHTTP} (c : Client.t) (verb : string)
    (url : Endpoint) (headers : option (gmap string string)) (body : option Reader)
    (signer : requestSigner) (errFunc : string → Z → string → option error)
    (cs : string) :
  canonicalizedString signer verb (default ∅ headers) (Location url) = (cs, None) →
  headers = None ∨ http_NewRequest verb url body = None →
  Client_exec c verb url headers body signer errFunc = Panics.
Proof.
  intros Hcs Hor. unfold Client_exec, getAuthorizationHeader. rewrite Hcs.
  destruct headers as [headers|]; [|done].
  destruct Hor as [?|Hnew]; [done|]. rewrite Hnew.
  cbn beta iota zeta. by rewrite add_headers_None by apply range_map_insert.
Qed.

Lemma Client_exec_panics_witness :
  @Client_exec go_ascii (answering false (inl (status_only 204 "")))
    sample_client "GET" (getEndpoint sample_client tableServiceName "mytable" ∅)
    (Some ∅) None (@tableSigner go_ascii {| accountName := "acct" |})
    (λ b s r, Some (tableErrFromJSON b s r)) = Panics.
Proof.
  eapply (@Client_exec_panics go_ascii (answering false (inl (status_only 204 "")))).
  - vm_compute. reflexivity.
  - right. reflexivity.
Defined.
